(** * FeatherOps image API: generation pipeline and daily quota

    A shallow embedding of the image-generation service
    ([generateImage], [pollTaskCompletion], [uploadToStorage],
    [imageToBase64]), of the [POST /generations] route handler, of the
    static provider tables in [config/constants.js] and of the
    per-key daily limiter ([createDynamicRateLimiter]).

    JavaScript effects are written as state passing over a [World]
    (upstream HTTP trace, temp files, storage bucket, database tables,
    console) with a result type that separates a returned value from a
    thrown exception.  Everything the program cannot decide itself
    (what the upstream answers, whether a storage call fails) is read
    from an [Env] of scripted answers. *)

From Stdlib Require Import ZArith List Lia Bool.
From stdpp Require Import gmap strings list fin_maps.

Open Scope string_scope.

(** ** JavaScript values used by the tables *)

Module Js.

(** A string-valued optional field: [None] is [undefined]. *)
Definition truthy (v : option string) : bool :=
  match v with
  | Some s => negb (String.eqb s "")
  | None => false
  end.

(** [v || d] on an optional string. *)
Definition or_else (v : option string) (d : string) : string :=
  match v with
  | Some s => if String.eqb s "" then d else s
  | None => d
  end.

(** Destructuring default [{ x = d }]: only [undefined] takes the default. *)
Definition default_to (v : option string) (d : string) : string :=
  match v with
  | Some s => s
  | None => d
  end.

(** Members every object literal inherits from [Object.prototype]. *)
Definition objectPrototypeMembers : list string :=
  [ "constructor"; "hasOwnProperty"; "isPrototypeOf"; "propertyIsEnumerable";
    "toLocaleString"; "toString"; "valueOf"; "__proto__";
    "__defineGetter__"; "__defineSetter__"; "__lookupGetter__";
    "__lookupSetter__" ].

(** What [obj[key]] can evaluate to on a table of strings. *)
Inductive Val :=
| Undefined
| Str (s : string)
| Inherited (member : string).

Definition is_truthy (v : Val) : bool :=
  match v with
  | Undefined => false
  | Str s => negb (String.eqb s "")
  | Inherited _ => true
  end.

Fixpoint assoc (tbl : list (string * string)) (k : string) : option string :=
  match tbl with
  | [] => None
  | (k', v) :: rest => if String.eqb k' k then Some v else assoc rest k
  end.

Definition mem (k : string) (l : list string) : bool :=
  existsb (String.eqb k) l.

(** [tbl[k]] for a string key: own properties first, then the prototype. *)
Definition get (tbl : list (string * string)) (k : string) : Val :=
  match assoc tbl k with
  | Some v => Str v
  | None => if mem k objectPrototypeMembers then Inherited k else Undefined
  end.

(** ToPropertyKey / template-literal conversion of a value. *)
Definition to_string (v : Val) : string :=
  match v with
  | Undefined => "undefined"
  | Str s => s
  | Inherited m =>
      if String.eqb m "__proto__" then "[object Object]"
      else "function " ++ m ++ "() { [native code] }"
  end.

(** [a || b] where [b] is a plain string. *)
Definition val_or (a : Val) (b : option string) : Val :=
  if is_truthy a then a
  else match b with Some s => Str s | None => Undefined end.

Definition startsWith (s p : string) : bool := String.prefix p s.

Definition includes (s sub : string) : bool :=
  match String.index 0 sub s with Some _ => true | None => false end.

End Js.

(** ** config/constants.js *)

Record Provider := { endpoint : string; models : list string }.

Definition PROVIDERS : list (string * Provider) :=
  [ ("dalle", {| endpoint := "/ai-image/dalle"; models := ["dalle"] |});
    ("magicstudio",
      {| endpoint := "/ai-image/magicstudio"; models := ["magicstudio"] |});
    ("sdxl", {| endpoint := "/ai-image/sdxl-beta"; models := ["sdxl-beta"] |});
    ("flux",
      {| endpoint := "/ai-image/flux";
         models := [ "flux"; "flux-schnell"; "flux-realism"; "flux-pro";
                     "flux-1.1-pro"; "flux-1.1-pro-ultra";
                     "flux-1.1-pro-ultra-raw" ] |}) ].

Definition MODEL_PROVIDERS : list (string * string) :=
  [ ("dalle", "dalle"); ("magicstudio", "magicstudio"); ("sdxl-beta", "sdxl");
    ("flux", "flux"); ("flux-schnell", "flux"); ("flux-realism", "flux");
    ("flux-pro", "flux"); ("flux-1.1-pro", "flux");
    ("flux-1.1-pro-ultra", "flux"); ("flux-1.1-pro-ultra-raw", "flux") ].

Definition FLUX_SIZE_MAP : list (string * string) :=
  [ ("256x256", "flux"); ("512x512", "flux-schnell");
    ("1024x1024", "flux-realism"); ("1792x1024", "flux-pro");
    ("1024x1792", "flux-1.1-pro"); ("2048x2048", "flux-1.1-pro-ultra");
    ("hd", "flux-1.1-pro-ultra-raw") ].

Definition SUPPORTED_MODELS : list string :=
  [ "dalle"; "magicstudio"; "sdxl-beta"; "flux"; "flux-schnell";
    "flux-realism"; "flux-pro"; "flux-1.1-pro"; "flux-1.1-pro-ultra";
    "flux-1.1-pro-ultra-raw" ].

Definition OPENAI_MODEL_MAP : list (string * string) :=
  [ ("dall-e-3", "dalle"); ("dall-e-2", "magicstudio");
    ("stable-diffusion-3", "sdxl-beta");
    ("stable-diffusion-2", "flux-1.1-pro-ultra") ].

Definition SUPPORTED_SIZES : list string :=
  [ "256x256"; "512x512"; "1024x1024"; "1792x1024"; "1024x1792";
    "2048x2048"; "hd" ].

Definition SUPPORTED_FORMATS : list string := [ "url"; "b64_json" ].

Record PollConfig := { maxAttempts : nat; interval : Z }.

Definition POLL_CONFIG : PollConfig :=
  {| maxAttempts := 60; interval := 10000 |}.

(** [PROVIDERS[name]] for a provider name read from [MODEL_PROVIDERS]. *)
Fixpoint provider_of (tbl : list (string * Provider)) (k : string)
  : option Provider :=
  match tbl with
  | [] => None
  | (k', p) :: rest => if String.eqb k' k then Some p else provider_of rest k
  end.

(** ** Errors, the world and the scripted environment *)

(** [ApiError] of middleware/errorHandler.js, and any other thrown
    [Error] (an axios rejection carries [response.status] and
    [config.url]; a [TypeError] carries neither). *)
Inductive JsError :=
| ApiError (message : string) (statusCode : Z) (type : string)
    (param : option string) (code : option string)
| PlainError (message : string) (responseStatus : option Z)
    (configUrl : option string).

Definition TypeError (message : string) : JsError :=
  PlainError message None None.

Definition Bytes := list Byte.byte.

Inductive Event :=
| EvSubmit (apiUrl : string)
| EvPoll (taskUrl : option string)
| EvSleep (ms : Z)
| EvDownload (sourceUrl : string)
| EvStorageUpload (storagePath : string)
| EvCreateSignedUrl (storagePath : string) (expirySeconds : Z).

Inductive ConsoleLine :=
| PollingAttemptFailed (attempt : nat) (e : JsError)
| FailedToLogRequest (e : JsError)
| FailedToLogError (e : JsError)
| ImageGenerationError (e : JsError)
| ErrorUploadingToStorage (e : JsError)
| ErrorConvertingToBase64 (e : JsError).

Record RequestLog := {
  rl_key_id : option string;
  rl_endpoint : string;
  rl_prompt : string;
  rl_model : string;
  rl_status : string;
  rl_created_at : Z
}.

Record ImageRow := {
  im_key_id : option string;
  im_storage_path : string;
  im_prompt : string;
  im_model : string;
  im_created_at : Z
}.

Record World := {
  trace : list Event;            (* upstream and storage calls, oldest first *)
  console : list ConsoleLine;    (* console.error lines, oldest first *)
  clock : Z;                     (* milliseconds *)
  polls : nat;                   (* task-status GETs issued so far *)
  downloads : nat;               (* artifact downloads issued so far *)
  uuids : nat;                   (* uuidv4() calls so far *)
  dirs : gset string;
  files : gmap string Bytes;     (* local files, the temp files among them *)
  bucket : gmap string Bytes;    (* the storage bucket *)
  request_logs : list RequestLog;
  images : list ImageRow
}.

(** An axios call resolves with [response.data] or rejects. *)
Inductive Http (A : Type) :=
| Responded (data : A)
| Rejected (message : string) (status : option Z).
Arguments Responded {A} data.
Arguments Rejected {A} message status.

(** A supabase call resolves with [{ data }], resolves with [{ error }],
    or rejects. *)
Inductive Supa (A : Type) :=
| Data (a : A)
| Failed (message : string)
| Crashed (message : string).
Arguments Data {A} a.
Arguments Failed {A} message.
Arguments Crashed {A} message.

(** How the write stream of a download ends: ['finish'], or ['error'] with
    whatever was left on disk. *)
Inductive StreamEnd :=
| Finish
| StreamError (message : string) (left_on_disk : option Bytes).

Record JobData := {
  job_ok : bool;
  job_message : option string;
  job_task_url : option string
}.

Record TaskData := {
  status : option string;
  url : option string;
  message : option string
}.

Record Env := {
  API_BASE_URL : string;
  STORAGE_BUCKET : string;
  TEMP_IMAGE_DIR : option string;
  encodeURIComponent : string -> string;
  path_join : string -> string -> string;
  toBase64 : Bytes -> string;
  uuidv4 : nat -> string;
  (* upstream provider; [None] data is an empty response body *)
  submit : string -> Http (option JobData);
  poll : nat -> string -> Http (option TaskData);
  download : nat -> string -> Http Bytes;
  (* local file system *)
  mkdir_fails : string -> bool;
  write_stream : string -> StreamEnd;
  read_fails : string -> bool;
  unlink_fails : string -> bool;
  (* storage bucket and tables *)
  storage_upload : string -> Bytes -> Supa unit;
  storage_sign : string -> Z -> Supa string;
  insert_image : ImageRow -> Supa unit;
  insert_request_log : RequestLog -> Supa unit
}.

(** ** A state-and-exception monad for async functions *)

Inductive Result (A : Type) :=
| Return (a : A)
| Throw (e : JsError).
Arguments Return {A} a.
Arguments Throw {A} e.

Definition M (A : Type) : Type := World -> Result A * World.

Definition ret {A} (a : A) : M A := fun w => (Return a, w).

Definition throw {A} (e : JsError) : M A := fun w => (Throw e, w).

Definition bind {A B} (m : M A) (k : A -> M B) : M B :=
  fun w =>
    match m w with
    | (Return a, w') => k a w'
    | (Throw e, w') => (Throw e, w')
    end.

(** [try { body } catch (error) { handler }] *)
Definition try_catch {A} (body : M A) (handler : JsError -> M A) : M A :=
  fun w =>
    match body w with
    | (Return a, w') => (Return a, w')
    | (Throw e, w') => handler e w'
    end.

Notation "'let*' x ':=' c 'in' k" := (bind c (fun x => k))
  (at level 10, x pattern, c at level 100, k at level 200).
Notation "c ';;' k" := (bind c (fun _ => k))
  (at level 100, k at level 200, right associativity).

Definition emit (e : Event) : M unit := fun w =>
  (Return tt,
   {| trace := trace w ++ [e]; console := console w; clock := clock w;
      polls := polls w; downloads := downloads w; uuids := uuids w;
      dirs := dirs w; files := files w; bucket := bucket w;
      request_logs := request_logs w; images := images w |}).

Definition console_error (l : ConsoleLine) : M unit := fun w =>
  (Return tt,
   {| trace := trace w; console := console w ++ [l]; clock := clock w;
      polls := polls w; downloads := downloads w; uuids := uuids w;
      dirs := dirs w; files := files w; bucket := bucket w;
      request_logs := request_logs w; images := images w |}).

(** [await new Promise(resolve => setTimeout(resolve, ms))] *)
Definition sleep (ms : Z) : M unit := fun w =>
  (Return tt,
   {| trace := trace w ++ [EvSleep ms]; console := console w;
      clock := (clock w + ms)%Z;
      polls := polls w; downloads := downloads w; uuids := uuids w;
      dirs := dirs w; files := files w; bucket := bucket w;
      request_logs := request_logs w; images := images w |}).

(** [Date.now()] and [new Date()]: the clock of the world.  It counts the
    time slept: the sleeps of the poll loop advance it, and the time an
    awaited request or store call takes is not modelled. *)
Definition now : M Z := fun w => (Return (clock w), w).

(** ** services/imageService.js: the poll loop *)

Record Image := { img_ok : bool; img_status : string; img_url : string }.

(** [await axios.get(taskUrl)] inside the poll loop.  The answer to the
    k-th status request is [poll env k]; an absent task URL makes axios
    reject before anything is sent. *)
Definition axios_get_task (env : Env) (taskUrl : option string)
  : M (option TaskData) := fun w =>
  let w' :=
    {| trace := trace w ++ [EvPoll taskUrl]; console := console w;
       clock := clock w; polls := S (polls w); downloads := downloads w;
       uuids := uuids w; dirs := dirs w; files := files w;
       bucket := bucket w; request_logs := request_logs w;
       images := images w |} in
  match taskUrl with
  | None => (Throw (PlainError "Invalid URL" None None), w')
  | Some u =>
      match poll env (polls w) u with
      | Responded data => (Return data, w')
      | Rejected msg st => (Throw (PlainError msg st (Some u)), w')
      end
  end.

Definition status_is (data : TaskData) (s : string) : bool :=
  match status data with
  | Some s' => String.eqb s' s
  | None => false
  end.

Definition GenerationFailed (data : TaskData) : JsError :=
  ApiError (Js.or_else (message data) "Image generation failed") 400
    "api_error" None (Some "generation_failed").

Definition GenerationTimeout : JsError :=
  ApiError "Image generation timed out" 408 "timeout_error" None
    (Some "generation_timeout").

(** One iteration of the [for] loop: [Some image] is the [return] inside
    the [try]; [None] falls through to the next iteration.  The [throw]
    for [status === 'error'] sits inside the same [try] as the request. *)
Definition pollAttempt (cfg : PollConfig) (env : Env)
    (taskUrl : option string) (attempt : nat) : M (option Image) :=
  try_catch
    (let* response := axios_get_task env taskUrl in
     match response with
     | None =>
         throw (TypeError "Cannot read properties of undefined")
     | Some data =>
         if status_is data "done" && Js.truthy (url data) then
           ret (Some {| img_ok := true; img_status := "done";
                        img_url := Js.default_to (url data) "" |})
         else if status_is data "error" then
           throw (GenerationFailed data)
         else
           sleep (interval cfg) ;; ret None
     end)
    (fun error =>
       console_error (PollingAttemptFailed (attempt + 1) error) ;;
       sleep (interval cfg) ;;
       ret None).

(** [for (let attempt = 0; attempt < maxAttempts; attempt++)], counted
    down on the attempts that remain, then the timeout [throw]. *)
Fixpoint pollLoop (cfg : PollConfig) (env : Env) (taskUrl : option string)
    (attempt remaining : nat) : M Image :=
  match remaining with
  | O => throw GenerationTimeout
  | S remaining' =>
      let* outcome := pollAttempt cfg env taskUrl attempt in
      match outcome with
      | Some image => ret image
      | None => pollLoop cfg env taskUrl (S attempt) remaining'
      end
  end.

Definition pollTaskCompletionWith (cfg : PollConfig) (env : Env)
    (taskUrl : option string) : M Image :=
  pollLoop cfg env taskUrl 0 (maxAttempts cfg).

Definition pollTaskCompletion : Env -> option string -> M Image :=
  pollTaskCompletionWith POLL_CONFIG.

(** Number of status requests in a trace. *)
Definition is_poll (e : Event) : bool :=
  match e with EvPoll _ => true | _ => false end.

Definition pollCount (t : list Event) : nat := length (List.filter is_poll t).

Definition is_submit (e : Event) : bool :=
  match e with EvSubmit _ => true | _ => false end.

Definition submitCount (t : list Event) : nat :=
  length (List.filter is_submit t).

(** ** services/imageService.js: materialization *)

(** What a resolved supabase call hands back: [{ data }] or [{ error }]. *)
Inductive Reply (A : Type) :=
| Ok (data : A)
| Err (message : string).
Arguments Ok {A} data.
Arguments Err {A} message.

Definition await_supa {A} (r : Supa A) : M (Reply A) :=
  match r with
  | Data a => ret (Ok a)
  | Failed msg => ret (Err msg)
  | Crashed msg => throw (PlainError msg None None)
  end.

Definition tempDirOf (env : Env) : string :=
  Js.or_else (TEMP_IMAGE_DIR env) "./temp".

(** [if (!fs.existsSync(tempDir)) fs.mkdirSync(tempDir, { recursive: true })] *)
Definition ensureTempDir (env : Env) : M unit := fun w =>
  let tempDir := tempDirOf env in
  if bool_decide (tempDir ∈ dirs w) then (Return tt, w)
  else if mkdir_fails env tempDir then
    (Throw (PlainError "EACCES: mkdir" None None), w)
  else
    (Return tt,
     {| trace := trace w; console := console w; clock := clock w;
        polls := polls w; downloads := downloads w; uuids := uuids w;
        dirs := {[tempDir]} ∪ dirs w; files := files w; bucket := bucket w;
        request_logs := request_logs w; images := images w |}).

Definition next_uuid (env : Env) : M string := fun w =>
  (Return (uuidv4 env (uuids w)),
   {| trace := trace w; console := console w; clock := clock w;
      polls := polls w; downloads := downloads w; uuids := S (uuids w);
      dirs := dirs w; files := files w; bucket := bucket w;
      request_logs := request_logs w; images := images w |}).

(** [await axios({ method: 'get', url, responseType: 'stream' })] *)
Definition axios_download (env : Env) (sourceUrl : string) : M Bytes :=
  fun w =>
  let w' :=
    {| trace := trace w ++ [EvDownload sourceUrl]; console := console w;
       clock := clock w; polls := polls w; downloads := S (downloads w);
       uuids := uuids w; dirs := dirs w; files := files w;
       bucket := bucket w; request_logs := request_logs w;
       images := images w |} in
  match download env (downloads w) sourceUrl with
  | Responded body => (Return body, w')
  | Rejected msg st => (Throw (PlainError msg st (Some sourceUrl)), w')
  end.

Definition set_files (fs : gmap string Bytes) (w : World) : World :=
  {| trace := trace w; console := console w; clock := clock w;
     polls := polls w; downloads := downloads w; uuids := uuids w;
     dirs := dirs w; files := fs; bucket := bucket w;
     request_logs := request_logs w; images := images w |}.

(** [createWriteStream], [pipe] and the wait for ['finish'] or ['error']. *)
Definition pipe_to_file (env : Env) (fileName : string) (body : Bytes)
  : M unit := fun w =>
  match write_stream env fileName with
  | Finish => (Return tt, set_files (<[fileName := body]> (files w)) w)
  | StreamError msg left_on_disk =>
      (Throw (PlainError msg None None),
       match left_on_disk with
       | Some partial => set_files (<[fileName := partial]> (files w)) w
       | None => w
       end)
  end.

Definition readFileSync (env : Env) (fileName : string) : M Bytes := fun w =>
  if read_fails env fileName then
    (Throw (PlainError "EIO: read" None None), w)
  else
    match files w !! fileName with
    | Some body => (Return body, w)
    | None => (Throw (PlainError "ENOENT: open" None None), w)
    end.

Definition unlinkSync (env : Env) (fileName : string) : M unit := fun w =>
  if unlink_fails env fileName then
    (Throw (PlainError "EPERM: unlink" None None), w)
  else
    match files w !! fileName with
    | Some _ => (Return tt, set_files (delete fileName (files w)) w)
    | None => (Throw (PlainError "ENOENT: unlink" None None), w)
    end.

(** [supabase.storage.from(bucket).upload(path, buffer, { upsert: false })] *)
Definition storage_put (env : Env) (storagePath : string) (body : Bytes)
  : M (Reply unit) := fun w =>
  let w1 :=
    {| trace := trace w ++ [EvStorageUpload storagePath];
       console := console w; clock := clock w; polls := polls w;
       downloads := downloads w; uuids := uuids w; dirs := dirs w;
       files := files w; bucket := bucket w;
       request_logs := request_logs w; images := images w |} in
  match bucket w !! storagePath with
  | Some _ => (Return (Err "The resource already exists"), w1)
  | None =>
      match storage_upload env storagePath body with
      | Data _ =>
          (Return (Ok tt),
           {| trace := trace w1; console := console w1; clock := clock w1;
              polls := polls w1; downloads := downloads w1;
              uuids := uuids w1; dirs := dirs w1; files := files w1;
              bucket := <[storagePath := body]> (bucket w1);
              request_logs := request_logs w1; images := images w1 |})
      | Failed msg => (Return (Err msg), w1)
      | Crashed msg => (Throw (PlainError msg None None), w1)
      end
  end.

(** [supabase.storage.from(bucket).createSignedUrl(path, expirySeconds)] *)
Definition createSignedUrl (env : Env) (storagePath : string)
    (expirySeconds : Z) : M (Reply string) :=
  emit (EvCreateSignedUrl storagePath expirySeconds) ;;
  await_supa (storage_sign env storagePath expirySeconds).

(** [supabase.from('images').insert(row)]; the resolved value is not read. *)
Definition images_insert (env : Env) (row : ImageRow) : M unit := fun w =>
  match insert_image env row with
  | Data _ =>
      (Return tt,
       {| trace := trace w; console := console w; clock := clock w;
          polls := polls w; downloads := downloads w; uuids := uuids w;
          dirs := dirs w; files := files w; bucket := bucket w;
          request_logs := request_logs w; images := images w ++ [row] |})
  | Failed _ => (Return tt, w)
  | Crashed msg => (Throw (PlainError msg None None), w)
  end.

(** [supabase.from('request_logs').insert(row)] *)
Definition request_logs_insert (env : Env) (row : RequestLog) : M unit :=
  fun w =>
  match insert_request_log env row with
  | Data _ =>
      (Return tt,
       {| trace := trace w; console := console w; clock := clock w;
          polls := polls w; downloads := downloads w; uuids := uuids w;
          dirs := dirs w; files := files w; bucket := bucket w;
          request_logs := request_logs w ++ [row]; images := images w |})
  | Failed _ => (Return tt, w)
  | Crashed msg => (Throw (PlainError msg None None), w)
  end.

(** Template-literal rendering of [keyId] ([undefined] prints as such). *)
Definition show_key (keyId : option string) : string :=
  match keyId with Some k => k | None => "undefined" end.

(** The temp file name [uploadToStorage] derives for a source URL when
    [n] uuids were drawn before. *)
Definition uploadFileExt (sourceUrl : string) : string :=
  if Js.includes sourceUrl ".jpg" then "jpg" else "png".

Definition uploadTempFile (env : Env) (n : nat) (sourceUrl : string)
  : string :=
  path_join env (tempDirOf env)
    (uuidv4 env n ++ "." ++ uploadFileExt sourceUrl).

(** The body of the [try] block of [uploadToStorage]. *)
Definition uploadToStorage_try (env : Env) (sourceUrl : string)
    (keyId : option string) (prompt : string) (model : string)
  : M string :=
  ensureTempDir env ;;
  let* fileId := next_uuid env in
  let fileExt := uploadFileExt sourceUrl in
  let fileName :=
    path_join env (tempDirOf env) (fileId ++ "." ++ fileExt) in
  let* response := axios_download env sourceUrl in
  pipe_to_file env fileName response ;;
  let* fileBuffer := readFileSync env fileName in
  let storagePath := show_key keyId ++ "/" ++ fileId ++ "." ++ fileExt in
  let* uploaded := storage_put env storagePath fileBuffer in
  match uploaded with
  | Err msg =>
      throw (PlainError ("Storage upload failed: " ++ msg) None None)
  | Ok _ =>
      let expirySeconds := 120%Z in
      let* signed := createSignedUrl env storagePath expirySeconds in
      match signed with
      | Err msg =>
          throw (PlainError ("Failed to create signed URL: " ++ msg)
                   None None)
      | Ok signedUrl =>
          let* created_at := now in
          images_insert env
            {| im_key_id := keyId; im_storage_path := storagePath;
               im_prompt := prompt; im_model := model;
               im_created_at := created_at |} ;;
          unlinkSync env fileName ;;
          ret signedUrl
      end
  end.

Definition uploadToStorage (env : Env) (sourceUrl : string)
    (keyId : option string) (prompt : string) (model : string)
  : M string :=
  try_catch (uploadToStorage_try env sourceUrl keyId prompt model)
    (fun error =>
       console_error (ErrorUploadingToStorage error) ;;
       ret sourceUrl).

Definition base64TempFile (env : Env) (n : nat) : string :=
  path_join env (tempDirOf env) (uuidv4 env n ++ ".png").

Definition ImageProcessingFailed : JsError :=
  ApiError "Failed to process image" 500 "processing_error" None
    (Some "image_processing_failed").

Definition imageToBase64 (env : Env) (sourceUrl : string) : M string :=
  try_catch
    (ensureTempDir env ;;
     let* fileId := next_uuid env in
     let fileName := path_join env (tempDirOf env) (fileId ++ ".png") in
     let* response := axios_download env sourceUrl in
     pipe_to_file env fileName response ;;
     let* imageBuffer := readFileSync env fileName in
     let base64Image := toBase64 env imageBuffer in
     unlinkSync env fileName ;;
     ret base64Image)
    (fun error =>
       console_error (ErrorConvertingToBase64 error) ;;
       throw ImageProcessingFailed).

(** ** services/imageService.js: generateImage *)

Record Params := {
  prompt : option string;
  n : option Z;
  size : option string;
  model : option string;
  response_format : option string;
  keyId : option string
}.

Inductive DataEntry :=
| UrlEntry (url : string)
| B64Entry (b64_json : string).

Record GenerationResponse := {
  creator : string;
  created : Z;
  data : list DataEntry
}.

Definition PromptRequired : JsError :=
  ApiError "Prompt is required" 400 "invalid_request_error" (Some "prompt")
    (Some "param_required").

Definition InvalidModel : JsError :=
  ApiError "Invalid model" 400 "invalid_request_error" (Some "model")
    (Some "param_invalid").

(** [await axios.get(apiUrl)], the job submission. *)
Definition axios_get_job (env : Env) (apiUrl : string)
  : M (option JobData) :=
  emit (EvSubmit apiUrl) ;;
  match submit env apiUrl with
  | Responded body => ret body
  | Rejected msg st => throw (PlainError msg st (Some apiUrl))
  end.

(** [Array(n).fill().map(() => entry)] *)
Definition array_fill (count : Z) (entry : DataEntry) : M (list DataEntry) :=
  if ((count <? 0) || (4294967295 <? count))%Z then
    throw (PlainError "Invalid array length" None None)
  else ret (repeat entry (Z.to_nat count)).

(** [OPENAI_MODEL_MAP[model] || model] *)
Definition actualModelOf (model : string) : Js.Val :=
  Js.val_or (Js.get OPENAI_MODEL_MAP model) (Some model).

(** [MODEL_PROVIDERS[actualModel]] *)
Definition providerNameOf (actualModel : Js.Val) : Js.Val :=
  Js.get MODEL_PROVIDERS (Js.to_string actualModel).

(** The flux branch: [&model=...] from the model name or from the size. *)
Definition fluxSuffix (actualModel : Js.Val) (size : string) : M string :=
  match actualModel with
  | Js.Str m =>
      if Js.startsWith m "flux" then ret ("&model=" ++ m)
      else
        let fluxModel :=
          Js.val_or (Js.get FLUX_SIZE_MAP size) (Some "flux-1.1-pro-ultra") in
        ret ("&model=" ++ Js.to_string fluxModel)
  | _ => throw (TypeError "actualModel.startsWith is not a function")
  end.

(** The body of the [try] block of [generateImage]. *)
Definition generateImage_try (env : Env) (params : Params)
  : M GenerationResponse :=
  let count := match n params with Some c => c | None => 1%Z end in
  let size := Js.default_to (size params) "1024x1024" in
  let model := Js.default_to (model params) "dalle" in
  let response_format := Js.default_to (response_format params) "url" in
  if negb (Js.truthy (prompt params)) then throw PromptRequired else
  let prompt := Js.default_to (prompt params) "" in
  let actualModel := actualModelOf model in
  let providerName := providerNameOf actualModel in
  if negb (Js.is_truthy providerName) then throw InvalidModel else
  match provider_of PROVIDERS (Js.to_string providerName) with
  | None => throw (TypeError "Cannot read properties of undefined")
  | Some provider =>
      let endpoint := endpoint provider in
      let apiUrl :=
        API_BASE_URL env ++ endpoint ++ "?text="
          ++ encodeURIComponent env prompt in
      let* apiUrl :=
        if String.eqb (Js.to_string providerName) "flux" then
          let* suffix := fluxSuffix actualModel size in
          ret (apiUrl ++ suffix)
        else ret apiUrl in
      let* jobResponse := axios_get_job env apiUrl in
      match jobResponse with
      | None => throw (TypeError "Cannot read properties of undefined")
      | Some job =>
          if negb (job_ok job) then
            throw (ApiError
                     (Js.or_else (job_message job)
                        "Failed to start image generation")
                     400 "api_error" None (Some "generation_failed"))
          else
            let taskUrl := job_task_url job in
            let* image := pollTaskCompletion env taskUrl in
            let* imageUrl :=
              uploadToStorage env (img_url image) (keyId params) prompt
                (Js.to_string actualModel) in
            try_catch
              (let* created_at := now in
               request_logs_insert env
                 {| rl_key_id := keyId params; rl_endpoint := endpoint;
                    rl_prompt := prompt;
                    rl_model := Js.to_string actualModel;
                    rl_status := "success";
                    rl_created_at := created_at |})
              (fun logError => console_error (FailedToLogRequest logError)) ;;
            let* t := now in
            let created := (t / 1000)%Z in
            if String.eqb response_format "b64_json" then
              let* imageBase64 := imageToBase64 env (img_url image) in
              let* entries := array_fill count (B64Entry imageBase64) in
              ret {| creator := "featherops"; created := created;
                     data := entries |}
            else
              let* entries := array_fill count (UrlEntry imageUrl) in
              ret {| creator := "featherops"; created := created;
                     data := entries |}
      end
  end.

Definition error_config_url (e : JsError) : option string :=
  match e with
  | ApiError _ _ _ _ _ => None
  | PlainError _ _ u => u
  end.

(** The row the [catch] block of [generateImage] inserts at time [t]. *)
Definition errorRow (params : Params) (error : JsError) (t : Z)
  : RequestLog :=
  {| rl_key_id := keyId params;
     rl_endpoint := Js.or_else (error_config_url error) "unknown";
     rl_prompt := Js.or_else (prompt params) "unknown";
     rl_model := Js.or_else (model params) "unknown";
     rl_status := "error";
     rl_created_at := t |}.

(** The [catch] block of [generateImage]: one error row when the key id is
    truthy, then the error itself or a wrapping [ApiError]. *)
Definition generateImage_catch (env : Env) (params : Params)
    (error : JsError) : M GenerationResponse :=
  try_catch
    (if Js.truthy (keyId params) then
       let* created_at := now in
       request_logs_insert env (errorRow params error created_at)
     else ret tt)
    (fun logError => console_error (FailedToLogError logError)) ;;
  console_error (ImageGenerationError error) ;;
  match error with
  | ApiError _ _ _ _ _ => throw error
  | PlainError msg st _ =>
      throw (ApiError
               (if String.eqb msg "" then "Failed to generate image" else msg)
               (match st with
                | Some s => if (s =? 0)%Z then 500 else s
                | None => 500
                end)
               "api_error" None (Some "generation_error"))
  end.

Definition generateImage (env : Env) (params : Params)
  : M GenerationResponse :=
  try_catch (generateImage_try env params) (generateImage_catch env params).

(** ** routes/v1/images.js: POST /generations *)

(** The [n] field of a request body, as [n ? parseInt(n) : 1] reads it: a
    falsy value (absent, [null], [0], [''], [false]), or a truthy value,
    given by the text [parseInt] converts it to: ['3'] for the number 3
    and for the string ['3'], ['2.5'] for 2.5, ['1e+21'] for the number
    1e21. *)
Inductive NField :=
| NAbsent
| NText (text : string).

Record Body := {
  b_prompt : option string;
  b_n : NField;
  b_size : option string;
  b_response_format : option string;
  b_model : option string
}.

(** White space [parseInt] skips, among the characters below 256. *)
Definition isWhiteSpace (c : Ascii.ascii) : bool :=
  let k := Ascii.nat_of_ascii c in
  ((9 <=? k) && (k <=? 13) || (k =? 32) || (k =? 160))%nat.

Fixpoint trimStart (s : string) : string :=
  match s with
  | String c rest => if isWhiteSpace c then trimStart rest else s
  | EmptyString => s
  end.

(** The value of a digit or letter as a digit of a radix up to 36. *)
Definition digitOf (c : Ascii.ascii) : option Z :=
  let k := Z.of_nat (Ascii.nat_of_ascii c) in
  if ((48 <=? k) && (k <=? 57))%Z then Some (k - 48)%Z
  else if ((97 <=? k) && (k <=? 122))%Z then Some (k - 87)%Z
  else if ((65 <=? k) && (k <=? 90))%Z then Some (k - 55)%Z
  else None.

(** The longest run of digits of [radix] at the start of [s], read as a
    number after the digits [acc] read so far; [None] when there is no
    digit at all. *)
Fixpoint readDigits (radix : Z) (s : string) (acc : option Z) : option Z :=
  match s with
  | String c rest =>
      match digitOf c with
      | Some d =>
          if (d <? radix)%Z then
            readDigits radix rest
              (Some (radix * match acc with Some a => a | None => 0 end
                     + d)%Z)
          else acc
      | None => acc
      end
  | EmptyString => acc
  end.

(** [parseInt(text)] without a radix: white space skipped, a sign, [0x] or
    [0X] for radix 16, then the leading digits; [None] is [NaN].  The
    handler only compares the result with 1 and 10 and passes on a value
    from 1 to 10, where the number [parseInt] returns is exact. *)
Definition parseInt (text : string) : option Z :=
  let s := trimStart text in
  let signed :=
    match s with
    | String c rest =>
        if (Ascii.nat_of_ascii c =? 45)%nat then ((-1)%Z, rest)
        else if (Ascii.nat_of_ascii c =? 43)%nat then (1%Z, rest)
        else (1%Z, s)
    | EmptyString => (1%Z, s)
    end in
  let prefixed :=
    match snd signed with
    | String c0 (String c1 rest) =>
        if (Ascii.nat_of_ascii c0 =? 48)%nat
           && ((Ascii.nat_of_ascii c1 =? 120)%nat
               || (Ascii.nat_of_ascii c1 =? 88)%nat)
        then (16%Z, rest)
        else (10%Z, snd signed)
    | _ => (10%Z, snd signed)
    end in
  match readDigits (fst prefixed) (snd prefixed) None with
  | Some m => Some (fst signed * m)%Z
  | None => None
  end.

(** [n ? parseInt(n) : 1]; [None] is [NaN]. *)
Definition numImagesOf (f : NField) : option Z :=
  match f with
  | NAbsent => Some 1%Z
  | NText text => parseInt text
  end.

Definition InvalidN : JsError :=
  ApiError "n must be between 1 and 10" 400 "invalid_request_error"
    (Some "n") (Some "param_invalid").

Definition join_comma (l : list string) : string := String.concat ", " l.

Definition InvalidSize : JsError :=
  ApiError ("Invalid size. Must be one of: " ++ join_comma SUPPORTED_SIZES)
    400 "invalid_request_error" (Some "size") (Some "param_invalid").

Definition InvalidFormat : JsError :=
  ApiError
    ("Invalid response_format. Must be one of: "
       ++ join_comma SUPPORTED_FORMATS)
    400 "invalid_request_error" (Some "response_format")
    (Some "param_invalid").

Definition InvalidModelParam : JsError :=
  ApiError ("Invalid model. Must be one of: " ++ join_comma SUPPORTED_MODELS)
    400 "invalid_request_error" (Some "model") (Some "param_invalid").

(** The checks of the handler, in source order; the value is the [params]
    object handed to [generateImage]. *)
Definition validate (body : Body) (apiKeyId : string)
  : Result Params :=
  if negb (Js.truthy (b_prompt body)) then Throw PromptRequired else
  match numImagesOf (b_n body) with
  | None => Throw InvalidN
  | Some numImages =>
      if ((numImages <? 1) || (10 <? numImages))%Z then Throw InvalidN else
      if Js.truthy (b_size body)
         && negb (Js.mem (Js.default_to (b_size body) "") SUPPORTED_SIZES)
      then Throw InvalidSize else
      if Js.truthy (b_response_format body)
         && negb (Js.mem (Js.default_to (b_response_format body) "")
                    SUPPORTED_FORMATS)
      then Throw InvalidFormat else
      if Js.truthy (b_model body)
         && negb (Js.mem (Js.default_to (b_model body) "") SUPPORTED_MODELS)
         && negb (Js.is_truthy
                    (Js.get OPENAI_MODEL_MAP
                       (Js.default_to (b_model body) "")))
      then Throw InvalidModelParam else
      Return {| prompt := b_prompt body; n := Some numImages;
                size := b_size body; model := b_model body;
                response_format := b_response_format body;
                keyId := Some apiKeyId |}
  end.

(** The handler after [authenticateApiKey] and the limiter: [Return] is
    [res.status(200).json(result)], [Throw] is [next(error)]. *)
Definition postGenerations (env : Env) (body : Body) (apiKeyId : string)
  : M GenerationResponse :=
  match validate body apiKeyId with
  | Throw e => throw e
  | Return params => generateImage env params
  end.

(** The status and body the error middleware of index.js sends. *)
Definition statusOf (e : JsError) : Z :=
  match e with
  | ApiError _ st _ _ _ => if (st =? 0)%Z then 500 else st
  | PlainError _ _ _ => 500
  end.

Definition paramOf (e : JsError) : option string :=
  match e with
  | ApiError _ _ _ p _ => if Js.truthy p then p else None
  | PlainError _ _ _ => None
  end.

(** ** middleware/rateLimit.js: the per-key daily limiter *)

Module RateLimit.

(** A row of the [rate_limits] table; the table is keyed by [key_id]. *)
Record QuotaRecord := {
  requests_count : Z;
  last_reset : Z;          (* milliseconds since the epoch *)
  max_requests : Z
}.

(** [req.apiKey] as the auth middleware sets it. *)
Record ApiKey := { id : string; rateLimit : option Z }.

(** The two clock values of one call: [now], and [resetTime], today's
    midnight as [setHours(0, 0, 0, 0)] computes it. *)
Record Clock := { now : Z; resetTime : Z }.

(** How a call to the store ends: it resolves with data, resolves with
    [{ error }], or rejects. *)
Inductive Fault := Works | ReturnsError | Rejects.

Record Faults := { on_select : Fault; on_upsert : Fault; on_update : Fault }.

Record Request := {
  apiKey : option ApiKey;
  clock : Clock;
  faults : Faults
}.

Record Headers := { limit : Z; remaining : Z; reset : Z }.

(** What the middleware does with the request: [next()], with the headers
    it set if any, or the 429 response. *)
Inductive Outcome :=
| Next (headers : option Headers)
| TooManyRequests (status : Z) (type : string) (code : string).

Definition admitted (o : Outcome) : bool :=
  match o with Next _ => true | TooManyRequests _ _ _ => false end.

Definition StoreError : JsError := PlainError "fetch failed" None None.

(** State passing over the table. *)
Definition L (A : Type) : Type :=
  gmap string QuotaRecord -> Result A * gmap string QuotaRecord.

(** [select('*').eq('key_id', keyId).single()]: [None] stands for
    [error || !data] (no row, or the store answered with an error). *)
Definition select (f : Fault) (keyId : string) : L (option QuotaRecord) :=
  fun st =>
  match f with
  | Works => (Return (st !! keyId), st)
  | ReturnsError => (Return None, st)
  | Rejects => (Throw StoreError, st)
  end.

Definition upsert (f : Fault) (keyId : string) (row : QuotaRecord) : L unit :=
  fun st =>
  match f with
  | Works => (Return tt, <[keyId := row]> st)
  | ReturnsError => (Return tt, st)
  | Rejects => (Throw StoreError, st)
  end.

(** [update({ requests_count: c }).eq('key_id', keyId)] *)
Definition update (f : Fault) (keyId : string) (c : Z) : L unit :=
  fun st =>
  match f with
  | Works =>
      (Return tt,
       alter (fun r => {| requests_count := c; last_reset := last_reset r;
                          max_requests := max_requests r |}) keyId st)
  | ReturnsError => (Return tt, st)
  | Rejects => (Throw StoreError, st)
  end.

(** [req.apiKey.rateLimit || 100] *)
Definition maxRequestsOf (rateLimit : option Z) : Z :=
  match rateLimit with
  | Some r => if (r =? 0)%Z then 100%Z else r
  | None => 100%Z
  end.

(** [error || !data || new Date(data.last_reset) < resetTime] *)
Definition needsReset (c : Clock) (found : option QuotaRecord) : bool :=
  match found with
  | None => true
  | Some row => (last_reset row <? resetTime c)%Z
  end.

Definition RateLimitExceeded : Outcome :=
  TooManyRequests 429 "rate_limit_error" "rate_limit_exceeded".

(** The reset branch: one upsert, then [next()]. *)
Definition resetCounter (k : ApiKey) (c : Clock) (f : Faults) : L Outcome :=
  fun st =>
  match upsert (on_upsert f) (id k)
          {| requests_count := 1; last_reset := now c;
             max_requests := maxRequestsOf (rateLimit k) |} st with
  | (Return _, st') => (Return (Next None), st')
  | (Throw e, st') => (Throw e, st')
  end.

(** The check against [max_requests], then the update and the headers. *)
Definition checkAndIncrement (k : ApiKey) (c : Clock) (f : Faults)
    (row : QuotaRecord) : L Outcome := fun st =>
  if (max_requests row <=? requests_count row)%Z then
    (Return RateLimitExceeded, st)
  else
    match update (on_update f) (id k) (requests_count row + 1)%Z st with
    | (Return _, st') =>
        (Return
           (Next (Some
              {| limit := max_requests row;
                 remaining :=
                   (max_requests row - requests_count row - 1)%Z;
                 reset := (resetTime c / 1000 + 86400)%Z |})),
         st')
    | (Throw e, st') => (Throw e, st')
    end.

(** Everything after the [await] of the select. *)
Definition consume (k : ApiKey) (c : Clock) (f : Faults)
    (found : option QuotaRecord) : L Outcome :=
  match found with
  | None => resetCounter k c f
  | Some row =>
      if (last_reset row <? resetTime c)%Z then resetCounter k c f
      else checkAndIncrement k c f row
  end.

(** The [try] block for a request that carries a key. *)
Definition ledgerStep (k : ApiKey) (c : Clock) (f : Faults) : L Outcome :=
  fun st =>
  match select (on_select f) (id k) st with
  | (Return found, st') => consume k c f found st'
  | (Throw e, st') => (Throw e, st')
  end.

(** The middleware [createDynamicRateLimiter()] returns: no key, no check;
    a [catch] that calls [next()]. *)
Definition createDynamicRateLimiter (req : Request)
    (st : gmap string QuotaRecord) : Outcome * gmap string QuotaRecord :=
  match apiKey req with
  | None => (Next None, st)
  | Some k =>
      if String.eqb (id k) "" then (Next None, st)
      else
        match ledgerStep k (clock req) (faults req) st with
        | (Return o, st') => (o, st')
        | (Throw _, st') => (Next None, st')
        end
  end.

(** Calls served one after another. *)
Fixpoint serve (reqs : list Request) (st : gmap string QuotaRecord)
  : list Outcome * gmap string QuotaRecord :=
  match reqs with
  | [] => ([], st)
  | r :: rest =>
      let (o, st1) := createDynamicRateLimiter r st in
      let (os, st2) := serve rest st1 in
      (o :: os, st2)
  end.

(** *** Calls in flight together

    An async middleware gives up control at each [await]: at the select,
    and at the upsert or update.  A call in flight is therefore in one of
    three phases, and the order in which the store serves the pending
    operations is a schedule of call indices. *)
Inductive Phase :=
| Arrived (r : Request)
| Selected (r : Request) (k : ApiKey) (found : option QuotaRecord)
| Finished (o : Outcome).

Definition step (p : Phase) (st : gmap string QuotaRecord)
  : Phase * gmap string QuotaRecord :=
  match p with
  | Arrived r =>
      match apiKey r with
      | None => (Finished (Next None), st)
      | Some k =>
          if String.eqb (id k) "" then (Finished (Next None), st)
          else
            match select (on_select (faults r)) (id k) st with
            | (Return found, st') => (Selected r k found, st')
            | (Throw _, st') => (Finished (Next None), st')
            end
      end
  | Selected r k found =>
      match consume k (clock r) (faults r) found st with
      | (Return o, st') => (Finished o, st')
      | (Throw _, st') => (Finished (Next None), st')
      end
  | Finished o => (Finished o, st)
  end.

Fixpoint run (schedule : list nat) (ps : list Phase)
    (st : gmap string QuotaRecord) : list Phase * gmap string QuotaRecord :=
  match schedule with
  | [] => (ps, st)
  | i :: rest =>
      match ps !! i with
      | Some p => let (p', st') := step p st in run rest (<[i := p']> ps) st'
      | None => run rest ps st
      end
  end.

Definition admittedPhase (p : Phase) : bool :=
  match p with Finished o => admitted o | _ => false end.

Definition admittedCount (ps : list Phase) : nat :=
  length (List.filter admittedPhase ps).

Definition admittedOutcomes (os : list Outcome) : nat :=
  length (List.filter admitted os).

(** *** Requests of one key within one quota day *)

Definition noFaults : Faults :=
  {| on_select := Works; on_upsert := Works; on_update := Works |}.

(** A call of key [k] at clock [c] against a store that works. *)
Definition call (k : ApiKey) (c : Clock) : Request :=
  {| apiKey := Some k; clock := c; faults := noFaults |}.

(** All clocks lie in the day that starts at [boundary]. *)
Definition withinDay (boundary : Z) (cs : list Clock) : Prop :=
  Forall (fun c => resetTime c = boundary /\ (boundary <= now c)%Z) cs.

(** The key has no row, or one that was last reset before [boundary]. *)
Definition staleOrAbsent (st : gmap string QuotaRecord) (keyId : string)
    (boundary : Z) : Prop :=
  match st !! keyId with
  | None => True
  | Some row => (last_reset row < boundary)%Z
  end.

(** What the select of a request hands to the rest of the call. *)
Definition foundBy (f : Faults) (keyId : string)
    (st : gmap string QuotaRecord) : option QuotaRecord :=
  match on_select f with
  | Works => st !! keyId
  | _ => None
  end.

(** The schedule that serves [count] calls one after another: both steps
    of call 0, then both steps of call 1, and so on. *)
Fixpoint serialFrom (first count : nat) : list nat :=
  match count with
  | O => []
  | S count' => first :: first :: serialFrom (S first) count'
  end.

Definition serialSchedule (count : nat) : list nat := serialFrom 0 count.

(** Two calls of a key with ceiling 1, one second after midnight. *)
Definition racer : Request :=
  call {| id := "key-1"; rateLimit := Some 1%Z |}
       {| now := 1000; resetTime := 0 |}.

(** A later call of the key of [racer] whose select the store answers
    with an error. *)
Definition racerSelectFails : Request :=
  {| apiKey := Some {| id := "key-1"; rateLimit := Some 1%Z |};
     clock := {| now := 2000; resetTime := 0 |};
     faults := {| on_select := ReturnsError; on_upsert := Works;
                  on_update := Works |} |}.

(** A call of a key whose ceiling is 0. *)
Definition zeroCeilingCall : Request :=
  call {| id := "key-0"; rateLimit := Some 0%Z |}
       {| now := 1000; resetTime := 0 |}.

(** A call of a key with ceiling 3 at [t] milliseconds after midnight. *)
Definition threePerDay (t : Z) : Request :=
  call {| id := "key-3"; rateLimit := Some 3%Z |}
       {| now := t; resetTime := 0 |}.

End RateLimit.

(** ** What a run of the poll loop observes *)

(** The answer to the k-th status request overall, as [axios_get_task]
    reads it. *)
Definition observation (env : Env) (taskUrl : option string) (k : nat)
  : Http (option TaskData) :=
  match taskUrl with
  | None => Rejected "Invalid URL" None
  | Some u => poll env k u
  end.

(** [data.status === 'done' && data.url] *)
Definition completed (o : Http (option TaskData)) : bool :=
  match o with
  | Responded (Some data) => status_is data "done" && Js.truthy (url data)
  | _ => false
  end.

(** [data.status === 'error'] *)
Definition explicitlyFailed (o : Http (option TaskData)) : bool :=
  match o with
  | Responded (Some data) => status_is data "error"
  | _ => false
  end.

(** Events a poll loop on [taskUrl] leaves in the trace. *)
Definition pollLoopEvent (cfg : PollConfig) (taskUrl : option string)
    (e : Event) : Prop :=
  e = EvPoll taskUrl \/ e = EvSleep (interval cfg).

(** Events that reach neither the submit nor the status endpoint. *)
Definition notUpstreamJob (e : Event) : Prop :=
  is_submit e = false /\ is_poll e = false.

(** ** Properties of computations *)

(** [m] only ever appends events that satisfy [P] to the trace. *)
Definition appends {A} (P : Event -> Prop) (m : M A) : Prop :=
  forall w, exists d,
    trace (snd (m w)) = (trace w ++ d)%list /\ Forall P d.

(** ** What re-hosting depends on *)

Definition storagePathOf (env : Env) (w : World) (keyId : option string)
    (sourceUrl : string) : string :=
  show_key keyId ++ "/" ++ uuidv4 env (uuids w) ++ "."
    ++ uploadFileExt sourceUrl.

(** The download of the artifact is rejected. *)
Definition downloadFails (env : Env) (w : World) (sourceUrl : string)
  : Prop :=
  exists msg st, download env (downloads w) sourceUrl = Rejected msg st.

(** The bucket does not take the object. *)
Definition putFails (env : Env) (w : World) (keyId : option string)
    (sourceUrl : string) : Prop :=
  forall body,
    storage_upload env (storagePathOf env w keyId sourceUrl) body <> Data tt.

(** No signed URL is minted for the object. *)
Definition signFails (env : Env) (w : World) (keyId : option string)
    (sourceUrl : string) : Prop :=
  forall signedUrl,
    storage_sign env (storagePathOf env w keyId sourceUrl) 120
      <> Data signedUrl.

(** Every step of [uploadToStorage] goes through and the signed URL is
    [signedUrl]. *)
Record RehostSucceeds (env : Env) (w : World) (keyId : option string)
    (sourceUrl : string) (signedUrl : string) : Prop := {
  rs_dir :
    tempDirOf env ∈ dirs w \/ mkdir_fails env (tempDirOf env) = false;
  rs_download :
    exists body,
      download env (downloads w) sourceUrl = Responded body
      /\ storage_upload env (storagePathOf env w keyId sourceUrl) body
         = Data tt;
  rs_write :
    write_stream env (uploadTempFile env (uuids w) sourceUrl) = Finish;
  rs_read : read_fails env (uploadTempFile env (uuids w) sourceUrl) = false;
  rs_free : bucket w !! storagePathOf env w keyId sourceUrl = None;
  rs_sign :
    storage_sign env (storagePathOf env w keyId sourceUrl) 120
      = Data signedUrl;
  rs_insert : forall row msg, insert_image env row <> Crashed msg;
  rs_unlink :
    unlink_fails env (uploadTempFile env (uuids w) sourceUrl) = false
}.

(** ** Requests as the model checks see them *)

(** The checks of the handler that come before the model check pass. *)
Definition otherFieldsValid (body : Body) : bool :=
  Js.truthy (b_prompt body)
  && match numImagesOf (b_n body) with
     | Some k => ((1 <=? k) && (k <=? 10))%Z
     | None => false
     end
  && negb (Js.truthy (b_size body)
           && negb (Js.mem (Js.default_to (b_size body) "") SUPPORTED_SIZES))
  && negb (Js.truthy (b_response_format body)
           && negb (Js.mem (Js.default_to (b_response_format body) "")
                      SUPPORTED_FORMATS)).

(** Neither a canonical model of the catalog nor an alias. *)
Definition unsupportedModel (m : string) : Prop :=
  Js.mem m SUPPORTED_MODELS = false /\ Js.assoc OPENAI_MODEL_MAP m = None.

(** [generateImage] rejects the request before it builds the upstream
    URL: the prompt is falsy, or the model resolves to no provider. *)
Definition rejectedByService (params : Params) : Prop :=
  Js.truthy (prompt params) = false
  \/ Js.is_truthy
       (providerNameOf
          (actualModelOf (Js.default_to (model params) "dalle"))) = false.

Definition anyEvent (e : Event) : Prop := True.

(** ** Sample worlds and environments *)

Definition emptyWorld : World :=
  {| trace := []; console := []; clock := 0; polls := 0; downloads := 0;
     uuids := 0; dirs := ∅; files := ∅; bucket := ∅; request_logs := [];
     images := [] |}.

Definition pendingTask : TaskData :=
  {| status := Some "pending"; url := None; message := None |}.

Definition doneTask : TaskData :=
  {| status := Some "done"; url := Some "https://up/img.png";
     message := None |}.

Definition errorTask : TaskData :=
  {| status := Some "error"; url := None; message := Some "nsfw prompt" |}.

(** The first bytes of a PNG file. *)
Definition pngBytes : Bytes := [Byte.x89; Byte.x50; Byte.x4e; Byte.x47].

(** [path.join] drops a leading [./] when it normalizes. *)
Definition dropDotSlash (s : string) : string :=
  if String.prefix "./" s then String.substring 2 (String.length s - 2) s
  else s.

(** An upstream that accepts the job and answers every status request with
    [task], over a file system, bucket and tables that work. *)
Definition steadyEnv (task : TaskData) : Env :=
  {| API_BASE_URL := "https://up"; STORAGE_BUCKET := "images";
     TEMP_IMAGE_DIR := None;
     encodeURIComponent := fun s => s;
     path_join := fun a b => dropDotSlash a ++ "/" ++ b;
     toBase64 := fun _ => "iVBORw0KGgo=";
     uuidv4 := fun k => match k with O => "u0" | _ => "u1" end;
     submit := fun _ =>
       Responded (Some {| job_ok := true; job_message := None;
                          job_task_url := Some "https://up/task/1" |});
     poll := fun _ _ => Responded (Some task);
     download := fun _ _ => Responded pngBytes;
     mkdir_fails := fun _ => false;
     write_stream := fun _ => Finish;
     read_fails := fun _ => false;
     unlink_fails := fun _ => false;
     storage_upload := fun _ _ => Data tt;
     storage_sign := fun _ _ => Data "https://store/signed";
     insert_image := fun _ => Data tt;
     insert_request_log := fun _ => Data tt |}.

(** [env] with a bucket whose uploads are refused. *)
Definition withUploadRefused (env : Env) : Env :=
  {| API_BASE_URL := API_BASE_URL env; STORAGE_BUCKET := STORAGE_BUCKET env;
     TEMP_IMAGE_DIR := TEMP_IMAGE_DIR env;
     encodeURIComponent := encodeURIComponent env;
     path_join := path_join env; toBase64 := toBase64 env;
     uuidv4 := uuidv4 env; submit := submit env; poll := poll env;
     download := download env; mkdir_fails := mkdir_fails env;
     write_stream := write_stream env; read_fails := read_fails env;
     unlink_fails := unlink_fails env;
     storage_upload := fun _ _ => Failed "bucket not found";
     storage_sign := storage_sign env; insert_image := insert_image env;
     insert_request_log := insert_request_log env |}.

(** [env] with a disk whose reads fail. *)
Definition withReadFailing (env : Env) : Env :=
  {| API_BASE_URL := API_BASE_URL env; STORAGE_BUCKET := STORAGE_BUCKET env;
     TEMP_IMAGE_DIR := TEMP_IMAGE_DIR env;
     encodeURIComponent := encodeURIComponent env;
     path_join := path_join env; toBase64 := toBase64 env;
     uuidv4 := uuidv4 env; submit := submit env; poll := poll env;
     download := download env; mkdir_fails := mkdir_fails env;
     write_stream := write_stream env; read_fails := fun _ => true;
     unlink_fails := unlink_fails env;
     storage_upload := storage_upload env;
     storage_sign := storage_sign env; insert_image := insert_image env;
     insert_request_log := insert_request_log env |}.

(** A request body that names no usable model: the empty string. *)
Definition emptyModelBody : Body :=
  {| b_prompt := Some "a cat"; b_n := NAbsent; b_size := None;
     b_response_format := None; b_model := Some "" |}.

Definition unknownModelBody : Body :=
  {| b_prompt := Some "a cat"; b_n := NAbsent; b_size := None;
     b_response_format := None; b_model := Some "midjourney" |}.

Definition catParams (count : Z) (format : option string) : Params :=
  {| prompt := Some "a cat"; n := Some count; size := None;
     model := Some "dall-e-3"; response_format := format;
     keyId := Some "key-1" |}.

(** ** Parts of the world a computation leaves alone *)

(** [w'] has the files, bucket, tables and download and uuid counters of
    [w]: only the trace, the console, the clock and the poll counter may
    differ. *)
Definition sameStorage (w w' : World) : Prop :=
  downloads w' = downloads w
  /\ uuids w' = uuids w
  /\ dirs w' = dirs w
  /\ files w' = files w
  /\ bucket w' = bucket w
  /\ request_logs w' = request_logs w
  /\ images w' = images w.

(** ** generateImage in pieces *)

(** What reaches the caller of [generateImage] for an error thrown in its
    [try] block: an [ApiError] as it is, anything else wrapped. *)
Definition surfacedError (error : JsError) : JsError :=
  match error with
  | ApiError _ _ _ _ _ => error
  | PlainError msg st _ =>
      ApiError (if String.eqb msg "" then "Failed to generate image" else msg)
        (match st with
         | Some s => if (s =? 0)%Z then 500%Z else s
         | None => 500%Z
         end)
        "api_error" None (Some "generation_error")
  end.

(** The request passes the two checks of [generateImage]: its prompt is
    truthy and its model resolves to canonical model [m] of [provider]. *)
Definition resolves (params : Params) (provider : Provider) (m : string)
  : Prop :=
  Js.truthy (prompt params) = true
  /\ actualModelOf (Js.default_to (model params) "dalle") = Js.Str m
  /\ exists pname,
       providerNameOf (Js.Str m) = Js.Str pname
       /\ pname <> ""
       /\ provider_of PROVIDERS pname = Some provider.

(** The image count of a request, with the default of the destructuring. *)
Definition countOf (params : Params) : Z :=
  match n params with Some c => c | None => 1%Z end.

(** The last part of the [try] block: the timestamp and the [data] array
    in the requested format. *)
Definition respondWith (env : Env) (params : Params) (image : Image)
    (imageUrl : string) : M GenerationResponse :=
  let* t := now in
  let created := (t / 1000)%Z in
  if String.eqb (Js.default_to (response_format params) "url") "b64_json"
  then
    let* imageBase64 := imageToBase64 env (img_url image) in
    let* entries := array_fill (countOf params) (B64Entry imageBase64) in
    ret {| creator := "featherops"; created := created; data := entries |}
  else
    let* entries := array_fill (countOf params) (UrlEntry imageUrl) in
    ret {| creator := "featherops"; created := created; data := entries |}.

(** The success row of [request_logs], written best effort. *)
Definition logSuccess (env : Env) (params : Params)
    (endpoint prompt actualModel : string) : M unit :=
  try_catch
    (let* created_at := now in
     request_logs_insert env
       {| rl_key_id := keyId params; rl_endpoint := endpoint;
          rl_prompt := prompt; rl_model := actualModel;
          rl_status := "success"; rl_created_at := created_at |})
    (fun logError => console_error (FailedToLogRequest logError)).

(** What the [try] block does with the answer to the job submission. *)
Definition afterSubmit (env : Env) (params : Params)
    (endpoint prompt actualModel : string) (jobResponse : option JobData)
  : M GenerationResponse :=
  match jobResponse with
  | None => throw (TypeError "Cannot read properties of undefined")
  | Some job =>
      if negb (job_ok job) then
        throw (ApiError
                 (Js.or_else (job_message job)
                    "Failed to start image generation")
                 400 "api_error" None (Some "generation_failed"))
      else
        let* image := pollTaskCompletion env (job_task_url job) in
        let* imageUrl :=
          uploadToStorage env (img_url image) (keyId params) prompt
            actualModel in
        logSuccess env params endpoint prompt actualModel ;;
        respondWith env params image imageUrl
  end.

(** The request with another [size]. *)
Definition withSize (s : option string) (params : Params) : Params :=
  {| prompt := prompt params; n := n params; size := s;
     model := model params; response_format := response_format params;
     keyId := keyId params |}.

(** ** utils: formatImageResponse *)

(** [formatImageResponse(imageUrls, responseFormat = 'url')] at wall-clock
    time [nowMs]. *)
Definition formatImageResponse (nowMs : Z) (imageUrls : list string)
    (responseFormat : option string) : GenerationResponse :=
  let timestamp := (nowMs / 1000)%Z in
  {| creator := "featherops";
     created := timestamp;
     data :=
       List.map
         (fun url =>
            if String.eqb (Js.default_to responseFormat "url") "b64_json"
            then B64Entry url
            else UrlEntry url)
         imageUrls |}.

(** The string an entry carries. *)
Definition payload (e : DataEntry) : string :=
  match e with
  | UrlEntry u => u
  | B64Entry b => b
  end.

(** ** More sample environments *)

(** An upstream that refuses every job. *)
Definition refusingEnv : Env :=
  {| API_BASE_URL := API_BASE_URL (steadyEnv doneTask);
     STORAGE_BUCKET := STORAGE_BUCKET (steadyEnv doneTask);
     TEMP_IMAGE_DIR := TEMP_IMAGE_DIR (steadyEnv doneTask);
     encodeURIComponent := encodeURIComponent (steadyEnv doneTask);
     path_join := path_join (steadyEnv doneTask);
     toBase64 := toBase64 (steadyEnv doneTask);
     uuidv4 := uuidv4 (steadyEnv doneTask);
     submit := fun _ =>
       Responded (Some {| job_ok := false;
                          job_message := Some "content policy";
                          job_task_url := None |});
     poll := poll (steadyEnv doneTask);
     download := download (steadyEnv doneTask);
     mkdir_fails := mkdir_fails (steadyEnv doneTask);
     write_stream := write_stream (steadyEnv doneTask);
     read_fails := read_fails (steadyEnv doneTask);
     unlink_fails := unlink_fails (steadyEnv doneTask);
     storage_upload := storage_upload (steadyEnv doneTask);
     storage_sign := storage_sign (steadyEnv doneTask);
     insert_image := insert_image (steadyEnv doneTask);
     insert_request_log := insert_request_log (steadyEnv doneTask) |}.

(** ** routes/v1/images.js: GET /models *)

Record ModelEntry := {
  me_id : string;
  me_object : string;
  me_created : Z;
  me_owned_by : string;
  me_provider : string
}.

Record ModelsResponse := { mr_data : list ModelEntry; mr_object : string }.

(** The handler of [GET /models] at wall-clock time [nowMs]: the models of
    every provider in the order of [Object.keys(PROVIDERS)], then the
    aliases of [OPENAI_MODEL_MAP]. *)
Definition getModels (nowMs : Z) : ModelsResponse :=
  let now := (nowMs / 1000)%Z in
  let native :=
    flat_map
      (fun entry : string * Provider =>
         let (providerName, provider) := entry in
         List.map
           (fun modelName =>
              {| me_id := modelName; me_object := "model";
                 me_created := now; me_owned_by := "featherops";
                 me_provider := providerName |})
           (models provider))
      PROVIDERS in
  let aliases :=
    List.map
      (fun entry : string * string =>
         let (openaiModel, _) := entry in
         {| me_id := openaiModel; me_object := "model"; me_created := now;
            me_owned_by := "featherops";
            me_provider := "openai-compatible" |})
      OPENAI_MODEL_MAP in
  {| mr_data := native ++ aliases; mr_object := "list" |}.

(** ** Error responses *)

(** The [error] object of an error response. *)
Record ErrorBody := {
  eb_message : string;
  eb_type : string;
  eb_param : option string;
  eb_code : option string
}.

(** The body the error middleware of index.js builds for an error handed
    to [next]: every field with its fallback. *)
Definition errorBodyOf (e : JsError) : ErrorBody :=
  match e with
  | ApiError msg _ ty p c =>
      {| eb_message :=
           if String.eqb msg "" then "An unexpected error occurred" else msg;
         eb_type := if String.eqb ty "" then "server_error" else ty;
         eb_param := if Js.truthy p then p else None;
         eb_code := if Js.truthy c then c else None |}
  | PlainError msg _ _ =>
      {| eb_message :=
           if String.eqb msg "" then "An unexpected error occurred" else msg;
         eb_type := "server_error";
         eb_param := None;
         eb_code := None |}
  end.

(** ** middleware/auth.js and services/apiKeyService.js *)

Module Auth.

(** A row of the [keys] table. *)
Record KeyRow := {
  k_id : string;
  key_hash : string;
  owner_email : string;
  rate_limit : option Z;
  usage_count : option Z;        (* [None] is NULL *)
  created_at : Z;
  revoked : bool
}.

(** [process.env.KEY_SALT] and SHA-256 in hex. *)
Record Crypto := {
  KEY_SALT : option string;
  sha256hex : string -> string
}.

(** [apiKey + process.env.KEY_SALT] *)
Definition salted (cr : Crypto) (apiKey : string) : string :=
  apiKey ++ match KEY_SALT cr with Some s => s | None => "undefined" end.

Definition hashKey (cr : Crypto) (apiKey : string) : string :=
  sha256hex cr (salted cr apiKey).

(** The character [' ']. *)
Definition space : Ascii.ascii := Ascii.ascii_of_nat 32.

(** [s.split(sep)] for a one-character separator. *)
Fixpoint splitOn (sep : Ascii.ascii) (s : string) : list string :=
  match s with
  | EmptyString => [""]
  | String c rest =>
      if Ascii.eqb c sep then "" :: splitOn sep rest
      else
        match splitOn sep rest with
        | [] => [String c ""]
        | x :: xs => String c x :: xs
        end
  end.

(** A JavaScript number that may be [NaN]. *)
Inductive JsNumber :=
| Num (z : Z)
| NaN.

(** [v + 1] for a field that may be [undefined]. *)
Definition plusOne (v : option Z) : JsNumber :=
  match v with
  | Some z => Num (z + 1)
  | None => NaN
  end.

(** A number as [JSON.stringify] sends it: [NaN] goes out as [null]. *)
Definition jsonNumber (v : JsNumber) : option Z :=
  match v with
  | Num z => Some z
  | NaN => None
  end.

(** What [select('id, rate_limit, revoked')] returns for a row: the three
    columns it names.  [usage_count] is not among them, so
    [data.usage_count] is [undefined]. *)
Record KeyData := {
  d_id : string;
  d_rate_limit : option Z;
  d_revoked : bool
}.

Definition d_usage_count (d : KeyData) : option Z := None.

(** [select(...).eq('key_hash', h).single()]: [None] stands for
    [error || !data]; [single()] resolves with an error unless exactly one
    row matches. *)
Definition selectByHash (f : RateLimit.Fault) (h : string)
    (keys : list KeyRow) : Result (option KeyData) :=
  match f with
  | RateLimit.Works =>
      match List.filter (fun r => String.eqb (key_hash r) h) keys with
      | [row] =>
          Return (Some {| d_id := k_id row; d_rate_limit := rate_limit row;
                          d_revoked := revoked row |})
      | _ => Return None
      end
  | RateLimit.ReturnsError => Return None
  | RateLimit.Rejects => Throw RateLimit.StoreError
  end.

(** [update({ usage_count: v }).eq('id', keyId)] *)
Definition updateUsage (f : RateLimit.Fault) (keyId : string) (v : JsNumber)
    (keys : list KeyRow) : Result unit * list KeyRow :=
  match f with
  | RateLimit.Works =>
      (Return tt,
       List.map
         (fun r =>
            if String.eqb (k_id r) keyId then
              {| k_id := k_id r; key_hash := key_hash r;
                 owner_email := owner_email r; rate_limit := rate_limit r;
                 usage_count := jsonNumber v; created_at := created_at r;
                 revoked := revoked r |}
            else r)
         keys)
  | RateLimit.ReturnsError => (Return tt, keys)
  | RateLimit.Rejects => (Throw RateLimit.StoreError, keys)
  end.

Record AuthFaults := {
  on_lookup : RateLimit.Fault;
  on_usage : RateLimit.Fault
}.

(** What the middleware does: [next()] with [req.apiKey] set, or a
    response of its own. *)
Inductive Verdict :=
| Authenticated (apiKey : RateLimit.ApiKey)
| Denied (status : Z) (body : ErrorBody).

Definition denied401 (msg code : string) : Verdict :=
  Denied 401
    {| eb_message := msg; eb_type := "invalid_request_error";
       eb_param := Some "authorization"; eb_code := Some code |}.

Definition authServiceError : Verdict :=
  Denied 500
    {| eb_message := "Authentication service error";
       eb_type := "server_error"; eb_param := None;
       eb_code := Some "authentication_error" |}.

(** [authenticateApiKey]; every throw inside lands in the [catch] that
    answers 500. *)
Definition authenticateApiKey (cr : Crypto) (f : AuthFaults)
    (authorization : option string) (keys : list KeyRow)
  : Verdict * list KeyRow :=
  let authHeader := Js.default_to authorization "" in
  if negb (Js.truthy authorization)
     || negb (Js.startsWith authHeader "Bearer ") then
    (denied401 "Invalid API key provided" "invalid_api_key", keys)
  else
    match nth_error (splitOn space authHeader) 1 with
    | None => (authServiceError, keys)
    | Some apiKey =>
        if negb (Js.startsWith apiKey "feather-ops-apikey-") then
          (denied401 "Invalid API key format" "invalid_api_key_format", keys)
        else
          match selectByHash (on_lookup f) (hashKey cr apiKey) keys with
          | Throw _ => (authServiceError, keys)
          | Return None =>
              (denied401 "Invalid API key" "invalid_api_key", keys)
          | Return (Some data) =>
              if d_revoked data then
                (denied401 "API key has been revoked" "revoked_api_key",
                 keys)
              else
                match updateUsage (on_usage f) (d_id data)
                        (plusOne (d_usage_count data)) keys with
                | (Return _, keys') =>
                    (Authenticated
                       {| RateLimit.id := d_id data;
                          RateLimit.rateLimit := d_rate_limit data |},
                     keys')
                | (Throw _, keys') => (authServiceError, keys')
                end
          end
    end.

(** *** services/apiKeyService.js *)

Record KeyInfo := {
  ki_key : string;
  ki_id : string;
  ki_owner_email : string;
  ki_rate_limit : option Z;
  ki_created_at : Z
}.

Definition message_of (e : JsError) : string :=
  match e with
  | ApiError msg _ _ _ _ => msg
  | PlainError msg _ _ => msg
  end.

(** [generateApiKey(email, rateLimit = 100)], with the 16 random bytes in
    hex [randomPart] and the fresh uuid [newId] it draws. *)
Definition generateApiKey (cr : Crypto) (f : RateLimit.Fault) (nowMs : Z)
    (randomPart newId : string) (email : option string)
    (rateLimit : option Z) (keys : list KeyRow)
  : Result KeyInfo * list KeyRow :=
  if negb (Js.truthy email) then
    (Throw (ApiError "Email is required" 400 "invalid_request_error"
              (Some "email") (Some "param_required")), keys)
  else
    let apiKey := "feather-ops-apikey-" ++ randomPart in
    let keyHash := hashKey cr apiKey in
    let row :=
      {| k_id := newId; key_hash := keyHash;
         owner_email := Js.default_to email "";
         rate_limit := Some (match rateLimit with
                             | Some r => r
                             | None => 100%Z
                             end);
         usage_count := Some 0%Z; created_at := nowMs; revoked := false |} in
    match f with
    | RateLimit.Works =>
        (Return {| ki_key := apiKey; ki_id := k_id row;
                   ki_owner_email := owner_email row;
                   ki_rate_limit := rate_limit row;
                   ki_created_at := created_at row |},
         (keys ++ [row])%list)
    | RateLimit.ReturnsError =>
        (Throw (ApiError "Failed to generate API key" 500 "server_error"
                  None (Some "key_generation_failed")), keys)
    | RateLimit.Rejects =>
        (Throw (ApiError
                  (if String.eqb (message_of RateLimit.StoreError) ""
                   then "Failed to generate API key"
                   else message_of RateLimit.StoreError)
                  500 "server_error" None (Some "key_generation_error")),
         keys)
    end.

Record Revocation := {
  rv_id : string;
  rv_revoked : bool;
  rv_owner_email : string
}.

Definition markRevoked (keyId : string) (r : KeyRow) : KeyRow :=
  if String.eqb (k_id r) keyId then
    {| k_id := k_id r; key_hash := key_hash r; owner_email := owner_email r;
       rate_limit := rate_limit r; usage_count := usage_count r;
       created_at := created_at r; revoked := true |}
  else r.

(** [revokeApiKey(keyId)]: the update with [.select().single()] resolves
    with the row, or with an error unless exactly one row has the id; the
    [!data] test that follows the [error] test therefore never holds. *)
Definition revokeApiKey (f : RateLimit.Fault) (keyId : option string)
    (keys : list KeyRow) : Result Revocation * list KeyRow :=
  if negb (Js.truthy keyId) then
    (Throw (ApiError "Key ID is required" 400 "invalid_request_error"
              (Some "keyId") (Some "param_required")), keys)
  else
    let id := Js.default_to keyId "" in
    match f with
    | RateLimit.Works =>
        let keys' := List.map (markRevoked id) keys in
        match List.filter (fun r => String.eqb (k_id r) id) keys' with
        | [row] =>
            (Return {| rv_id := k_id row; rv_revoked := revoked row;
                       rv_owner_email := owner_email row |}, keys')
        | _ =>
            (Throw (ApiError "Failed to revoke API key" 500 "server_error"
                      None (Some "key_revocation_failed")), keys')
        end
    | RateLimit.ReturnsError =>
        (Throw (ApiError "Failed to revoke API key" 500 "server_error"
                  None (Some "key_revocation_failed")), keys)
    | RateLimit.Rejects =>
        (Throw (ApiError
                  (if String.eqb (message_of RateLimit.StoreError) ""
                   then "Failed to revoke API key"
                   else message_of RateLimit.StoreError)
                  500 "server_error" None (Some "key_revocation_error")),
         keys)
    end.

(** A string without a space. *)
Fixpoint noSpace (s : string) : bool :=
  match s with
  | EmptyString => true
  | String c rest => negb (Ascii.eqb c space) && noSpace rest
  end.

Definition plainCrypto : Crypto :=
  {| KEY_SALT := Some "pepper"; sha256hex := fun s => "h(" ++ s ++ ")" |}.

Definition noAuthFaults : AuthFaults :=
  {| on_lookup := RateLimit.Works; on_usage := RateLimit.Works |}.

End Auth.

(** ** routes/v1/images.js: POST /generations behind its middlewares *)

Module Gateway.

(** The [keys] and [rate_limits] tables and the world of the image
    service. *)
Record Server := {
  keys : list Auth.KeyRow;
  rate_limits : gmap string RateLimit.QuotaRecord;
  world : World
}.

Record HttpRequest := {
  authorization : option string;
  body : Body
}.

(** What one request meets: the hashing, how the stores behave, the
    limiter's clock and the environment of [generateImage]. *)
Record Conditions := {
  crypto : Auth.Crypto;
  authFaults : Auth.AuthFaults;
  clock : RateLimit.Clock;
  limiterFaults : RateLimit.Faults;
  env : Env
}.

Inductive Payload :=
| Images (r : GenerationResponse)
| Failure (e : ErrorBody).

Record HttpResponse := {
  status : Z;
  rateLimitHeaders : option RateLimit.Headers;
  payload : Payload
}.

(** [router.post('/generations', authenticateApiKey,
    createDynamicRateLimiter(), handler)] followed by the error middleware
    of index.js. *)
Definition postGenerationsRoute (c : Conditions) (req : HttpRequest)
    (s : Server) : HttpResponse * Server :=
  match Auth.authenticateApiKey (crypto c) (authFaults c)
          (authorization req) (keys s) with
  | (Auth.Denied st e, keys') =>
      ({| status := st; rateLimitHeaders := None; payload := Failure e |},
       {| keys := keys'; rate_limits := rate_limits s; world := world s |})
  | (Auth.Authenticated k, keys') =>
      match RateLimit.createDynamicRateLimiter
              {| RateLimit.apiKey := Some k; RateLimit.clock := clock c;
                 RateLimit.faults := limiterFaults c |} (rate_limits s) with
      | (RateLimit.TooManyRequests st ty code, quotas') =>
          ({| status := st; rateLimitHeaders := None;
              payload :=
                Failure
                  {| eb_message :=
                       "Rate limit exceeded. Please try again later.";
                     eb_type := ty; eb_param := None;
                     eb_code := Some code |} |},
           {| keys := keys'; rate_limits := quotas'; world := world s |})
      | (RateLimit.Next h, quotas') =>
          match postGenerations (env c) (body req) (RateLimit.id k)
                  (world s) with
          | (Return r, w') =>
              ({| status := 200; rateLimitHeaders := h;
                  payload := Images r |},
               {| keys := keys'; rate_limits := quotas'; world := w' |})
          | (Throw e, w') =>
              ({| status := statusOf e; rateLimitHeaders := h;
                  payload := Failure (errorBodyOf e) |},
               {| keys := keys'; rate_limits := quotas'; world := w' |})
          end
      end
  end.

(** The header carries a well-formed key whose hash is that of exactly
    one row, [row], which is not revoked. *)
Definition presentsKey (cr : Auth.Crypto) (keys : list Auth.KeyRow)
    (authorization : option string) (row : Auth.KeyRow) : Prop :=
  exists key,
    authorization = Some ("Bearer " ++ key) /\
    Js.startsWith key "feather-ops-apikey-" = true /\
    Auth.noSpace key = true /\
    List.filter (fun r => String.eqb (Auth.key_hash r) (Auth.hashKey cr key))
      keys = [row] /\
    Auth.revoked row = false.


End Gateway.

(** ** A sample server *)

(** The row of the key [feather-ops-apikey-00ff] under [Auth.plainCrypto],
    with a ceiling of three requests a day. *)
Definition sampleKey : Auth.KeyRow :=
  {| Auth.k_id := "key-1";
     Auth.key_hash := "h(feather-ops-apikey-00ffpepper)";
     Auth.owner_email := "a@example.org"; Auth.rate_limit := Some 3%Z;
     Auth.usage_count := Some 0%Z; Auth.created_at := 0;
     Auth.revoked := false |}.

(** Stores that work, the second day of the epoch, an upstream that has
    the image ready at the first poll. *)
Definition calmConditions : Gateway.Conditions :=
  {| Gateway.crypto := Auth.plainCrypto;
     Gateway.authFaults := Auth.noAuthFaults;
     Gateway.clock := {| RateLimit.now := 90000000;
                         RateLimit.resetTime := 86400000 |};
     Gateway.limiterFaults := RateLimit.noFaults;
     Gateway.env := steadyEnv doneTask |}.

(** A server that knows [sampleKey] and has counted [used] of its requests
    today. *)
Definition sampleServer (used : Z) : Gateway.Server :=
  {| Gateway.keys := [sampleKey];
     Gateway.rate_limits :=
       {[ "key-1" := {| RateLimit.requests_count := used;
                        RateLimit.last_reset := 86400000;
                        RateLimit.max_requests := 3 |} ]};
     Gateway.world := emptyWorld |}.

Definition sampleHeader : option string :=
  Some "Bearer feather-ops-apikey-00ff".

(** ** utils/keepAlive.js *)

Module KeepAlive.

(** [status] of a log entry: an HTTP status, or the string ['ERROR']. *)
Inductive PingStatus :=
| StatusCode (code : Z)
| StatusERROR.

Record LogEntry := {
  timestamp : Z;                    (* the instant of [new Date()] *)
  url : option string;
  status : PingStatus;
  responseTime : option Z;          (* milliseconds, sent as [`${t}ms`] *)
  error : option string;
  success : bool
}.

(** The fields of the [KeepAliveService] object. *)
Record Service := {
  isRunning : bool;
  interval : option nat;            (* the handle [setInterval] returned *)
  pingInterval : Z;
  pingUrl : option string;
  logs : list LogEntry;
  maxLogs : nat
}.

(** [constructor()] *)
Definition construct : Service :=
  {| isRunning := false; interval := None; pingInterval := 5 * 60 * 1000;
     pingUrl := None; logs := []; maxLogs := 100 |}.

(** [addLog(entry)]: [unshift], then [slice(0, maxLogs)] when too long. *)
Definition addLog (entry : LogEntry) (s : Service) : Service :=
  let unshifted := entry :: logs s in
  {| isRunning := isRunning s; interval := interval s;
     pingInterval := pingInterval s; pingUrl := pingUrl s;
     logs := if (maxLogs s <? length unshifted)%nat
             then List.firstn (maxLogs s) unshifted
             else unshifted;
     maxLogs := maxLogs s |}.

Definition getLogs (s : Service) : list LogEntry := logs s.

Record Status := {
  st_isRunning : bool;
  st_pingUrl : option string;
  st_minutes : Z;                   (* printed as [`${m} minutes`] *)
  st_lastPings : list LogEntry
}.

(** [getStatus()]; [pingInterval / 60000] is exact here, [pingInterval]
    being a whole number of minutes. *)
Definition getStatus (s : Service) : Status :=
  {| st_isRunning := isRunning s; st_pingUrl := pingUrl s;
     st_minutes := (pingInterval s / 60000)%Z;
     st_lastPings := List.firstn 5 (logs s) |}.

(** A ping that waits for [axios.get]: the timestamp and start time it
    took, and the URL it asked for. *)
Record Flight := {
  f_timestamp : Z;
  f_startTime : Z;
  f_url : option string
}.

(** How [axios.get] ends: a response, a rejection that carries a response,
    or a rejection without one. *)
Inductive PingResult :=
| Answered (code : Z)
| Refused (code : Z) (message : string)
| NoAnswer (message : string).

Inductive Line :=
| AlreadyRunning
| Starting
| PingingEvery (target : option string) (minutes : Z)
| Pinging (at_ : Z) (target : option string)
| PingSuccessful (at_ : Z) (code : Z) (elapsed : Z)
| PingFailed (at_ : Z) (code : option Z) (message : string)
| NotRunning
| Stopped.

(** The service object in its runtime: the interval timers that are set,
    the handles given out so far, the pings in flight and the console. *)
Record Runtime := {
  service : Service;
  timers : list (nat * Z);          (* handle and period *)
  handles : nat;
  flights : list Flight;
  output : list Line
}.

Definition boot : Runtime :=
  {| service := construct; timers := []; handles := 0; flights := [];
     output := [] |}.

(** [ping()] up to its [await]. *)
Definition pingBegin (now : Z) (r : Runtime) : Runtime :=
  {| service := service r; timers := timers r; handles := handles r;
     flights := (flights r ++
                 [{| f_timestamp := now; f_startTime := now;
                     f_url := pingUrl (service r) |}])%list;
     output := (output r ++ [Pinging now (pingUrl (service r))])%list |}.

(** [ping()] after its [await], for the flight at index [i]; the entry
    reads [this.pingUrl] at this point. *)
Definition pingSettle (i : nat) (result : PingResult) (now : Z)
    (r : Runtime) : Runtime :=
  match nth_error (flights r) i with
  | None => r
  | Some fl =>
      let remaining := (List.firstn i (flights r)
                        ++ List.skipn (S i) (flights r))%list in
      match result with
      | Answered code =>
          {| service :=
               addLog {| timestamp := f_timestamp fl;
                         url := pingUrl (service r);
                         status := StatusCode code;
                         responseTime := Some (now - f_startTime fl)%Z;
                         error := None; success := true |} (service r);
             timers := timers r; handles := handles r;
             flights := remaining;
             output := (output r ++
                        [PingSuccessful (f_timestamp fl) code
                           (now - f_startTime fl)%Z])%list |}
      | Refused code message =>
          {| service :=
               addLog {| timestamp := now; url := pingUrl (service r);
                         status := StatusCode code; responseTime := None;
                         error := Some message; success := false |}
                 (service r);
             timers := timers r; handles := handles r;
             flights := remaining;
             output := (output r ++
                        [PingFailed now (Some code) message])%list |}
      | NoAnswer message =>
          {| service :=
               addLog {| timestamp := now; url := pingUrl (service r);
                         status := StatusERROR; responseTime := None;
                         error := Some message; success := false |}
                 (service r);
             timers := timers r; handles := handles r;
             flights := remaining;
             output := (output r ++ [PingFailed now None message])%list |}
      end
  end.

(** [start(url, intervalMinutes = 5)]; [port] is [process.env.PORT]. *)
Definition start (port : option string) (target : option string)
    (intervalMinutes : option Z) (now : Z) (r : Runtime) : Runtime :=
  if isRunning (service r) then
    {| service := service r; timers := timers r; handles := handles r;
       flights := flights r;
       output := (output r ++ [AlreadyRunning])%list |}
  else
    let pingUrl' :=
      Js.or_else target
        ("http://localhost:" ++ Js.or_else port "80" ++ "/health") in
    let minutes := match intervalMinutes with
                   | Some m => m
                   | None => 5%Z
                   end in
    let configured :=
      {| isRunning := false; interval := interval (service r);
         pingInterval := (minutes * 60 * 1000)%Z;
         pingUrl := Some pingUrl'; logs := logs (service r);
         maxLogs := maxLogs (service r) |} in
    let pinged :=
      pingBegin now
        {| service := configured; timers := timers r;
           handles := handles r; flights := flights r;
           output := (output r ++
                      [Starting; PingingEvery (Some pingUrl') minutes])%list
        |} in
    let handle := handles pinged in
    {| service :=
         {| isRunning := true; interval := Some handle;
            pingInterval := pingInterval configured;
            pingUrl := pingUrl configured; logs := logs configured;
            maxLogs := maxLogs configured |};
       timers := (timers pinged
                  ++ [(handle, pingInterval configured)])%list;
       handles := S handle; flights := flights pinged;
       output := output pinged |}.

(** [clearInterval(h)] *)
Definition clearInterval (h : option nat) (ts : list (nat * Z))
  : list (nat * Z) :=
  match h with
  | Some handle => List.filter (fun t => negb (Nat.eqb (fst t) handle)) ts
  | None => ts
  end.

(** [stop()] *)
Definition stop (r : Runtime) : Runtime :=
  if negb (isRunning (service r)) then
    {| service := service r; timers := timers r; handles := handles r;
       flights := flights r; output := (output r ++ [NotRunning])%list |}
  else
    {| service :=
         {| isRunning := false; interval := interval (service r);
            pingInterval := pingInterval (service r);
            pingUrl := pingUrl (service r); logs := logs (service r);
            maxLogs := maxLogs (service r) |};
       timers := clearInterval (interval (service r)) (timers r);
       handles := handles r; flights := flights r;
       output := (output r ++ [Stopped])%list |}.

(** What can happen to the service: a call of [start] or [stop] (at boot
    or from the admin routes), a timer that fires, a ping whose request
    comes back. *)
Inductive Happening :=
| CallStart (target : option string) (intervalMinutes : option Z) (now : Z)
| CallStop
| TimerFires (handle : nat) (now : Z)
| PingReturns (i : nat) (result : PingResult) (now : Z).

Definition happen (port : option string) (r : Runtime) (h : Happening)
  : Runtime :=
  match h with
  | CallStart target intervalMinutes now =>
      start port target intervalMinutes now r
  | CallStop => stop r
  | TimerFires handle now =>
      if existsb (fun t => Nat.eqb (fst t) handle) (timers r)
      then pingBegin now r
      else r
  | PingReturns i result now => pingSettle i result now r
  end.

Definition history (port : option string) (hs : list Happening) : Runtime :=
  fold_left (happen port) hs boot.

(** What every reachable state of the service satisfies: the bound of
    the log, and one timer exactly when the service runs. *)
Definition settled (r : Runtime) : Prop :=
  maxLogs (service r) = 100%nat /\
  (length (logs (service r)) <= 100)%nat /\
  ((isRunning (service r) = false /\ timers r = []) \/
   (isRunning (service r) = true /\
    exists h, interval (service r) = Some h /\
              timers r = [(h, pingInterval (service r))])).

End KeepAlive.

(** ** Base64 *)





(** ** Theorems *)

Open Scope list_scope.

(** *** Counting events *)

Lemma pollCount_app (a b : list Event) :
  pollCount (a ++ b) = pollCount a + pollCount b.
Proof. unfold pollCount. now rewrite List.filter_app, length_app. Qed.

Lemma submitCount_app (a b : list Event) :
  submitCount (a ++ b) = submitCount a + submitCount b.
Proof. unfold submitCount. now rewrite List.filter_app, length_app. Qed.

Lemma notUpstreamJob_counts (d : list Event) :
  Forall notUpstreamJob d -> submitCount d = 0 /\ pollCount d = 0.
Proof.
  induction 1 as [|e d [Hs Hp] _ [IHs IHp]]; [now split|].
  unfold submitCount, pollCount in *. simpl. rewrite Hs, Hp. now split.
Qed.

Lemma pollLoopEvent_submitCount cfg taskUrl (d : list Event) :
  Forall (pollLoopEvent cfg taskUrl) d -> submitCount d = 0.
Proof.
  induction 1 as [|e d [-> | ->] _ IH]; [reflexivity| |];
    unfold submitCount in *; simpl; exact IH.
Qed.

(** *** The poll loop *)

Section PollLoop.

Variable cfg : PollConfig.
Variable env : Env.
Variable taskUrl : option string.

Lemma pollLoopEvent_round (d : list Event) :
  Forall (pollLoopEvent cfg taskUrl) d ->
  Forall (pollLoopEvent cfg taskUrl)
    ([EvPoll taskUrl; EvSleep (interval cfg)] ++ d).
Proof.
  intros H. simpl.
  apply Forall_cons; split; [now left|].
  apply Forall_cons; split; [now right|exact H].
Qed.

(** An attempt that does not observe a completed task falls through to the
    next iteration, whatever else it observed: a pending status after the
    sleep, a thrown error (the explicit failure included) through the
    [catch]. *)
Lemma pollAttempt_continues attempt w :
  completed (observation env taskUrl (polls w)) = false ->
  exists w',
    pollAttempt cfg env taskUrl attempt w = (Return None, w')
    /\ polls w' = S (polls w)
    /\ trace w' = trace w ++ [EvPoll taskUrl; EvSleep (interval cfg)].
Proof.
  unfold pollAttempt, try_catch, bind, axios_get_task, observation, completed.
  destruct taskUrl as [u|]; simpl.
  - destruct (poll env (polls w) u) as [[data|]|msg st]; simpl.
    + intros ->. destruct (status_is data "error"); simpl;
        eexists; (split; [reflexivity|]); simpl;
        rewrite <- ?app_assoc; simpl; auto.
    + intros _. eexists; (split; [reflexivity|]); simpl;
        rewrite <- ?app_assoc; simpl; auto.
    + intros _. eexists; (split; [reflexivity|]); simpl;
        rewrite <- ?app_assoc; simpl; auto.
  - intros _. eexists; (split; [reflexivity|]); simpl;
      rewrite <- ?app_assoc; simpl; auto.
Qed.

(** An attempt that observes a completed task returns its URL at once. *)
Lemma pollAttempt_completes attempt w :
  completed (observation env taskUrl (polls w)) = true ->
  exists u data,
    taskUrl = Some u
    /\ poll env (polls w) u = Responded (Some data)
    /\ Js.truthy (url data) = true
    /\ exists w',
        pollAttempt cfg env taskUrl attempt w =
          (Return (Some {| img_ok := true; img_status := "done";
                           img_url := Js.default_to (url data) "" |}), w')
        /\ polls w' = S (polls w)
        /\ trace w' = trace w ++ [EvPoll taskUrl].
Proof.
  unfold pollAttempt, try_catch, bind, axios_get_task, observation, completed.
  destruct taskUrl as [u|]; simpl; [|discriminate].
  destruct (poll env (polls w) u) as [[data|]|msg st] eqn:E; simpl;
    try discriminate.
  intros H. exists u, data. rewrite H.
  apply andb_true_iff in H as [_ Hu].
  repeat split; auto. eexists. split; [reflexivity|]. simpl. auto.
Qed.

(** Without a completed observation the loop runs all its attempts and
    times out. *)
Lemma pollLoop_exhausts remaining : forall attempt w,
  (forall k, k < remaining ->
     completed (observation env taskUrl (polls w + k)) = false) ->
  exists w' d,
    pollLoop cfg env taskUrl attempt remaining w = (Throw GenerationTimeout, w')
    /\ trace w' = trace w ++ d
    /\ Forall (pollLoopEvent cfg taskUrl) d
    /\ pollCount d = remaining.
Proof.
  induction remaining as [|r IH]; intros attempt w Hobs; simpl.
  - exists w, []. unfold throw. rewrite app_nil_r. auto.
  - destruct (pollAttempt_continues attempt w) as (w1 & E1 & Hp & Ht).
    { specialize (Hobs 0). rewrite Nat.add_0_r in Hobs. apply Hobs. lia. }
    destruct (IH (S attempt) w1) as (w2 & d & E2 & Ht2 & Hd & Hc).
    { intros k Hk. rewrite Hp. replace (S (polls w) + k) with (polls w + S k)
        by lia. apply Hobs. lia. }
    exists w2, ([EvPoll taskUrl; EvSleep (interval cfg)] ++ d).
    unfold bind. rewrite E1, E2. repeat split.
    + rewrite Ht2, Ht. now rewrite <- app_assoc.
    + now apply pollLoopEvent_round.
    + rewrite pollCount_app, Hc. reflexivity.
Qed.

(** Whatever is observed, the loop adds only its own events, at least one
    and at most [remaining] status requests when [remaining] is not zero,
    and a returned image carries a truthy URL. *)
Lemma pollLoop_trace remaining : forall attempt w,
  exists d,
    trace (snd (pollLoop cfg env taskUrl attempt remaining w)) = trace w ++ d
    /\ Forall (pollLoopEvent cfg taskUrl) d
    /\ pollCount d <= remaining
    /\ (forall image,
          fst (pollLoop cfg env taskUrl attempt remaining w) = Return image ->
          1 <= pollCount d /\ negb (String.eqb (img_url image) "") = true).
Proof.
  induction remaining as [|r IH]; intros attempt w; simpl.
  - exists []. unfold throw. simpl. rewrite app_nil_r.
    split; [reflexivity|]. split; [constructor|]. split; [reflexivity|].
    discriminate.
  - destruct (completed (observation env taskUrl (polls w))) eqn:Hc.
    + destruct (pollAttempt_completes attempt w Hc)
        as (u & data & _ & _ & Hu & w1 & E1 & _ & Ht).
      exists [EvPoll taskUrl]. unfold bind. rewrite E1. simpl.
      split; [exact Ht|].
      split; [apply Forall_cons; split; [now left|constructor]|].
      split; [unfold pollCount; simpl; lia|].
      intros image [= <-]. split; [unfold pollCount; simpl; lia|].
      simpl. destruct (url data); simpl in *; [exact Hu|discriminate].
    + destruct (pollAttempt_continues attempt w Hc) as (w1 & E1 & _ & Ht).
      destruct (IH (S attempt) w1) as (d & Ht2 & Hd & Hle & Himg).
      exists ([EvPoll taskUrl; EvSleep (interval cfg)] ++ d).
      unfold bind. rewrite E1.
      split; [rewrite Ht2, Ht; now rewrite <- app_assoc|].
      split; [now apply pollLoopEvent_round|].
      rewrite pollCount_app. unfold pollCount at 1. simpl.
      split; [lia|].
      intros image H. destruct (Himg image H). split; [lia|assumption].
Qed.

End PollLoop.

(** An explicit failure observed at some attempt does not end the loop:
    as long as no attempt observes a completed task, the call still runs
    all its attempts and ends in the timeout. *)
Lemma explicit_failure_not_terminal cfg env taskUrl w k :
  k < maxAttempts cfg ->
  explicitlyFailed (observation env taskUrl (polls w + k)) = true ->
  (forall j, j < maxAttempts cfg ->
     completed (observation env taskUrl (polls w + j)) = false) ->
  fst (pollTaskCompletionWith cfg env taskUrl w) = Throw GenerationTimeout
  /\ pollCount (trace (snd (pollTaskCompletionWith cfg env taskUrl w)))
     = pollCount (trace w) + maxAttempts cfg.
Proof.
  intros _ _ Hnone. unfold pollTaskCompletionWith.
  destruct (pollLoop_exhausts cfg env taskUrl (maxAttempts cfg) 0 w Hnone)
    as (w' & d & E & Ht & _ & Hc).
  rewrite E. simpl. split; [reflexivity|].
  now rewrite Ht, pollCount_app, Hc.
Qed.

(** C1 (code as written): with an upstream that answers every status
    request with [status: 'error'], [pollTaskCompletion] does not surface
    the generation failure.  The [ApiError] thrown for the explicit failure
    is caught by the [catch] of the same iteration, the loop issues all 60
    status requests, and the call ends in the 408 timeout. *)
Theorem C1_explicit_failure_retried_until_timeout :
  explicitlyFailed
    (observation (steadyEnv errorTask) (Some "https://up/task/1") 0) = true
  /\ fst (pollTaskCompletion (steadyEnv errorTask) (Some "https://up/task/1")
            emptyWorld)
     = Throw GenerationTimeout
  /\ pollCount
       (trace (snd (pollTaskCompletion (steadyEnv errorTask)
                      (Some "https://up/task/1") emptyWorld)))
     = 60
  /\ head (console (snd (pollTaskCompletion (steadyEnv errorTask)
                           (Some "https://up/task/1") emptyWorld)))
     = Some (PollingAttemptFailed 1 (GenerationFailed errorTask)).
Proof. vm_compute. repeat split. Qed.

(** C8: a run of the poll loop never issues more than [maxAttempts] status
    requests; and when no attempt observes a completed task (['done'] with
    a URL) or an explicit failure, it issues exactly [maxAttempts] of them
    and then fails with the 408 generation timeout. *)
Theorem C8_poll_loop_times_out_after_maxAttempts
    (cfg : PollConfig) (env : Env) (taskUrl : option string) (w : World) :
  pollCount (trace (snd (pollTaskCompletionWith cfg env taskUrl w)))
    <= pollCount (trace w) + maxAttempts cfg
  /\ ((forall k, k < maxAttempts cfg ->
         completed (observation env taskUrl (polls w + k)) = false
         /\ explicitlyFailed (observation env taskUrl (polls w + k)) = false)
      -> fst (pollTaskCompletionWith cfg env taskUrl w)
           = Throw GenerationTimeout
         /\ statusOf GenerationTimeout = 408%Z
         /\ pollCount (trace (snd (pollTaskCompletionWith cfg env taskUrl w)))
            = pollCount (trace w) + maxAttempts cfg).
Proof.
  unfold pollTaskCompletionWith. split.
  - destruct (pollLoop_trace cfg env taskUrl (maxAttempts cfg) 0 w)
      as (d & Ht & _ & Hle & _).
    rewrite Ht, pollCount_app. lia.
  - intros Hobs.
    destruct (pollLoop_exhausts cfg env taskUrl (maxAttempts cfg) 0 w)
      as (w' & d & E & Ht & _ & Hc).
    { intros k Hk. apply (Hobs k Hk). }
    rewrite E. simpl. split; [reflexivity|]. split; [reflexivity|].
    now rewrite Ht, pollCount_app, Hc.
Qed.

(** The configured loop against an upstream that stays pending: 60 status
    requests, then the timeout. *)
Lemma C8_witness_pending_upstream :
  (forall k, k < maxAttempts POLL_CONFIG ->
     completed (observation (steadyEnv pendingTask)
                  (Some "https://up/task/1") (polls emptyWorld + k)) = false
     /\ explicitlyFailed (observation (steadyEnv pendingTask)
                  (Some "https://up/task/1") (polls emptyWorld + k)) = false)
  /\ fst (pollTaskCompletion (steadyEnv pendingTask)
            (Some "https://up/task/1") emptyWorld) = Throw GenerationTimeout
  /\ pollCount (trace (snd (pollTaskCompletion (steadyEnv pendingTask)
                  (Some "https://up/task/1") emptyWorld))) = 60.
Proof.
  assert (H : forall k, k < maxAttempts POLL_CONFIG ->
     completed (observation (steadyEnv pendingTask)
                  (Some "https://up/task/1") (polls emptyWorld + k)) = false
     /\ explicitlyFailed (observation (steadyEnv pendingTask)
                  (Some "https://up/task/1") (polls emptyWorld + k)) = false).
  { intros k _. split; reflexivity. }
  split; [exact H|].
  destruct (C8_poll_loop_times_out_after_maxAttempts POLL_CONFIG
              (steadyEnv pendingTask) (Some "https://up/task/1") emptyWorld)
    as [_ Hrun].
  destruct (Hrun H) as (Hres & _ & Hcount).
  split; [exact Hres|exact Hcount].
Defined.

(** *** Sequencing and frame rules *)

Lemma bind_Return {A B} (m : M A) (k : A -> M B) w b w' :
  bind m k w = (Return b, w') ->
  exists a w1, m w = (Return a, w1) /\ k a w1 = (Return b, w').
Proof.
  unfold bind. destruct (m w) as [[a|e] w1]; [eauto|discriminate].
Qed.

Section Appends.

Variable P : Event -> Prop.

Lemma appends_ret {A} (a : A) : appends P (ret a).
Proof. intros w. exists []. simpl. now rewrite app_nil_r. Qed.

Lemma appends_throw {A} e : appends P (@throw A e).
Proof. intros w. exists []. simpl. now rewrite app_nil_r. Qed.

Lemma appends_bind {A B} (m : M A) (k : A -> M B) :
  appends P m -> (forall a, appends P (k a)) -> appends P (bind m k).
Proof.
  intros Hm Hk w. unfold bind. destruct (Hm w) as (d1 & E1 & F1).
  destruct (m w) as [[a|e] w1]; simpl in *.
  - destruct (Hk a w1) as (d2 & E2 & F2). exists (d1 ++ d2).
    rewrite E2, E1, app_assoc. split; [reflexivity|].
    apply Forall_app. now split.
  - now exists d1.
Qed.

Lemma appends_try_catch {A} (body : M A) (handler : JsError -> M A) :
  appends P body -> (forall e, appends P (handler e)) ->
  appends P (try_catch body handler).
Proof.
  intros Hm Hk w. unfold try_catch. destruct (Hm w) as (d1 & E1 & F1).
  destruct (body w) as [[a|e] w1]; simpl in *.
  - now exists d1.
  - destruct (Hk e w1) as (d2 & E2 & F2). exists (d1 ++ d2).
    rewrite E2, E1, app_assoc. split; [reflexivity|].
    apply Forall_app. now split.
Qed.

Lemma appends_emit e : P e -> appends P (emit e).
Proof.
  intros He w. exists [e]. simpl. split; [reflexivity|].
  apply Forall_cons; split; [exact He|constructor].
Qed.

Lemma appends_sleep ms : P (EvSleep ms) -> appends P (sleep ms).
Proof.
  intros He w. exists [EvSleep ms]. simpl. split; [reflexivity|].
  apply Forall_cons; split; [exact He|constructor].
Qed.

(** A computation that leaves the trace as it is. *)
Lemma appends_same_trace {A} (m : M A) :
  (forall w, trace (snd (m w)) = trace w) -> appends P m.
Proof. intros H w. exists []. rewrite H, app_nil_r. now split. Qed.

Lemma appends_console l : appends P (console_error l).
Proof. now apply appends_same_trace. Qed.

Lemma appends_now : appends P now.
Proof. now apply appends_same_trace. Qed.

Lemma appends_await_supa {A} (r : Supa A) : appends P (await_supa r).
Proof. apply appends_same_trace. intros w. now destruct r. Qed.

Lemma appends_ensureTempDir env : appends P (ensureTempDir env).
Proof.
  apply appends_same_trace. intros w. unfold ensureTempDir.
  destruct (bool_decide _); [reflexivity|].
  now destruct (mkdir_fails env _).
Qed.

Lemma appends_next_uuid env : appends P (next_uuid env).
Proof. now apply appends_same_trace. Qed.

Lemma appends_pipe_to_file env f body : appends P (pipe_to_file env f body).
Proof.
  apply appends_same_trace. intros w. unfold pipe_to_file.
  destruct (write_stream env f) as [|msg [partial|]]; reflexivity.
Qed.

Lemma appends_readFileSync env f : appends P (readFileSync env f).
Proof.
  apply appends_same_trace. intros w. unfold readFileSync.
  destruct (read_fails env f); [reflexivity|].
  now destruct (files w !! f).
Qed.

Lemma appends_unlinkSync env f : appends P (unlinkSync env f).
Proof.
  apply appends_same_trace. intros w. unfold unlinkSync.
  destruct (unlink_fails env f); [reflexivity|].
  now destruct (files w !! f).
Qed.

Lemma appends_images_insert env row : appends P (images_insert env row).
Proof.
  apply appends_same_trace. intros w. unfold images_insert.
  now destruct (insert_image env row).
Qed.

Lemma appends_request_logs_insert env row :
  appends P (request_logs_insert env row).
Proof.
  apply appends_same_trace. intros w. unfold request_logs_insert.
  now destruct (insert_request_log env row).
Qed.

Lemma appends_axios_download env u :
  P (EvDownload u) -> appends P (axios_download env u).
Proof.
  intros He w. exists [EvDownload u]. unfold axios_download.
  split; [|apply Forall_cons; split; [exact He|constructor]].
  now destruct (download env (downloads w) u).
Qed.

Lemma appends_storage_put env path body :
  P (EvStorageUpload path) -> appends P (storage_put env path body).
Proof.
  intros He w. exists [EvStorageUpload path]. unfold storage_put.
  split; [|apply Forall_cons; split; [exact He|constructor]].
  destruct (bucket w !! path); [reflexivity|].
  now destruct (storage_upload env path body).
Qed.

Lemma appends_createSignedUrl env path ttl :
  P (EvCreateSignedUrl path ttl) -> appends P (createSignedUrl env path ttl).
Proof.
  intros He. unfold createSignedUrl.
  apply appends_bind; [now apply appends_emit|].
  intros _. apply appends_await_supa.
Qed.

End Appends.

Create HintDb appends.

#[local] Hint Resolve appends_ret appends_throw appends_console appends_now
  appends_await_supa appends_ensureTempDir appends_next_uuid
  appends_pipe_to_file appends_readFileSync appends_unlinkSync
  appends_images_insert appends_request_logs_insert : appends.

Ltac appends_step :=
  first
    [ apply appends_axios_download; split; reflexivity
    | apply appends_storage_put; split; reflexivity
    | apply appends_createSignedUrl; split; reflexivity
    | solve [auto with appends]
    | match goal with
      | |- appends _ (match ?x with _ => _ end) => destruct x
      | |- appends _ (bind _ _) => apply appends_bind; [|intros ?]
      | |- appends _ (try_catch _ _) => apply appends_try_catch; [|intros ?]
      end ].

(** *** Materialization leaves the job endpoints alone *)

Lemma uploadToStorage_appends env sourceUrl keyId prompt model :
  appends notUpstreamJob (uploadToStorage env sourceUrl keyId prompt model).
Proof.
  unfold uploadToStorage, uploadToStorage_try.
  repeat appends_step.
Qed.

Lemma imageToBase64_appends env sourceUrl :
  appends notUpstreamJob (imageToBase64 env sourceUrl).
Proof. unfold imageToBase64. repeat appends_step. Qed.

(** *** uploadToStorage *)

(** The [catch] of [uploadToStorage] returns: the call never throws, and
    what it returns is the source URL unless the [try] block returned. *)
Lemma uploadToStorage_returns env sourceUrl keyId prompt model w :
  exists v w',
    uploadToStorage env sourceUrl keyId prompt model w = (Return v, w')
    /\ (v = sourceUrl
        \/ uploadToStorage_try env sourceUrl keyId prompt model w
           = (Return v, w')).
Proof.
  unfold uploadToStorage, try_catch.
  destruct (uploadToStorage_try env sourceUrl keyId prompt model w)
    as [[v|e] w1].
  - exists v, w1. auto.
  - eexists sourceUrl, _. split; [reflexivity|now left].
Qed.

(** When the [try] block returns, every step went through: the download
    resolved, the bucket took the object, the signed URL is what is
    returned, and the temp file is gone. *)
Lemma uploadToStorage_try_Return env sourceUrl keyId prompt model w v w' :
  uploadToStorage_try env sourceUrl keyId prompt model w = (Return v, w') ->
  exists body,
    download env (downloads w) sourceUrl = Responded body
    /\ storage_upload env (storagePathOf env w keyId sourceUrl) body = Data tt
    /\ storage_sign env (storagePathOf env w keyId sourceUrl) 120 = Data v
    /\ files w' !! uploadTempFile env (uuids w) sourceUrl = None
    /\ bucket w' !! storagePathOf env w keyId sourceUrl = Some body.
Proof.
  unfold uploadToStorage_try, storagePathOf, uploadTempFile,
    ensureTempDir, next_uuid, axios_download, pipe_to_file, readFileSync,
    storage_put, createSignedUrl, emit, await_supa, now, images_insert,
    unlinkSync, ret, throw, set_files, bind.
  intros H.
  repeat (case_match; simplify_eq/=; try done).
  all: eexists; repeat split; eauto; simplify_map_eq; try done.
  all: match goal with a : unit |- _ = Data () => now destruct a end.
Qed.

(** When every step goes through, the [try] block returns the signed URL. *)
Lemma uploadToStorage_try_succeeds env sourceUrl keyId prompt model w s :
  RehostSucceeds env w keyId sourceUrl s ->
  exists w',
    uploadToStorage_try env sourceUrl keyId prompt model w = (Return s, w').
Proof.
  intros [Hdir (body & Hdl & Hput) Hwr Hrd Hfree Hsign Hins Hunl].
  unfold storagePathOf, uploadTempFile in *.
  unfold uploadToStorage_try, ensureTempDir, next_uuid, axios_download,
    pipe_to_file, readFileSync, storage_put, createSignedUrl, emit,
    await_supa, now, images_insert, unlinkSync, ret, throw, set_files, bind.
  assert (Hmk : exists w1,
    (if bool_decide (tempDirOf env ∈ dirs w) then (Return tt, w)
     else if mkdir_fails env (tempDirOf env)
          then (Throw (PlainError "EACCES: mkdir" None None), w)
          else (Return tt,
                {| trace := trace w; console := console w; clock := clock w;
                   polls := polls w; downloads := downloads w;
                   uuids := uuids w; dirs := {[tempDirOf env]} ∪ dirs w;
                   files := files w; bucket := bucket w;
                   request_logs := request_logs w; images := images w |}))
      = (Return tt, w1)
    /\ downloads w1 = downloads w /\ uuids w1 = uuids w
    /\ bucket w1 = bucket w).
  { case_bool_decide as Hin; [eauto|].
    destruct Hdir as [Hdir|Hdir]; [contradiction|].
    rewrite Hdir. eexists. split; [reflexivity|]. simpl. auto. }
  destruct Hmk as (w1 & -> & Hd1 & Hu1 & Hb1). simpl.
  rewrite Hd1, Hu1, Hdl. simpl. rewrite Hwr. simpl. rewrite Hrd.
  simpl. rewrite lookup_insert_eq. simpl. rewrite Hb1, Hfree, Hput. simpl.
  rewrite Hsign. simpl.
  match goal with
  | |- context [insert_image env ?row] =>
      destruct (insert_image env row) as [[]|msg|msg] eqn:Ei;
        [| |now destruct (Hins row msg)]
  end; simpl; rewrite Hunl; simpl; rewrite lookup_insert_eq;
    eexists; reflexivity.
Qed.

(** C4: [uploadToStorage] never throws.  When the download is rejected,
    the bucket does not take the object, or no signed URL is minted, it
    returns the source URL it was given; when every step goes through it
    returns the signed URL of the re-hosted object. *)
Theorem C4_uploadToStorage_falls_back_to_source_url
    (env : Env) (sourceUrl : string) (keyId : option string)
    (prompt model : string) (w : World) :
  exists v w',
    uploadToStorage env sourceUrl keyId prompt model w = (Return v, w')
    /\ (downloadFails env w sourceUrl
        \/ putFails env w keyId sourceUrl
        \/ signFails env w keyId sourceUrl -> v = sourceUrl)
    /\ (forall signedUrl,
          RehostSucceeds env w keyId sourceUrl signedUrl -> v = signedUrl).
Proof.
  destruct (uploadToStorage_returns env sourceUrl keyId prompt model w)
    as (v & w' & E & Hv).
  exists v, w'. split; [exact E|]. split.
  - intros Hfail. destruct Hv as [Hv|Htry]; [exact Hv|].
    apply uploadToStorage_try_Return in Htry
      as (body & Hdl & Hput & Hsign & _).
    destruct Hfail as [(msg & st & Hrej)|[Hno|Hno]].
    + congruence.
    + now destruct (Hno body).
    + now destruct (Hno v).
  - intros s Hok.
    destruct (uploadToStorage_try_succeeds env sourceUrl keyId prompt model
                w s Hok) as (w1 & Htry).
    unfold uploadToStorage, try_catch in E. rewrite Htry in E.
    congruence.
Qed.

(** A refused upload gives back the source URL; a working bucket gives
    the signed URL. *)
Lemma C4_witness_refused_and_working_bucket :
  putFails (withUploadRefused (steadyEnv doneTask)) emptyWorld (Some "key-1")
    "https://up/img.png"
  /\ fst (uploadToStorage (withUploadRefused (steadyEnv doneTask))
            "https://up/img.png" (Some "key-1") "a cat" "dalle" emptyWorld)
     = Return "https://up/img.png"
  /\ RehostSucceeds (steadyEnv doneTask) emptyWorld (Some "key-1")
       "https://up/img.png" "https://store/signed"
  /\ fst (uploadToStorage (steadyEnv doneTask) "https://up/img.png"
            (Some "key-1") "a cat" "dalle" emptyWorld)
     = Return "https://store/signed".
Proof.
  assert (Hput : putFails (withUploadRefused (steadyEnv doneTask)) emptyWorld
                   (Some "key-1") "https://up/img.png").
  { intros body. discriminate. }
  assert (Hok : RehostSucceeds (steadyEnv doneTask) emptyWorld (Some "key-1")
                  "https://up/img.png" "https://store/signed").
  { split; try reflexivity.
    - right. reflexivity.
    - exists pngBytes. split; reflexivity.
    - intros row msg. discriminate. }
  split; [exact Hput|]. split; [|split; [exact Hok|]].
  - destruct (C4_uploadToStorage_falls_back_to_source_url
                (withUploadRefused (steadyEnv doneTask)) "https://up/img.png"
                (Some "key-1") "a cat" "dalle" emptyWorld)
      as (v & w' & E & Hfail & _).
    rewrite E. simpl. f_equal. apply Hfail. right. left. exact Hput.
  - destruct (C4_uploadToStorage_falls_back_to_source_url
                (steadyEnv doneTask) "https://up/img.png"
                (Some "key-1") "a cat" "dalle" emptyWorld)
      as (v & w' & E & _ & Hgood).
    rewrite E. simpl. f_equal. apply Hgood. exact Hok.
Defined.

(** *** Temp files *)

(** On the path where everything goes through, the temp file of
    [uploadToStorage] is removed before the return. *)
Lemma uploadToStorage_success_removes_temp env sourceUrl keyId prompt model
    w v w' :
  uploadToStorage_try env sourceUrl keyId prompt model w = (Return v, w') ->
  files w' !! uploadTempFile env (uuids w) sourceUrl = None.
Proof.
  intros H.
  now apply uploadToStorage_try_Return in H as (_ & _ & _ & _ & H & _).
Qed.

(** When the file was downloaded and the bucket then answers the upload
    with an error, [uploadToStorage] returns with the temp file still on
    disk: the only [unlinkSync] is at the end of the [try] block. *)
Lemma uploadToStorage_refused_upload_leaves_temp env sourceUrl keyId
    prompt model w body msg :
  tempDirOf env ∈ dirs w ->
  download env (downloads w) sourceUrl = Responded body ->
  write_stream env (uploadTempFile env (uuids w) sourceUrl) = Finish ->
  read_fails env (uploadTempFile env (uuids w) sourceUrl) = false ->
  bucket w !! storagePathOf env w keyId sourceUrl = None ->
  storage_upload env (storagePathOf env w keyId sourceUrl) body = Failed msg ->
  fst (uploadToStorage env sourceUrl keyId prompt model w) = Return sourceUrl
  /\ files (snd (uploadToStorage env sourceUrl keyId prompt model w))
       !! uploadTempFile env (uuids w) sourceUrl = Some body.
Proof.
  intros Hdir Hdl Hwr Hrd Hfree Hput.
  unfold storagePathOf, uploadTempFile in *.
  unfold uploadToStorage, try_catch, uploadToStorage_try, ensureTempDir,
    next_uuid, axios_download, pipe_to_file, readFileSync, storage_put,
    console_error, ret, throw, set_files, bind.
  rewrite bool_decide_eq_true_2 by exact Hdir. simpl.
  rewrite Hdl. simpl. rewrite Hwr. simpl. rewrite Hrd. simpl.
  rewrite lookup_insert_eq. simpl. rewrite Hfree, Hput. simpl.
  split; [reflexivity|apply lookup_insert_eq].
Qed.

(** C5 (code as written): the temp file is not removed on the failure
    paths.  With a bucket that refuses the upload, [uploadToStorage]
    returns the source URL and leaves [temp/u0.png] on disk; with a disk
    whose read fails, [imageToBase64] throws and leaves its temp file too.
    On the success path both remove it. *)
Theorem C5_temp_file_left_on_failure_paths :
  (fst (uploadToStorage (withUploadRefused (steadyEnv doneTask))
          "https://up/img.png" (Some "key-1") "a cat" "dalle" emptyWorld)
     = Return "https://up/img.png"
   /\ files (snd (uploadToStorage (withUploadRefused (steadyEnv doneTask))
                    "https://up/img.png" (Some "key-1") "a cat" "dalle"
                    emptyWorld))
        !! "temp/u0.png" = Some pngBytes)
  /\ (fst (imageToBase64 (withReadFailing (steadyEnv doneTask))
             "https://up/img.png" emptyWorld)
        = Throw ImageProcessingFailed
      /\ files (snd (imageToBase64 (withReadFailing (steadyEnv doneTask))
                       "https://up/img.png" emptyWorld))
           !! "temp/u0.png" = Some pngBytes)
  /\ files (snd (uploadToStorage (steadyEnv doneTask) "https://up/img.png"
                   (Some "key-1") "a cat" "dalle" emptyWorld))
       !! "temp/u0.png" = None
  /\ files (snd (imageToBase64 (steadyEnv doneTask) "https://up/img.png"
                   emptyWorld))
       !! "temp/u0.png" = None.
Proof. vm_compute. repeat split. Qed.

(** *** generateImage *)

Lemma appends_run {A} P (m : M A) w r w' :
  appends P m -> m w = (r, w') ->
  exists d, trace w' = trace w ++ d /\ Forall P d.
Proof. intros H E. specialize (H w). now rewrite E in H. Qed.

(** The [catch] block always throws; it makes no upstream call, and it
    writes its one error row exactly when the key id is truthy and the
    insert goes through. *)
Lemma generateImage_catch_throws env params error w :
  exists e' w',
    generateImage_catch env params error w = (Throw e', w')
    /\ trace w' = trace w
    /\ files w' = files w
    /\ bucket w' = bucket w
    /\ (forall m st ty p c, error = ApiError m st ty p c -> e' = error)
    /\ request_logs w' =
         if Js.truthy (keyId params) then
           match insert_request_log env (errorRow params error (clock w)) with
           | Data _ =>
               request_logs w ++ [errorRow params error (clock w)]
           | _ => request_logs w
           end
         else request_logs w.
Proof.
  unfold generateImage_catch, try_catch, bind, request_logs_insert, now,
    console_error, ret, throw.
  destruct (Js.truthy (keyId params)).
  - destruct (insert_request_log env (errorRow params error (clock w)))
      as [[]|msg|msg]; destruct error; eexists _, _;
        (split; [reflexivity|]); simpl; repeat split; auto; congruence.
  - destruct error; eexists _, _;
      (split; [reflexivity|]); simpl; repeat split; auto; congruence.
Qed.

Lemma generateImage_Return env params w resp w' :
  generateImage env params w = (Return resp, w') ->
  generateImage_try env params w = (Return resp, w').
Proof.
  unfold generateImage, try_catch.
  destruct (generateImage_try env params w) as [[r|e] w1]; [auto|].
  destruct (generateImage_catch_throws env params e w1) as (e' & w2 & E & _).
  rewrite E. discriminate.
Qed.

Lemma axios_get_job_Return env apiUrl w job w' :
  axios_get_job env apiUrl w = (Return job, w') ->
  submit env apiUrl = Responded job
  /\ trace w' = trace w ++ [EvSubmit apiUrl].
Proof.
  unfold axios_get_job, bind, emit, ret, throw. simpl.
  destruct (submit env apiUrl); [|discriminate].
  intros [= <- <-]. auto.
Qed.

Lemma axios_get_job_trace env apiUrl w :
  trace (snd (axios_get_job env apiUrl w)) = trace w ++ [EvSubmit apiUrl].
Proof.
  unfold axios_get_job, bind, emit, ret, throw. simpl.
  now destruct (submit env apiUrl).
Qed.

Lemma fluxSuffix_pure actualModel size w :
  snd (fluxSuffix actualModel size w) = w.
Proof.
  unfold fluxSuffix. destruct actualModel as [|m|m]; try reflexivity.
  now destruct (Js.startsWith m "flux").
Qed.

Lemma array_fill_Return count entry w l w' :
  array_fill count entry w = (Return l, w') ->
  l = repeat entry (Z.to_nat count) /\ w' = w.
Proof.
  unfold array_fill, ret, throw.
  destruct (_ || _); [discriminate|]. now intros [= <- <-].
Qed.

Lemma success_log_appends env row :
  appends notUpstreamJob
    (try_catch
       (let* created_at := now in
        request_logs_insert env (row created_at))
       (fun logError => console_error (FailedToLogRequest logError))).
Proof. repeat appends_step. Qed.

(** The shape of every successful run of [generateImage_try]. *)
Lemma generateImage_try_Return env params w resp w' :
  generateImage_try env params w = (Return resp, w') ->
  exists apiUrl job image w2 w3 d_rest entry,
    submit env apiUrl = Responded (Some job)
    /\ trace w2 = trace w ++ [EvSubmit apiUrl]
    /\ pollTaskCompletion env (job_task_url job) w2 = (Return image, w3)
    /\ trace w' = trace w3 ++ d_rest
    /\ Forall notUpstreamJob d_rest
    /\ array_fill (match n params with Some c => c | None => 1%Z end)
         entry w' = (Return (data resp), w')
    /\ ((exists imageUrl, entry = UrlEntry imageUrl)
        \/ (exists imageBase64, entry = B64Entry imageBase64)).
Proof.
  unfold generateImage_try. intros H.
  destruct (negb (Js.truthy (prompt params))); [discriminate|].
  destruct (negb (Js.is_truthy _)); [discriminate|].
  destruct (provider_of PROVIDERS _) as [provider|]; [|discriminate].
  apply bind_Return in H as (apiUrl & w1 & Hurl & H).
  assert (Hw1 : w1 = w).
  { destruct (String.eqb _ "flux").
    - apply bind_Return in Hurl as (suffix & w0 & Hs & Hr).
      injection Hr as _ <-.
      pose proof (fluxSuffix_pure
        (actualModelOf (Js.default_to (model params) "dalle"))
        (Js.default_to (size params) "1024x1024") w) as Hp.
      now rewrite Hs in Hp.
    - now injection Hurl as _ <-. }
  subst w1. clear Hurl.
  apply bind_Return in H as (jobResponse & w2 & Hjob & H).
  apply axios_get_job_Return in Hjob as [Hsubmit Ht2].
  destruct jobResponse as [job|]; [|discriminate].
  destruct (negb (job_ok job)); [discriminate|].
  apply bind_Return in H as (image & w3 & Hpoll & H).
  apply bind_Return in H as (imageUrl & w4 & Hup & H).
  apply bind_Return in H as ([] & w5 & Hlog & H).
  apply bind_Return in H as (t & w6 & Hnow & H).
  injection Hnow as <- <-.
  destruct (appends_run _ _ _ _ _
              (uploadToStorage_appends _ _ _ _ _) Hup) as (d4 & Ht4 & F4).
  destruct (appends_run _ _ _ _ _
              (success_log_appends env _) Hlog) as (d5 & Ht5 & F5).
  destruct (String.eqb _ "b64_json").
  - apply bind_Return in H as (imageBase64 & w7 & Hb64 & H).
    apply bind_Return in H as (entries & w8 & Hfill & H).
    injection H as <- <-.
    destruct (appends_run _ _ _ _ _
                (imageToBase64_appends _ _) Hb64) as (d7 & Ht7 & F7).
    pose proof (array_fill_Return _ _ _ _ _ Hfill) as [_ ->].
    exists apiUrl, job, image, w2, w3, (d4 ++ d5 ++ d7),
      (B64Entry imageBase64).
    repeat split; eauto.
    + rewrite Ht7, Ht5, Ht4. now rewrite <- !app_assoc.
    + repeat (apply Forall_app; split); assumption.
  - apply bind_Return in H as (entries & w8 & Hfill & H).
    injection H as <- <-.
    pose proof (array_fill_Return _ _ _ _ _ Hfill) as [_ ->].
    exists apiUrl, job, image, w2, w3, (d4 ++ d5), (UrlEntry imageUrl).
    repeat split; eauto.
    + rewrite Ht5, Ht4. now rewrite <- !app_assoc.
    + apply Forall_app; split; assumption.
Qed.

(** C3: a call of [generateImage] with [n] in 1..10 that returns a
    response has issued exactly one job submission and run exactly one
    poll loop (on the task URL of that job, with at least one and at most
    [maxAttempts] status requests); everything after the loop stays away
    from the job endpoints; and the [data] array of the response has
    exactly [n] entries, all the same [url] entry or all the same
    [b64_json] entry. *)
Theorem C3_one_submission_one_poll_loop_n_entries
    (env : Env) (params : Params) (count : Z) (w w' : World)
    (resp : GenerationResponse) :
  n params = Some count ->
  (1 <= count <= 10)%Z ->
  generateImage env params w = (Return resp, w') ->
  (exists apiUrl job image w2 w3 d_rest,
      submit env apiUrl = Responded (Some job)
      /\ trace w2 = trace w ++ [EvSubmit apiUrl]
      /\ pollTaskCompletion env (job_task_url job) w2 = (Return image, w3)
      /\ trace w' = trace w3 ++ d_rest
      /\ Forall notUpstreamJob d_rest)
  /\ submitCount (trace w') = submitCount (trace w) + 1
  /\ pollCount (trace w) + 1 <= pollCount (trace w')
       <= pollCount (trace w) + maxAttempts POLL_CONFIG
  /\ length (data resp) = Z.to_nat count
  /\ exists entry,
       data resp = repeat entry (Z.to_nat count)
       /\ ((exists imageUrl, entry = UrlEntry imageUrl)
           \/ (exists imageBase64, entry = B64Entry imageBase64)).
Proof.
  intros Hn Hcount Hrun.
  apply generateImage_Return, generateImage_try_Return in Hrun
    as (apiUrl & job & image & w2 & w3 & d_rest & entry
        & Hsub & Ht2 & Hpoll & Ht' & Frest & Hfill & Hentry).
  rewrite Hn in Hfill. apply array_fill_Return in Hfill as [Hdata _].
  destruct (pollLoop_trace POLL_CONFIG env (job_task_url job)
              (maxAttempts POLL_CONFIG) 0 w2) as (dp & Htp & Fp & Hle & Hge).
  unfold pollTaskCompletion, pollTaskCompletionWith in Hpoll.
  rewrite Hpoll in Htp, Hge. simpl in Htp, Hge.
  destruct (Hge image eq_refl) as [Hone _].
  destruct (notUpstreamJob_counts d_rest Frest) as [Hs0 Hp0].
  pose proof (pollLoopEvent_submitCount _ _ dp Fp) as Hsp.
  split; [|split; [|split; [|split]]].
  - exists apiUrl, job, image, w2, w3, d_rest. auto.
  - rewrite Ht', Htp, Ht2, !submitCount_app, Hs0, Hsp.
    change (submitCount [EvSubmit apiUrl]) with 1. lia.
  - rewrite Ht', Htp, Ht2, !pollCount_app, Hp0.
    change (pollCount [EvSubmit apiUrl]) with 0. lia.
  - rewrite Hdata. apply repeat_length.
  - exists entry. auto.
Qed.

(** Three images asked of an upstream that is done at the first status
    request: one submission, one status request, three equal entries. *)
Lemma C3_witness_three_urls :
  exists resp w',
    generateImage (steadyEnv doneTask) (catParams 3 None) emptyWorld
      = (Return resp, w')
    /\ submitCount (trace w') = 1
    /\ pollCount (trace w') = 1
    /\ data resp = repeat (UrlEntry "https://store/signed") 3.
Proof.
  destruct (generateImage (steadyEnv doneTask) (catParams 3 None) emptyWorld)
    as [r w'] eqn:E.
  assert (Hr : r = fst (generateImage (steadyEnv doneTask) (catParams 3 None)
                          emptyWorld)) by now rewrite E.
  vm_compute in Hr.
  match type of Hr with _ = Return ?x => exists x, w' end.
  subst r. split; [reflexivity|].
  assert (Hrange : (1 <= 3 <= 10)%Z) by lia.
  destruct (C3_one_submission_one_poll_loop_n_entries
              (steadyEnv doneTask) (catParams 3 None) 3 emptyWorld w' _
              eq_refl Hrange E)
    as (_ & Hs & Hp & _ & _).
  assert (Hw : trace w' = trace (snd (generateImage (steadyEnv doneTask)
                                        (catParams 3 None) emptyWorld)))
    by now rewrite E.
  split; [exact Hs|]. split; [|reflexivity].
  rewrite Hw. vm_compute. reflexivity.
Defined.

(** *** Model resolution *)

Lemma mem_In k l : Js.mem k l = true <-> In k l.
Proof.
  unfold Js.mem. rewrite existsb_exists. split.
  - intros (x & Hin & Heq). apply String.eqb_eq in Heq. now subst.
  - intros Hin. exists k. split; [exact Hin|apply String.eqb_refl].
Qed.

Lemma assoc_not_key tbl k :
  Js.mem k (map fst tbl) = false -> Js.assoc tbl k = None.
Proof.
  induction tbl as [|[k' v] tbl IH]; [reflexivity|].
  unfold Js.mem. cbn [map fst existsb Js.assoc].
  intros H. apply orb_false_iff in H as [Hk Hrest].
  rewrite String.eqb_sym, Hk. now apply IH.
Qed.

Lemma assoc_In tbl k v : Js.assoc tbl k = Some v -> In (k, v) tbl.
Proof.
  induction tbl as [|[k' v'] tbl IH]; [discriminate|].
  cbn [Js.assoc]. destruct (String.eqb_spec k' k) as [->|_].
  - intros [= ->]. now left.
  - intros H. right. now apply IH.
Qed.

(** The keys of [MODEL_PROVIDERS] are the supported models. *)
Lemma MODEL_PROVIDERS_keys m :
  Js.mem m SUPPORTED_MODELS = false -> Js.assoc MODEL_PROVIDERS m = None.
Proof. intros H. apply assoc_not_key. exact H. Qed.

(** A name that is neither a model nor an alias resolves to no provider,
    the names of inherited members included. *)
Lemma unsupported_has_no_provider m :
  unsupportedModel m ->
  Js.is_truthy (providerNameOf (actualModelOf m)) = false.
Proof.
  intros [Hm Ha]. unfold actualModelOf, Js.get. rewrite Ha.
  destruct (Js.mem m Js.objectPrototypeMembers) eqn:Hp.
  - apply mem_In in Hp. simpl in Hp.
    repeat (destruct Hp as [<-|Hp]; [reflexivity|]). contradiction.
  - unfold Js.val_or, providerNameOf, Js.get.
    cbn [Js.is_truthy Js.to_string].
    rewrite (MODEL_PROVIDERS_keys m Hm), Hp. reflexivity.
Qed.

(** A request [generateImage] rejects: the error, no upstream call, no
    file or bucket change, and the error row of the [catch] block. *)
Lemma generateImage_rejects env params w :
  rejectedByService params ->
  exists e w',
    generateImage env params w = (Throw e, w')
    /\ e = (if Js.truthy (prompt params) then InvalidModel
            else PromptRequired)
    /\ trace w' = trace w
    /\ files w' = files w
    /\ bucket w' = bucket w
    /\ request_logs w' =
         if Js.truthy (keyId params) then
           match insert_request_log env (errorRow params e (clock w)) with
           | Data _ => request_logs w ++ [errorRow params e (clock w)]
           | _ => request_logs w
           end
         else request_logs w.
Proof.
  intros Hrej. unfold generateImage, try_catch.
  assert (Htry : exists e,
            generateImage_try env params w = (Throw e, w)
            /\ e = (if Js.truthy (prompt params) then InvalidModel
                    else PromptRequired)).
  { unfold generateImage_try.
    destruct (Js.truthy (prompt params)) eqn:Hp; cbn [negb].
    - destruct Hrej as [Hrej|Hrej]; [congruence|].
      rewrite Hrej. cbn [negb]. eauto.
    - eauto. }
  destruct Htry as (e & -> & He).
  destruct (generateImage_catch_throws env params e w)
    as (e' & w' & E & Ht & Hf & Hb & Hsame & Hlogs).
  assert (e' = e) as ->.
  { destruct (Js.truthy (prompt params)); subst e; eapply Hsame;
      reflexivity. }
  exists e, w'. auto 10.
Qed.

Lemma otherFieldsValid_validate body apiKeyId :
  otherFieldsValid body = true ->
  validate body apiKeyId =
    if Js.truthy (b_model body)
       && negb (Js.mem (Js.default_to (b_model body) "") SUPPORTED_MODELS)
       && negb (Js.is_truthy
                  (Js.get OPENAI_MODEL_MAP (Js.default_to (b_model body) "")))
    then Throw InvalidModelParam
    else Return {| prompt := b_prompt body;
                   n := Some (match numImagesOf (b_n body) with
                              | Some k => k
                              | None => 1%Z
                              end);
                   size := b_size body; model := b_model body;
                   response_format := b_response_format body;
                   keyId := Some apiKeyId |}.
Proof.
  unfold otherFieldsValid, validate. intros H.
  apply andb_true_iff in H as [H Hfmt]. apply andb_true_iff in H as [H Hsz].
  apply andb_true_iff in H as [Hp Hn].
  rewrite Hp. cbn [negb].
  destruct (numImagesOf (b_n body)) as [k|]; [|discriminate].
  apply andb_true_iff in Hn as [H1 H10].
  apply Z.leb_le in H1, H10.
  destruct (Z.ltb_spec k 1); [lia|]. destruct (Z.ltb_spec 10 k); [lia|].
  cbn [orb]. apply negb_true_iff in Hsz, Hfmt. rewrite Hsz, Hfmt.
  reflexivity.
Qed.

(** The handler's checks either refuse with a 400 error or hand on the
    body's prompt (truthy) and model as they came. *)
Lemma validate_cases body apiKeyId :
  (exists e, validate body apiKeyId = Throw e /\ statusOf e = 400%Z)
  \/ (exists params,
        validate body apiKeyId = Return params
        /\ Js.truthy (prompt params) = true
        /\ model params = b_model body).
Proof.
  unfold validate.
  destruct (Js.truthy (b_prompt body)) eqn:Hp; cbn [negb];
    [|left; eexists; split; reflexivity].
  destruct (numImagesOf (b_n body)) as [k|];
    [|left; eexists; split; reflexivity].
  destruct (_ || _); [left; eexists; split; reflexivity|].
  destruct (_ && _); [left; eexists; split; reflexivity|].
  destruct (_ && _); [left; eexists; split; reflexivity|].
  destruct (_ && _ && _); [left; eexists; split; reflexivity|].
  right. eexists. split; [reflexivity|]. split; [exact Hp|reflexivity].
Qed.

(** **** Where a resolved request is submitted *)

Lemma appends_weaken {A} (P Q : Event -> Prop) (m : M A) :
  (forall e, P e -> Q e) -> appends P m -> appends Q m.
Proof.
  intros HPQ Hm w. destruct (Hm w) as (d & E & F). exists d.
  split; [exact E|]. eapply Forall_impl; eauto.
Qed.

Lemma pollTaskCompletion_appends env taskUrl :
  appends anyEvent (pollTaskCompletion env taskUrl).
Proof.
  intros w.
  destruct (pollLoop_trace POLL_CONFIG env taskUrl (maxAttempts POLL_CONFIG)
              0 w) as (d & E & F & _).
  exists d. split; [exact E|]. eapply Forall_impl; [exact F|]. now intros.
Qed.

Lemma generateImage_catch_appends env params error :
  appends anyEvent (generateImage_catch env params error).
Proof.
  apply appends_same_trace. intros w.
  destruct (generateImage_catch_throws env params error w)
    as (e' & w' & E & Ht & _).
  now rewrite E.
Qed.

Lemma array_fill_appends count entry :
  appends anyEvent (array_fill count entry).
Proof.
  apply appends_same_trace. intros w. unfold array_fill.
  now destruct (_ || _).
Qed.

Lemma prefix_refl s : String.prefix s s = true.
Proof.
  induction s as [|a s IH]; [reflexivity|].
  cbn [String.prefix].
  destruct (Ascii.ascii_dec a a); [exact IH|congruence].
Qed.

Lemma prefix_append s t : String.prefix s (s +:+ t) = true.
Proof.
  induction s as [|a s IH]; [now destruct t|].
  change (String a s +:+ t) with (String a (s +:+ t)).
  cbn [String.prefix].
  destruct (Ascii.ascii_dec a a); [exact IH|congruence].
Qed.

(** A [try] block that starts with the job submission has it as the first
    event it adds, whatever follows. *)
Lemma submit_first {A} env apiUrl (K : option JobData -> M A)
    (handler : JsError -> M A) w :
  (forall job, appends anyEvent (K job)) ->
  (forall e, appends anyEvent (handler e)) ->
  exists rest,
    trace (snd (try_catch (bind (axios_get_job env apiUrl) K) handler w))
      = trace w ++ EvSubmit apiUrl :: rest.
Proof.
  intros HK Hh. unfold try_catch, bind.
  pose proof (axios_get_job_trace env apiUrl w) as Hsub.
  destruct (axios_get_job env apiUrl w) as [[job|e] w1]; cbn [snd] in Hsub.
  - destruct (HK job w1) as (d & Ed & _).
    destruct (K job w1) as [[r|e] w2]; cbn [snd] in *.
    + exists d. now rewrite Ed, Hsub, <- app_assoc.
    + destruct (Hh e w2) as (d2 & Ed2 & _). exists (d ++ d2).
      now rewrite Ed2, Ed, Hsub, <- !app_assoc.
  - destruct (Hh e w1) as (d2 & Ed2 & _). exists d2.
    now rewrite Ed2, Hsub, <- app_assoc.
Qed.

(** A request that resolves to a provider has a job submission as its
    first upstream call, addressed to the endpoint of that provider. *)
Lemma generateImage_submits env params w pname provider :
  Js.truthy (prompt params) = true ->
  providerNameOf (actualModelOf (Js.default_to (model params) "dalle"))
    = Js.Str pname ->
  pname <> "" ->
  provider_of PROVIDERS pname = Some provider ->
  (exists m, actualModelOf (Js.default_to (model params) "dalle") = Js.Str m) ->
  exists apiUrl rest,
    Js.startsWith apiUrl
      (API_BASE_URL env +:+ endpoint provider +:+ "?text="
         +:+ encodeURIComponent env (Js.default_to (prompt params) ""))
      = true
    /\ trace (snd (generateImage env params w))
       = trace w ++ EvSubmit apiUrl :: rest.
Proof.
  intros Hp Hname Hne Hprov (m & Hm).
  unfold generateImage, generateImage_try.
  rewrite Hp, Hname, Hm. cbn [negb Js.is_truthy Js.to_string].
  apply String.eqb_neq in Hne. rewrite Hne, Hprov. cbn [negb].
  set (base := API_BASE_URL env +:+ endpoint provider +:+ "?text="
                 +:+ encodeURIComponent env (Js.default_to (prompt params) "")).
  match goal with
  | |- context [try_catch (bind ?urlM ?K) ?handler] =>
      assert (Hurl : exists apiUrl,
                Js.startsWith apiUrl base = true
                /\ try_catch (bind urlM K) handler w
                   = try_catch (K apiUrl) handler w)
  end.
  { destruct (String.eqb pname "flux").
    - unfold fluxSuffix.
      destruct (Js.startsWith m "flux"); eexists;
        (split; [apply prefix_append|reflexivity]).
    - eexists. split; [apply prefix_refl|reflexivity]. }
  destruct Hurl as (apiUrl & Hpre & ->).
  exists apiUrl.
  destruct (submit_first env apiUrl
    (fun jobResponse : option JobData =>
       match jobResponse with
       | None => throw (TypeError "Cannot read properties of undefined")
       | Some job =>
           if negb (job_ok job) then
             throw (ApiError
                      (Js.or_else (job_message job)
                         "Failed to start image generation")
                      400 "api_error" None (Some "generation_failed"))
           else
             let* image := pollTaskCompletion env (job_task_url job) in
             let* imageUrl :=
               uploadToStorage env (img_url image) (keyId params)
                 (Js.default_to (prompt params) "") m in
             try_catch
               (let* created_at := now in
                request_logs_insert env
                  {| rl_key_id := keyId params;
                     rl_endpoint := endpoint provider;
                     rl_prompt := Js.default_to (prompt params) "";
                     rl_model := m;
                     rl_status := "success";
                     rl_created_at := created_at |})
               (fun logError =>
                  console_error (FailedToLogRequest logError)) ;;
             let* t := now in
             if String.eqb (Js.default_to (response_format params) "url")
                  "b64_json"
             then
               let* imageBase64 := imageToBase64 env (img_url image) in
               let* entries :=
                 array_fill (match n params with Some c => c | None => 1%Z end)
                   (B64Entry imageBase64) in
               ret {| creator := "featherops"; created := (t / 1000)%Z;
                      data := entries |}
             else
               let* entries :=
                 array_fill (match n params with Some c => c | None => 1%Z end)
                   (UrlEntry imageUrl) in
               ret {| creator := "featherops"; created := (t / 1000)%Z;
                      data := entries |}
       end)
    (generateImage_catch env params) w) as (rest & Hrest).
  - intros [job|]; [|apply appends_throw].
    destruct (negb (job_ok job)); [apply appends_throw|].
    apply appends_bind; [apply pollTaskCompletion_appends|intros image].
    apply appends_bind;
      [eapply appends_weaken; [|apply uploadToStorage_appends]; now intros
      |intros imageUrl].
    apply appends_bind;
      [eapply appends_weaken; [|apply success_log_appends]; now intros
      |intros _].
    apply appends_bind; [apply appends_now|intros t].
    destruct (String.eqb _ "b64_json").
    + apply appends_bind;
        [eapply appends_weaken; [|apply imageToBase64_appends]; now intros
        |intros b64].
      apply appends_bind; [apply array_fill_appends|intros l].
      apply appends_ret.
    + apply appends_bind; [apply array_fill_appends|intros l].
      apply appends_ret.
  - apply generateImage_catch_appends.
  - exists rest. split; [exact Hpre|exact Hrest].
Qed.

(** C6: a model name that is neither in the catalog nor an alias makes
    the request fail with a 400 error and no upstream call, both in
    [generateImage] and through the route handler, and the error names
    parameter [model] whenever the other fields of the body are valid; an
    alias resolves to its canonical model, which is in the catalog and
    belongs to a provider of [PROVIDERS], the route handler lets it
    through under its alias name, and the first upstream call of
    [generateImage] for it is the job submission to the endpoint of that
    provider. *)
Theorem C6_unsupported_model_rejected_alias_routed :
  (forall env params w m,
     Js.truthy (prompt params) = true ->
     model params = Some m ->
     unsupportedModel m ->
     exists w',
       generateImage env params w = (Throw InvalidModel, w')
       /\ statusOf InvalidModel = 400%Z
       /\ paramOf InvalidModel = Some "model"
       /\ trace w' = trace w)
  /\ (forall env body apiKeyId w m,
        b_model body = Some m ->
        unsupportedModel m ->
        exists e w',
          postGenerations env body apiKeyId w = (Throw e, w')
          /\ statusOf e = 400%Z
          /\ trace w' = trace w
          /\ (otherFieldsValid body = true -> paramOf e = Some "model"))
  /\ (forall a c,
        Js.assoc OPENAI_MODEL_MAP a = Some c ->
        actualModelOf a = Js.Str c
        /\ Js.mem c SUPPORTED_MODELS = true
        /\ (exists p provider,
              providerNameOf (actualModelOf a) = Js.Str p
              /\ provider_of PROVIDERS p = Some provider
              /\ In c (models provider)
              /\ forall env params w,
                   Js.truthy (prompt params) = true ->
                   model params = Some a ->
                   exists apiUrl rest,
                     Js.startsWith apiUrl
                       (API_BASE_URL env +:+ endpoint provider +:+ "?text="
                          +:+ encodeURIComponent env
                                (Js.default_to (prompt params) ""))
                       = true
                     /\ trace (snd (generateImage env params w))
                        = trace w ++ EvSubmit apiUrl :: rest)
        /\ forall body apiKeyId,
             otherFieldsValid body = true ->
             b_model body = Some a ->
             exists params,
               validate body apiKeyId = Return params
               /\ model params = Some a).
Proof.
  split; [|split].
  - intros env params w m Hp Hm Hun.
    destruct (generateImage_rejects env params w)
      as (e & w' & E & He & Ht & _).
    { right. rewrite Hm. now apply unsupported_has_no_provider. }
    rewrite Hp in He. subst e. exists w'. auto.
  - intros env body apiKeyId w m Hm Hun.
    unfold postGenerations.
    destruct (validate_cases body apiKeyId)
      as [(e & Ev & Hst)|(params & Ev & Hp & Hmodel)].
    + exists e, w. rewrite Ev. split; [reflexivity|].
      split; [exact Hst|]. split; [reflexivity|].
      intros Hvalid.
      rewrite (otherFieldsValid_validate body apiKeyId Hvalid) in Ev.
      destruct (_ && _ && _); [|discriminate].
      now injection Ev as <-.
    + rewrite Ev.
      destruct (generateImage_rejects env params w)
        as (e & w' & E & He & Ht & _).
      { right. rewrite Hmodel, Hm. now apply unsupported_has_no_provider. }
      rewrite Hp in He. subst e. exists InvalidModel, w'. auto.
  - intros a c Ha. apply assoc_In in Ha. unfold OPENAI_MODEL_MAP in Ha.
    cbn [In] in Ha.
    destruct Ha as [[= <- <-]|[[= <- <-]|[[= <- <-]|[[= <- <-]|[]]]]].
    all: split; [reflexivity|]; split; [reflexivity|]; split.
    all: try (do 2 eexists; split; [reflexivity|];
              split; [reflexivity|]; split; [cbn [models In]; auto 10|];
              intros env params w Hp Hm;
              eapply generateImage_submits;
                [exact Hp|rewrite Hm; reflexivity|discriminate
                |reflexivity|rewrite Hm; eexists; reflexivity]).
    all: intros body apiKeyId Hvalid Hm;
      rewrite (otherFieldsValid_validate body apiKeyId Hvalid), Hm;
      eexists; split; reflexivity.
Qed.

(** An unknown model name is refused by the handler, an empty one by the
    service, an alias goes to its provider. *)
Lemma C6_witness_unknown_empty_and_alias :
  (exists e w',
      postGenerations (steadyEnv doneTask) unknownModelBody "key-1" emptyWorld
        = (Throw e, w')
      /\ statusOf e = 400%Z /\ paramOf e = Some "model"
      /\ trace w' = trace emptyWorld)
  /\ (exists w',
        generateImage (steadyEnv doneTask)
          {| prompt := Some "a cat"; n := None; size := None;
             model := Some ""; response_format := None; keyId := None |}
          emptyWorld = (Throw InvalidModel, w')
        /\ trace w' = trace emptyWorld)
  /\ actualModelOf "dall-e-3" = Js.Str "dalle".
Proof.
  destruct C6_unsupported_model_rejected_alias_routed as (Hsvc & Hroute & Hal).
  split; [|split].
  - destruct (Hroute (steadyEnv doneTask) unknownModelBody "key-1" emptyWorld
                "midjourney") as (e & w' & E & Hst & Ht & Hparam);
      [reflexivity|split; reflexivity|].
    exists e, w'. split; [exact E|]. split; [exact Hst|].
    split; [apply Hparam; reflexivity|exact Ht].
  - destruct (Hsvc (steadyEnv doneTask)
                {| prompt := Some "a cat"; n := None; size := None;
                   model := Some ""; response_format := None;
                   keyId := None |} emptyWorld "")
      as (w' & E & _ & _ & Ht);
      [reflexivity|reflexivity|split; reflexivity|].
    exists w'. split; [exact E|exact Ht].
  - apply (Hal "dall-e-3" "dalle"). reflexivity.
Defined.

(** *** Side effects of rejected requests *)

(** A request the handler's own checks refuse leaves the world as it is. *)
(** What the handler reads from [n]: the number [parseInt] finds at the
    start of its text. *)
Lemma numImagesOf_samples :
  List.map numImagesOf
    [NAbsent; NText "3"; NText "2.5"; NText "1e+21"; NText "0x0a";
     NText "0"; NText "eleven"]
  = [Some 1%Z; Some 3%Z; Some 2%Z; Some 1%Z; Some 10%Z; Some 0%Z; None].
Proof. reflexivity. Qed.

Lemma postGenerations_refused env body apiKeyId w e :
  validate body apiKeyId = Throw e ->
  postGenerations env body apiKeyId w = (Throw e, w).
Proof. intros H. unfold postGenerations. now rewrite H. Qed.

(** C7 as stated fails: a body with a prompt and the empty string as
    model passes the handler's checks ([model &&] skips the model check),
    is rejected by [generateImage] with the 400 invalid-model error, and
    the [catch] block of [generateImage] writes an error row to
    [request_logs] for it. *)
Lemma C7_counterexample_empty_model_is_logged :
  fst (postGenerations (steadyEnv doneTask) emptyModelBody "key-1" emptyWorld)
    = Throw InvalidModel
  /\ request_logs emptyWorld = []
  /\ request_logs
       (snd (postGenerations (steadyEnv doneTask) emptyModelBody "key-1"
               emptyWorld))
     = [ {| rl_key_id := Some "key-1"; rl_endpoint := "unknown";
            rl_prompt := "a cat"; rl_model := "unknown";
            rl_status := "error"; rl_created_at := 0 |} ].
Proof. vm_compute. repeat split. Qed.

(** C7 (amended): a request refused by the handler's own checks is
    answered at once and leaves the world untouched: no upstream call, no
    row.  A request rejected inside [generateImage] (falsy prompt, or a
    model that resolves to no provider) is answered with that error and
    makes no upstream call and no file or bucket change either; the only
    thing written for it is the one error row of the [catch] block, when
    the key id is truthy and the insert goes through. *)
Theorem C7_rejected_requests_make_no_upstream_call
    (env : Env) (w : World) :
  (forall body apiKeyId e,
     validate body apiKeyId = Throw e ->
     postGenerations env body apiKeyId w = (Throw e, w))
  /\ (forall params,
        rejectedByService params ->
        exists e w',
          generateImage env params w = (Throw e, w')
          /\ e = (if Js.truthy (prompt params) then InvalidModel
                  else PromptRequired)
          /\ statusOf e = 400%Z
          /\ trace w' = trace w
          /\ files w' = files w
          /\ bucket w' = bucket w
          /\ (Js.truthy (keyId params) = false ->
              request_logs w' = request_logs w)
          /\ (request_logs w' = request_logs w
              \/ request_logs w' =
                   request_logs w ++ [errorRow params e (clock w)])).
Proof.
  split.
  - intros body apiKeyId e. apply postGenerations_refused.
  - intros params Hrej.
    destruct (generateImage_rejects env params w Hrej)
      as (e & w' & E & He & Ht & Hf & Hb & Hlogs).
    exists e, w'. repeat split; auto.
    + subst e. now destruct (Js.truthy (prompt params)).
    + intros Hk. now rewrite Hk in Hlogs.
    + rewrite Hlogs. destruct (Js.truthy (keyId params)); [|now left].
      destruct (insert_request_log env _); auto.
Qed.

(** An unknown model stops in the handler; an empty model stops in the
    service, with nothing sent upstream. *)
Lemma C7_witness_unknown_and_empty_model :
  postGenerations (steadyEnv doneTask) unknownModelBody "key-1" emptyWorld
    = (Throw InvalidModelParam, emptyWorld)
  /\ exists w',
       generateImage (steadyEnv doneTask)
         {| prompt := Some "a cat"; n := Some 1%Z; size := None;
            model := Some ""; response_format := None;
            keyId := Some "key-1" |} emptyWorld
         = (Throw InvalidModel, w')
       /\ trace w' = [].
Proof.
  destruct (C7_rejected_requests_make_no_upstream_call (steadyEnv doneTask)
              emptyWorld) as [Hhandler Hservice].
  split.
  - apply Hhandler. reflexivity.
  - destruct (Hservice
                {| prompt := Some "a cat"; n := Some 1%Z; size := None;
                   model := Some ""; response_format := None;
                   keyId := Some "key-1" |})
      as (e & w' & E & He & _ & Ht & _).
    { right. reflexivity. }
    simpl in He. subst e. exists w'. split; [exact E|exact Ht].
Defined.

(** *** The daily limiter *)

Module RateLimitFacts.
Import RateLimit.

(** The first call of a key in a quota day (no row, or a stale one)
    writes the row afresh with count 1 and goes on to the handler. *)
Lemma call_fresh k c (st : gmap string QuotaRecord) :
  id k <> "" ->
  staleOrAbsent st (id k) (resetTime c) ->
  createDynamicRateLimiter (call k c) st =
    (Next None,
     <[id k := {| requests_count := 1; last_reset := now c;
                  max_requests := maxRequestsOf (rateLimit k) |}]> st).
Proof.
  intros Hid Hstale. unfold createDynamicRateLimiter, call. cbn.
  apply String.eqb_neq in Hid. rewrite Hid.
  unfold ledgerStep, select, consume, staleOrAbsent in *. cbn.
  destruct (st !! id k) as [row|]; [|reflexivity].
  apply Z.ltb_lt in Hstale. rewrite Hstale. reflexivity.
Qed.

(** A later call of the day compares the stored count with the stored
    ceiling: at or above it the call is answered 429 and the store is left
    alone, below it the count goes up by one. *)
Lemma call_current k c (st : gmap string QuotaRecord) row :
  id k <> "" ->
  st !! id k = Some row ->
  (resetTime c <= last_reset row)%Z ->
  createDynamicRateLimiter (call k c) st =
    if (max_requests row <=? requests_count row)%Z then
      (RateLimitExceeded, st)
    else
      (Next (Some {| limit := max_requests row;
                     remaining :=
                       (max_requests row - requests_count row - 1)%Z;
                     reset := (resetTime c / 1000 + 86400)%Z |}),
       <[id k := {| requests_count := (requests_count row + 1)%Z;
                    last_reset := last_reset row;
                    max_requests := max_requests row |}]> st).
Proof.
  intros Hid Hrow Hday. unfold createDynamicRateLimiter, call. cbn.
  apply String.eqb_neq in Hid. rewrite Hid.
  unfold ledgerStep, select, consume. cbn. rewrite Hrow.
  destruct (Z.ltb_spec (last_reset row) (resetTime c)); [lia|].
  unfold checkAndIncrement, update. cbn.
  destruct (max_requests row <=? requests_count row)%Z; [reflexivity|].
  f_equal. apply map_eq. intros j.
  destruct (decide (id k = j)) as [<-|Hne].
  - now rewrite lookup_alter_eq, lookup_insert_eq, Hrow.
  - now rewrite lookup_alter_ne, lookup_insert_ne.
Qed.

(** A call that is not admitted leaves the table as it found it. *)
Lemma denied_leaves_store req (st : gmap string QuotaRecord) :
  admitted (fst (createDynamicRateLimiter req st)) = false ->
  snd (createDynamicRateLimiter req st) = st.
Proof.
  unfold createDynamicRateLimiter.
  destruct (apiKey req) as [k|]; [|discriminate].
  destruct (String.eqb (id k) ""); [discriminate|].
  unfold ledgerStep, select, consume, resetCounter, checkAndIncrement,
    upsert, update.
  destruct (on_select (faults req)); cbn; try discriminate.
  - destruct (st !! id k) as [row|]; cbn.
    + destruct (last_reset row <? resetTime (clock req))%Z.
      * destruct (on_upsert (faults req)); cbn; discriminate.
      * destruct (max_requests row <=? requests_count row)%Z;
          [reflexivity|].
        destruct (on_update (faults req)); cbn; discriminate.
    + destruct (on_upsert (faults req)); cbn; discriminate.
  - destruct (on_upsert (faults req)); cbn; discriminate.
Qed.

Lemma serve_length reqs (st : gmap string QuotaRecord) :
  length (fst (serve reqs st)) = length reqs.
Proof.
  revert st. induction reqs as [|r reqs IH]; intros st; [reflexivity|].
  cbn. destruct (createDynamicRateLimiter r st) as [o st1].
  specialize (IH st1). destruct (serve reqs st1) as [os st2].
  cbn in *. now rewrite IH.
Qed.

(** Calls of one day after the row was written: the i-th of them is
    admitted exactly when the stored count plus i is below the stored
    ceiling, and is answered 429 otherwise. *)
Lemma serve_current k boundary cs : forall (st : gmap string QuotaRecord) row,
  id k <> "" ->
  withinDay boundary cs ->
  st !! id k = Some row ->
  (boundary <= last_reset row)%Z ->
  forall i o,
    fst (serve (List.map (call k) cs) st) !! i = Some o ->
    admitted o = (requests_count row + Z.of_nat i <? max_requests row)%Z
    /\ (admitted o = false -> o = RateLimitExceeded).
Proof.
  induction cs as [|c cs IH]; intros st row Hid Hday Hrow Hfresh i o;
    [discriminate|].
  apply Forall_cons in Hday as [[Hr Hn] Hday].
  cbn [List.map serve].
  rewrite (call_current k c st row Hid Hrow) by lia.
  destruct (Z.leb_spec (max_requests row) (requests_count row))
    as [Hfull|Hroom].
  - destruct (serve (List.map (call k) cs) st) as [os st2] eqn:Es.
    destruct i as [|i]; cbn.
    + intros [= <-]. split; [|reflexivity]. cbn. symmetry.
      apply Z.ltb_ge. lia.
    + intros Ho. specialize (IH st row Hid Hday Hrow Hfresh i o).
      rewrite Es in IH. destruct (IH Ho) as [Ha Hd]. split; [|exact Hd].
      rewrite Ha. transitivity false; [|symmetry]; apply Z.ltb_ge; lia.
  - match goal with
    | |- context [serve _ ?st1] =>
        destruct (serve (List.map (call k) cs) st1) as [os st2] eqn:Es
    end.
    destruct i as [|i]; cbn.
    + intros [= <-]. split; [|discriminate]. cbn. symmetry.
      apply Z.ltb_lt. lia.
    + intros Ho.
      match type of Es with
      | serve _ (<[_ := ?row1]> _) = _ =>
          specialize (IH (<[id k := row1]> st) row1 Hid Hday
                        (lookup_insert_eq _ _ _) Hfresh i o)
      end.
      rewrite Es in IH. destruct (IH Ho) as [Ha Hd]. split; [|exact Hd].
      rewrite Ha. cbn. f_equal. lia.
Qed.

(** All calls of one day, from the first: with a stored ceiling of at
    least 1 the i-th call (from 0) is admitted exactly when i is below
    the ceiling. *)
Lemma serve_day k boundary cs (st : gmap string QuotaRecord) :
  id k <> "" ->
  (1 <= maxRequestsOf (rateLimit k))%Z ->
  withinDay boundary cs ->
  staleOrAbsent st (id k) boundary ->
  forall i o,
    fst (serve (List.map (call k) cs) st) !! i = Some o ->
    admitted o = (Z.of_nat i <? maxRequestsOf (rateLimit k))%Z
    /\ (admitted o = false -> o = RateLimitExceeded).
Proof.
  intros Hid Hmax Hday Hstale i o.
  destruct cs as [|c cs]; [discriminate|].
  pose proof Hday as Hday0.
  apply Forall_cons in Hday as [[Hr Hn] Hday].
  cbn [List.map serve]. rewrite call_fresh by (rewrite ?Hr; auto).
  match goal with
  | |- context [serve _ ?st1] =>
      destruct (serve (List.map (call k) cs) st1) as [os st2] eqn:Es
  end.
  destruct i as [|i]; cbn.
  - intros [= <-]. split; [|discriminate]. cbn. symmetry.
    apply Z.ltb_lt. lia.
  - intros Ho.
    match type of Es with
    | serve _ (<[_ := ?row1]> _) = _ =>
        pose proof (serve_current k boundary cs (<[id k := row1]> st) row1
                      Hid Hday (lookup_insert_eq _ _ _)) as Hcur
    end.
    cbn in Hcur. specialize (Hcur Hn i o). rewrite Es in Hcur.
    destruct (Hcur Ho) as [Ha Hd]. split; [|exact Hd].
    rewrite Ha. f_equal. lia.
Qed.

(** C2 as stated fails in two ways.  The limiter is written to let
    requests through when its store fails: a select that the store answers
    with an error takes the reset branch, so a key with ceiling 1 has its
    second and third call of the day admitted, one after another.  And for
    a ceiling of 0, [rateLimit || 100] stores the ceiling 100, so the calls
    of the day are admitted where the claim admits the first 0 of them. *)
Lemma C2_counterexample_select_error_and_zero_ceiling :
  (maxRequestsOf (rateLimit {| id := "key-1"; rateLimit := Some 1%Z |})
   = 1%Z
   /\ List.map admitted
        (fst (serve [racer; racerSelectFails; racerSelectFails] ∅))
      = [true; true; true])
  /\ rateLimit {| id := "key-0"; rateLimit := Some 0%Z |} = Some 0%Z
  /\ List.map admitted
       (fst (serve [zeroCeilingCall; zeroCeilingCall; zeroCeilingCall] ∅))
     = [true; true; true]
  /\ snd (serve [zeroCeilingCall; zeroCeilingCall; zeroCeilingCall] ∅)
       !! "key-0"
     = Some {| requests_count := 3; last_reset := 1000;
               max_requests := 100 |}.
Proof. vm_compute. repeat split. Qed.

(** C2 (amended): for a key with ceiling [C] of at least 1 and calls
    served one after another within one quota day by a store that answers
    every select, upsert and update without error, starting from no row or
    a stale row, exactly the first [C] calls are admitted and every later
    one is answered with the 429 rate-limit error; a call that is not
    admitted leaves the table untouched (whatever the store does); and a
    call that finds no row or a stale row writes the row afresh with count
    1 and is admitted. *)
Theorem C2_first_C_calls_admitted_rest_denied
    (k : ApiKey) (C boundary : Z) (cs : list Clock)
    (st : gmap string QuotaRecord) :
  id k <> "" ->
  rateLimit k = Some C ->
  (1 <= C)%Z ->
  withinDay boundary cs ->
  staleOrAbsent st (id k) boundary ->
  length (fst (serve (List.map (call k) cs) st)) = length cs
  /\ (forall i o,
        fst (serve (List.map (call k) cs) st) !! i = Some o ->
        (admitted o = true <-> (Z.of_nat i < C)%Z)
        /\ (admitted o = false -> o = RateLimitExceeded))
  /\ (forall req (st1 : gmap string QuotaRecord),
        admitted (fst (createDynamicRateLimiter req st1)) = false ->
        snd (createDynamicRateLimiter req st1) = st1)
  /\ (forall c (st1 : gmap string QuotaRecord),
        staleOrAbsent st1 (id k) (resetTime c) ->
        createDynamicRateLimiter (call k c) st1 =
          (Next None,
           <[id k := {| requests_count := 1; last_reset := now c;
                        max_requests := C |}]> st1)).
Proof.
  intros Hid Hrate HC Hday Hstale.
  assert (Hmax : maxRequestsOf (rateLimit k) = C).
  { rewrite Hrate. unfold maxRequestsOf.
    destruct (Z.eqb_spec C 0); [lia|reflexivity]. }
  split; [|split; [|split]].
  - rewrite serve_length. apply length_map.
  - intros i o Ho.
    destruct (serve_day k boundary cs st Hid ltac:(lia) Hday Hstale i o Ho)
      as [Ha Hd].
    split; [|exact Hd]. rewrite Ha, Hmax. apply Z.ltb_lt.
  - apply denied_leaves_store.
  - intros c st1 Hs. rewrite <- Hmax. now apply call_fresh.
Qed.

(** Five calls of a key with ceiling 3 in one day: three admitted, then
    two refused. *)
Lemma C2_witness_ceiling_three :
  List.map admitted (fst (serve (List.map threePerDay [1; 2; 3; 4; 5]%Z) ∅))
    = [true; true; true; false; false]
  /\ forall i o,
       fst (serve (List.map threePerDay [1; 2; 3; 4; 5]%Z) ∅) !! i = Some o ->
       admitted o = true <-> (Z.of_nat i < 3)%Z.
Proof.
  split; [vm_compute; reflexivity|].
  intros i o Ho.
  assert (Hid : id {| id := "key-3"; rateLimit := Some 3%Z |} <> "")
    by discriminate.
  assert (HC : (1 <= 3)%Z) by lia.
  assert (Hday : withinDay 0
            (List.map (fun t => {| now := t; resetTime := 0 |})
               [1; 2; 3; 4; 5]%Z)).
  { repeat (apply Forall_cons; split; [cbn; lia|]). constructor. }
  assert (Hstale : staleOrAbsent (∅ : gmap string QuotaRecord)
                     (id {| id := "key-3"; rateLimit := Some 3%Z |}) 0)
    by exact I.
  destruct (C2_first_C_calls_admitted_rest_denied
              {| id := "key-3"; rateLimit := Some 3%Z |} 3 0
              (List.map (fun t => {| now := t; resetTime := 0 |})
                 [1; 2; 3; 4; 5]%Z)
              ∅ Hid eq_refl HC Hday Hstale) as (_ & Hall & _).
  exact (proj1 (Hall i o Ho)).
Defined.

(** *** Calls in flight together *)

(** Both steps of a call, taken back to back, are the middleware. *)
Lemma step_twice r (st : gmap string QuotaRecord) :
  step (fst (step (Arrived r) st)) (snd (step (Arrived r) st)) =
    (Finished (fst (createDynamicRateLimiter r st)),
     snd (createDynamicRateLimiter r st)).
Proof.
  unfold createDynamicRateLimiter, ledgerStep. cbn [step].
  destruct (apiKey r) as [k|]; [|reflexivity].
  destruct (String.eqb (id k) ""); [reflexivity|].
  destruct (select (on_select (faults r)) (id k) st) as [[found|e] st1];
    [|reflexivity].
  cbn. now destruct (consume k (clock r) (faults r) found st1) as [[o|e] st2].
Qed.

(** The serial schedule is [serve]. *)
Lemma run_serial reqs : forall (finished : list Phase)
    (st : gmap string QuotaRecord),
  run (serialFrom (length finished) (length reqs))
      (finished ++ List.map Arrived reqs) st =
    (finished ++ List.map Finished (fst (serve reqs st)),
     snd (serve reqs st)).
Proof.
  induction reqs as [|r reqs IH]; intros finished st; [reflexivity|].
  cbn [length serialFrom List.map run serve].
  rewrite list_lookup_middle by reflexivity.
  destruct (step (Arrived r) st) as [p1 st1] eqn:E1.
  replace (<[length finished := p1]>
             (finished ++ Arrived r :: List.map Arrived reqs))
    with (finished ++ p1 :: List.map Arrived reqs).
  2:{ rewrite insert_app_r_alt by lia. now rewrite Nat.sub_diag. }
  rewrite list_lookup_middle by reflexivity.
  pose proof (step_twice r st) as H2. rewrite E1 in H2. cbn in H2.
  rewrite H2.
  replace (<[length finished := Finished (fst (createDynamicRateLimiter r st))]>
             (finished ++ p1 :: List.map Arrived reqs))
    with ((finished ++ [Finished (fst (createDynamicRateLimiter r st))])
            ++ List.map Arrived reqs).
  2:{ rewrite insert_app_r_alt by lia. rewrite Nat.sub_diag.
      now rewrite <- app_assoc. }
  replace (S (length finished))
    with (length (finished ++ [Finished (fst (createDynamicRateLimiter r st))]))
    by (rewrite length_app; cbn; lia).
  rewrite IH.
  destruct (createDynamicRateLimiter r st) as [o st2]. cbn [fst snd].
  destruct (serve reqs st2) as [os st3]. cbn [fst snd List.map].
  now rewrite <- app_assoc.
Qed.

Lemma admittedCount_Finished os :
  admittedCount (List.map Finished os) = admittedOutcomes os.
Proof.
  unfold admittedCount, admittedOutcomes.
  induction os as [|o os IH]; [reflexivity|].
  cbn. destruct (admitted o); cbn; now rewrite IH.
Qed.

(** Outcomes of which the i-th is admitted only below the ceiling hold at
    most ceiling-many admissions. *)
Lemma admitted_at_most (N : Z) os : forall j,
  (forall i o, os !! i = Some o ->
     admitted o = (Z.of_nat (j + i) <? N)%Z) ->
  (Z.of_nat (admittedOutcomes os) <= Z.max 0 (N - Z.of_nat j))%Z.
Proof.
  unfold admittedOutcomes.
  induction os as [|o os IH]; intros j H; [cbn; lia|].
  assert (IH' : (Z.of_nat (length (List.filter admitted os))
                 <= Z.max 0 (N - Z.of_nat (S j)))%Z).
  { apply IH. intros i o' Ho. rewrite (H (S i) o' Ho). f_equal. lia. }
  pose proof (H 0 o eq_refl) as H0. rewrite Nat.add_0_r in H0.
  cbn [List.filter]. rewrite H0.
  destruct (Z.ltb_spec (Z.of_nat j) N); cbn [length]; lia.
Qed.

(** C9 as stated fails: the select and the write of a call are two
    separate store operations with an [await] between them.  Two calls of
    a key with ceiling 1 whose selects both come before either write both
    find no row and are both admitted.  Served one after another, calls
    are still admitted past the ceiling when the store answers a select
    with an error, which sends the call to the reset branch.  (And a key
    with ceiling 0 has calls admitted even one after another over a
    working store, the stored ceiling being the default 100.) *)
Lemma C9_counterexample_interleaved_calls_both_admitted :
  maxRequestsOf (rateLimit {| id := "key-1"; rateLimit := Some 1%Z |}) = 1%Z
  /\ admittedCount
       (fst (run [0; 1; 0; 1] [Arrived racer; Arrived racer] ∅)) = 2
  /\ admittedCount
       (fst (run (serialSchedule 2)
               [Arrived racer; Arrived racerSelectFails] ∅)) = 2
  /\ admittedCount
       (fst (run (serialSchedule 2)
               [Arrived zeroCeilingCall; Arrived zeroCeilingCall] ∅)) = 2.
Proof. vm_compute. repeat split. Qed.

(** C9 (amended): for a key with ceiling [N] of at least 1, calls of one
    quota day, from the first of the day on (no row, or a stale one), that
    the store serves one after another (both store operations of a call
    before the select of the next) and answers without error admit at
    most [N] requests.  Nothing makes the select and the write of a call
    one atomic operation, so the bound is for this schedule only. *)
Theorem C9_serial_calls_admit_at_most_ceiling
    (k : ApiKey) (N boundary : Z) (cs : list Clock)
    (st : gmap string QuotaRecord) :
  id k <> "" ->
  rateLimit k = Some N ->
  (1 <= N)%Z ->
  withinDay boundary cs ->
  staleOrAbsent st (id k) boundary ->
  (Z.of_nat
     (admittedCount
        (fst (run (serialSchedule (length cs))
                (List.map (fun c => Arrived (call k c)) cs) st)))
   <= N)%Z.
Proof.
  intros Hid Hrate HN Hday Hstale.
  assert (Hmax : maxRequestsOf (rateLimit k) = N).
  { rewrite Hrate. unfold maxRequestsOf.
    destruct (Z.eqb_spec N 0); [lia|reflexivity]. }
  pose proof (run_serial (List.map (call k) cs) [] st) as Hrun.
  cbn [length app] in Hrun. rewrite length_map, List.map_map in Hrun.
  unfold serialSchedule. rewrite Hrun. cbn [fst].
  rewrite admittedCount_Finished.
  pose proof (admitted_at_most N (fst (serve (List.map (call k) cs) st)) 0)
    as Hle.
  cbn in Hle. rewrite Z.sub_0_r in Hle.
  etransitivity; [apply Hle|lia].
  intros i o Ho.
  destruct (serve_day k boundary cs st Hid ltac:(lia) Hday Hstale i o Ho)
    as [Ha _].
  now rewrite Ha, Hmax.
Qed.

(** Five calls of a key with ceiling 3, one after another: three
    admitted. *)
Lemma C9_witness_serial_ceiling_three :
  (Z.of_nat
     (admittedCount
        (fst (run (serialSchedule 5)
                (List.map (fun t => Arrived (threePerDay t))
                   [1; 2; 3; 4; 5]%Z) ∅)))
   <= 3)%Z.
Proof.
  assert (Hid : id {| id := "key-3"; rateLimit := Some 3%Z |} <> "")
    by discriminate.
  assert (HN : (1 <= 3)%Z) by lia.
  assert (Hday : withinDay 0
            (List.map (fun t => {| now := t; resetTime := 0 |})
               [1; 2; 3; 4; 5]%Z)).
  { repeat (apply Forall_cons; split; [cbn; lia|]). constructor. }
  assert (Hstale : staleOrAbsent (∅ : gmap string QuotaRecord)
                     (id {| id := "key-3"; rateLimit := Some 3%Z |}) 0)
    by exact I.
  exact (C9_serial_calls_admit_at_most_ceiling
           {| id := "key-3"; rateLimit := Some 3%Z |} 3 0
           (List.map (fun t => {| now := t; resetTime := 0 |})
              [1; 2; 3; 4; 5]%Z)
           ∅ Hid eq_refl HN Hday Hstale).
Defined.

(** *** A store that fails *)

(** C10: for a request that carries a key, whenever the [try] block of
    the limiter throws, the middleware calls [next()]; and it throws, and
    so admits the request, when the select rejects, when the upsert of the
    reset branch rejects, and when the update of the increment branch
    rejects. *)
Theorem C10_limiter_fails_open
    (req : Request) (k : ApiKey) (st : gmap string QuotaRecord) :
  apiKey req = Some k ->
  id k <> "" ->
  (forall e st',
     ledgerStep k (clock req) (faults req) st = (Throw e, st') ->
     createDynamicRateLimiter req st = (Next None, st'))
  /\ (on_select (faults req) = Rejects ->
      createDynamicRateLimiter req st = (Next None, st))
  /\ (on_select (faults req) <> Rejects ->
      needsReset (clock req) (foundBy (faults req) (id k) st) = true ->
      on_upsert (faults req) = Rejects ->
      createDynamicRateLimiter req st = (Next None, st))
  /\ (forall row,
        on_select (faults req) = Works ->
        st !! id k = Some row ->
        needsReset (clock req) (Some row) = false ->
        (requests_count row < max_requests row)%Z ->
        on_update (faults req) = Rejects ->
        createDynamicRateLimiter req st = (Next None, st)).
Proof.
  intros Hkey Hid. apply String.eqb_neq in Hid.
  unfold createDynamicRateLimiter. rewrite Hkey, Hid.
  split; [|split; [|split]].
  - intros e st' ->. reflexivity.
  - intros Hsel. unfold ledgerStep, select. now rewrite Hsel.
  - intros Hsel Hreset Hups.
    unfold ledgerStep, select, foundBy, needsReset in *.
    destruct (on_select (faults req)); [| |congruence].
    + unfold consume, resetCounter, upsert. rewrite Hups.
      destruct (st !! id k) as [row|]; [|reflexivity].
      now rewrite Hreset.
    + unfold consume, resetCounter, upsert. now rewrite Hups.
  - intros row Hsel Hrow Hreset Hroom Hupd.
    unfold ledgerStep, select, needsReset in *. rewrite Hsel, Hrow.
    unfold consume, checkAndIncrement, update. rewrite Hreset, Hupd.
    destruct (Z.leb_spec (max_requests row) (requests_count row)); [lia|].
    reflexivity.
Qed.

(** A store whose select rejects: the request goes on to the handler. *)
Lemma C10_witness_select_rejects :
  createDynamicRateLimiter
    {| apiKey := Some {| id := "key-1"; rateLimit := Some 1%Z |};
       clock := {| now := 1000; resetTime := 0 |};
       faults := {| on_select := Rejects; on_upsert := Works;
                    on_update := Works |} |}
    {[ "key-1" := {| requests_count := 1; last_reset := 500;
                     max_requests := 1 |} ]}
  = (Next None,
     {[ "key-1" := {| requests_count := 1; last_reset := 500;
                      max_requests := 1 |} ]}).
Proof.
  assert (Hid : id {| id := "key-1"; rateLimit := Some 1%Z |} <> "")
    by discriminate.
  destruct (C10_limiter_fails_open
    {| apiKey := Some {| id := "key-1"; rateLimit := Some 1%Z |};
       clock := {| now := 1000; resetTime := 0 |};
       faults := {| on_select := Rejects; on_upsert := Works;
                    on_update := Works |} |}
    {| id := "key-1"; rateLimit := Some 1%Z |}
    {[ "key-1" := {| requests_count := 1; last_reset := 500;
                     max_requests := 1 |} ]}
    eq_refl Hid) as (_ & Hsel & _).
  apply Hsel. reflexivity.
Defined.

End RateLimitFacts.

(** ** Further properties of the poll loop *)

Lemma sameStorage_refl w : sameStorage w w.
Proof. repeat split. Qed.

Lemma sameStorage_trans w1 w2 w3 :
  sameStorage w1 w2 -> sameStorage w2 w3 -> sameStorage w1 w3.
Proof.
  unfold sameStorage. intros (a1 & a2 & a3 & a4 & a5 & a6 & a7)
    (b1 & b2 & b3 & b4 & b5 & b6 & b7).
  repeat split; congruence.
Qed.

(** An attempt that does not observe a completed task costs one status
    request and one sleep, and touches nothing else. *)
Lemma pollAttempt_pending cfg env taskUrl attempt w :
  completed (observation env taskUrl (polls w)) = false ->
  exists w',
    pollAttempt cfg env taskUrl attempt w = (Return None, w')
    /\ polls w' = S (polls w)
    /\ clock w' = (clock w + interval cfg)%Z
    /\ trace w' = trace w ++ [EvPoll taskUrl; EvSleep (interval cfg)]
    /\ sameStorage w w'.
Proof.
  unfold pollAttempt, try_catch, bind, axios_get_task, observation, completed.
  destruct taskUrl as [u|]; simpl.
  - destruct (poll env (polls w) u) as [[data|]|msg st]; simpl.
    + intros ->. destruct (status_is data "error"); simpl;
        eexists; (split; [reflexivity|]); simpl;
        rewrite <- ?app_assoc; repeat split.
    + intros _. eexists; (split; [reflexivity|]); simpl;
        rewrite <- ?app_assoc; repeat split.
    + intros _. eexists; (split; [reflexivity|]); simpl;
        rewrite <- ?app_assoc; repeat split.
  - intros _. eexists; (split; [reflexivity|]); simpl;
      rewrite <- ?app_assoc; repeat split.
Qed.

(** An attempt that observes a completed task returns without a sleep. *)
Lemma pollAttempt_done cfg env taskUrl attempt w :
  completed (observation env taskUrl (polls w)) = true ->
  exists u data w',
    taskUrl = Some u
    /\ poll env (polls w) u = Responded (Some data)
    /\ Js.truthy (url data) = true
    /\ pollAttempt cfg env taskUrl attempt w =
         (Return (Some {| img_ok := true; img_status := "done";
                          img_url := Js.default_to (url data) "" |}), w')
    /\ polls w' = S (polls w)
    /\ clock w' = clock w
    /\ trace w' = trace w ++ [EvPoll taskUrl]
    /\ sameStorage w w'.
Proof.
  unfold pollAttempt, try_catch, bind, axios_get_task, observation, completed.
  destruct taskUrl as [u|]; simpl; [|discriminate].
  destruct (poll env (polls w) u) as [[data|]|msg st] eqn:E; simpl;
    try discriminate.
  intros H. exists u, data. rewrite H.
  apply andb_true_iff in H as [_ Hu].
  eexists. repeat split; auto.
Qed.

Lemma pollLoop_first_completion cfg env taskUrl k :
  forall w remaining attempt,
  k < remaining ->
  completed (observation env taskUrl (polls w + k)) = true ->
  (forall j, j < k ->
     completed (observation env taskUrl (polls w + j)) = false) ->
  exists u data w',
    taskUrl = Some u
    /\ poll env (polls w + k) u = Responded (Some data)
    /\ Js.truthy (url data) = true
    /\ pollLoop cfg env taskUrl attempt remaining w =
         (Return {| img_ok := true; img_status := "done";
                    img_url := Js.default_to (url data) "" |}, w')
    /\ pollCount (trace w') = pollCount (trace w) + k + 1
    /\ polls w' = polls w + k + 1
    /\ clock w' = (clock w + Z.of_nat k * interval cfg)%Z
    /\ sameStorage w w'.
Proof.
  induction k as [|k IH]; intros w remaining attempt Hk Hdone Hnone.
  - destruct remaining as [|r]; [lia|]. rewrite Nat.add_0_r in Hdone.
    destruct (pollAttempt_done cfg env taskUrl attempt w Hdone)
      as (u & data & w' & Hu & Hp & Htr & E & Hpolls & Hclock & Ht & Hs).
    exists u, data, w'. rewrite Nat.add_0_r.
    cbn [pollLoop]. unfold bind. rewrite E.
    split; [exact Hu|]. split; [exact Hp|]. split; [exact Htr|].
    split; [reflexivity|].
    split; [rewrite Ht, pollCount_app; cbn; lia|].
    split; [lia|]. split; [rewrite Hclock; lia|exact Hs].
  - destruct remaining as [|r]; [lia|].
    destruct (pollAttempt_pending cfg env taskUrl attempt w)
      as (w1 & E1 & Hp1 & Hc1 & Ht1 & Hs1).
    { specialize (Hnone 0). rewrite Nat.add_0_r in Hnone. apply Hnone. lia. }
    destruct (IH w1 r (S attempt)) as (u & data & w' & Hu & Hp & Htr & E
                                       & Hcount & Hpolls & Hclock & Hs).
    { lia. }
    { rewrite Hp1. now replace (S (polls w) + k) with (polls w + S k) by lia. }
    { intros j Hj. rewrite Hp1.
      replace (S (polls w) + j) with (polls w + S j) by lia.
      apply Hnone. lia. }
    exists u, data, w'.
    cbn [pollLoop]. unfold bind. rewrite E1, E.
    rewrite Hp1 in Hp, Hpolls.
    replace (S (polls w) + k) with (polls w + S k) in Hp by lia.
    split; [exact Hu|]. split; [exact Hp|]. split; [exact Htr|].
    split; [reflexivity|].
    split; [rewrite Hcount, Ht1, pollCount_app; cbn; lia|].
    split; [lia|]. split; [rewrite Hclock, Hc1; lia|].
    eapply sameStorage_trans; eauto.
Qed.

Lemma pollLoop_no_completion cfg env taskUrl remaining :
  forall w attempt,
  (forall k, k < remaining ->
     completed (observation env taskUrl (polls w + k)) = false) ->
  exists w',
    pollLoop cfg env taskUrl attempt remaining w = (Throw GenerationTimeout, w')
    /\ polls w' = polls w + remaining
    /\ clock w' = (clock w + Z.of_nat remaining * interval cfg)%Z
    /\ sameStorage w w'.
Proof.
  induction remaining as [|r IH]; intros w attempt Hnone.
  - exists w. cbn. rewrite Nat.add_0_r.
    split; [reflexivity|]. split; [reflexivity|]. split; [lia|].
    apply sameStorage_refl.
  - destruct (pollAttempt_pending cfg env taskUrl attempt w)
      as (w1 & E1 & Hp1 & Hc1 & Ht1 & Hs1).
    { specialize (Hnone 0). rewrite Nat.add_0_r in Hnone. apply Hnone. lia. }
    destruct (IH w1 (S attempt)) as (w' & E & Hpolls & Hclock & Hs).
    { intros j Hj. rewrite Hp1.
      replace (S (polls w) + j) with (polls w + S j) by lia.
      apply Hnone. lia. }
    exists w'. cbn [pollLoop]. unfold bind. rewrite E1, E.
    split; [reflexivity|]. split; [lia|]. split; [lia|].
    eapply sameStorage_trans; eauto.
Qed.

(** X1: when the first completed observation of a run is the one of
    attempt [k] (counted from 0, within the budget), the call returns the
    URL of that observation after exactly [k + 1] status requests and [k]
    sleeps of [interval] milliseconds, whatever the earlier attempts
    observed (pending states, explicit failures, rejected requests, empty
    bodies); it touches no file, bucket object or table row. *)
Theorem X1_poll_returns_at_first_completion
    (cfg : PollConfig) (env : Env) (taskUrl : option string) (w : World)
    (k : nat) :
  k < maxAttempts cfg ->
  completed (observation env taskUrl (polls w + k)) = true ->
  (forall j, j < k ->
     completed (observation env taskUrl (polls w + j)) = false) ->
  exists u data w',
    taskUrl = Some u
    /\ poll env (polls w + k) u = Responded (Some data)
    /\ Js.truthy (url data) = true
    /\ pollTaskCompletionWith cfg env taskUrl w =
         (Return {| img_ok := true; img_status := "done";
                    img_url := Js.default_to (url data) "" |}, w')
    /\ pollCount (trace w') = pollCount (trace w) + k + 1
    /\ polls w' = polls w + k + 1
    /\ clock w' = (clock w + Z.of_nat k * interval cfg)%Z
    /\ sameStorage w w'.
Proof.
  intros Hk Hdone Hnone. unfold pollTaskCompletionWith.
  now apply pollLoop_first_completion.
Qed.

(** The configured loop against an upstream that is done at once. *)
Lemma X1_witness_done_at_once :
  exists w',
    pollTaskCompletion (steadyEnv doneTask) (Some "https://up/task/1")
      emptyWorld
      = (Return {| img_ok := true; img_status := "done";
                   img_url := "https://up/img.png" |}, w')
    /\ pollCount (trace w') = 1
    /\ clock w' = 0%Z.
Proof.
  assert (Hk : 0 < maxAttempts POLL_CONFIG) by (cbn; lia).
  destruct (X1_poll_returns_at_first_completion POLL_CONFIG
              (steadyEnv doneTask) (Some "https://up/task/1") emptyWorld 0
              Hk eq_refl)
    as (u & data & w' & Hu & Hp & _ & E & Hc & _ & Hclock & _).
  { intros j Hj. lia. }
  injection Hp as <-. exists w'. split; [exact E|]. split; [exact Hc|].
  exact Hclock.
Defined.

(** X2: a run of the poll loop in which no attempt observes a completed
    task sleeps [interval] milliseconds after every one of its
    [maxAttempts] status requests before it throws the timeout: with the
    configured values the caller waits 60 x 10000 ms.  The run touches no
    file, bucket object or table row. *)
Theorem X2_poll_timeout_waits_full_budget
    (cfg : PollConfig) (env : Env) (taskUrl : option string) (w : World) :
  (forall k, k < maxAttempts cfg ->
     completed (observation env taskUrl (polls w + k)) = false) ->
  exists w',
    pollTaskCompletionWith cfg env taskUrl w = (Throw GenerationTimeout, w')
    /\ polls w' = polls w + maxAttempts cfg
    /\ clock w' = (clock w + Z.of_nat (maxAttempts cfg) * interval cfg)%Z
    /\ sameStorage w w'.
Proof.
  intros Hnone. unfold pollTaskCompletionWith.
  now apply pollLoop_no_completion.
Qed.

(** Ten minutes against an upstream that stays pending. *)
Lemma X2_witness_ten_minutes :
  exists w',
    pollTaskCompletion (steadyEnv pendingTask) (Some "https://up/task/1")
      emptyWorld = (Throw GenerationTimeout, w')
    /\ clock w' = 600000%Z.
Proof.
  destruct (X2_poll_timeout_waits_full_budget POLL_CONFIG
              (steadyEnv pendingTask) (Some "https://up/task/1") emptyWorld)
    as (w' & E & _ & Hclock & _).
  { intros k _. reflexivity. }
  exists w'. split; [exact E|exact Hclock].
Defined.

(** ** Further properties of materialization *)

Lemma prefix_append_nested a b c :
  String.prefix (a +:+ b) (a +:+ (b +:+ c)) = true.
Proof.
  induction a as [|x a IH].
  { change (String.prefix b (b +:+ c) = true). apply prefix_append. }
  change (String.prefix (String x (a +:+ b)) (String x (a +:+ (b +:+ c)))
          = true).
  cbn [String.prefix].
  destruct (Ascii.ascii_dec x x); [exact IH|congruence].
Qed.

(** X3: [uploadToStorage] ends in one of two ways.  Either it returns the
    signed URL minted for the object it stored, in which case the bucket
    holds the downloaded bytes under a path that starts with the key id,
    the temp file is gone and nothing was written to the console; or it
    returns the source URL it was given and has written exactly one
    console line that carries the error that made it fall back. *)
Theorem X3_uploadToStorage_signed_object_or_logged_fallback
    (env : Env) (sourceUrl : string) (keyId : option string)
    (prompt model : string) (w : World) :
  exists v w',
    uploadToStorage env sourceUrl keyId prompt model w = (Return v, w')
    /\ ((exists body,
           download env (downloads w) sourceUrl = Responded body
           /\ storage_sign env (storagePathOf env w keyId sourceUrl) 120
              = Data v
           /\ bucket w' !! storagePathOf env w keyId sourceUrl = Some body
           /\ Js.startsWith (storagePathOf env w keyId sourceUrl)
                (show_key keyId +:+ "/") = true
           /\ files w' !! uploadTempFile env (uuids w) sourceUrl = None
           /\ console w' = console w)
        \/ (exists e,
              v = sourceUrl
              /\ console w' = console w ++ [ErrorUploadingToStorage e])).
Proof.
  assert (Hpre : Js.startsWith (storagePathOf env w keyId sourceUrl)
                   (show_key keyId +:+ "/") = true).
  { unfold Js.startsWith, storagePathOf. apply prefix_append_nested. }
  revert Hpre.
  unfold uploadToStorage, try_catch, uploadToStorage_try, storagePathOf,
    uploadTempFile, ensureTempDir, next_uuid, axios_download, pipe_to_file,
    readFileSync, storage_put, createSignedUrl, emit, await_supa, now,
    images_insert, unlinkSync, console_error, ret, throw, set_files, bind.
  intros Hpre.
  repeat (case_match; simplify_eq/=; try done).
  all: eexists _, _; (split; [reflexivity|]); cbn.
  all: first
    [ right; eexists; split; reflexivity
    | left; eexists; repeat split; eauto; simplify_map_eq; done ].
Qed.

(** X4: [imageToBase64] either returns the base64 text of exactly the
    bytes it downloaded, with its temp file removed and a silent console,
    or throws the one 500 [image_processing_failed] error, whatever went
    wrong underneath, after logging the cause once. *)
Theorem X4_imageToBase64_encodes_download_or_fails_uniformly
    (env : Env) (sourceUrl : string) (w : World) :
  exists w',
    (exists body,
       imageToBase64 env sourceUrl w = (Return (toBase64 env body), w')
       /\ download env (downloads w) sourceUrl = Responded body
       /\ files w' !! base64TempFile env (uuids w) = None
       /\ console w' = console w)
    \/ (exists e,
          imageToBase64 env sourceUrl w = (Throw ImageProcessingFailed, w')
          /\ statusOf ImageProcessingFailed = 500%Z
          /\ console w' = console w ++ [ErrorConvertingToBase64 e]).
Proof.
  unfold imageToBase64, try_catch, base64TempFile, ensureTempDir, next_uuid,
    axios_download, pipe_to_file, readFileSync, unlinkSync, console_error,
    ret, throw, set_files, bind.
  repeat (case_match; simplify_eq/=; try done).
  all: eexists.
  all: first
    [ right; eexists; repeat split; reflexivity
    | left; eexists; repeat split; eauto; simplify_map_eq; done ].
Qed.

(** ** Further properties of generateImage *)

(** The [catch] block changes the console and [request_logs] only, and
    what it throws depends on the caught error alone. *)
Lemma generateImage_catch_effect env params error w :
  exists w',
    generateImage_catch env params error w = (Throw (surfacedError error), w')
    /\ trace w' = trace w
    /\ polls w' = polls w
    /\ clock w' = clock w
    /\ downloads w' = downloads w
    /\ uuids w' = uuids w
    /\ dirs w' = dirs w
    /\ files w' = files w
    /\ bucket w' = bucket w
    /\ images w' = images w
    /\ request_logs w' =
         if Js.truthy (keyId params) then
           match insert_request_log env (errorRow params error (clock w)) with
           | Data _ => request_logs w ++ [errorRow params error (clock w)]
           | _ => request_logs w
           end
         else request_logs w.
Proof.
  unfold generateImage_catch, try_catch, bind, request_logs_insert, now,
    console_error, ret, throw.
  destruct (Js.truthy (keyId params)).
  - destruct (insert_request_log env (errorRow params error (clock w)))
      as [[]|msg|msg]; destruct error; eexists;
        (split; [reflexivity|]); simpl; repeat split.
  - destruct error; eexists; (split; [reflexivity|]); simpl; repeat split.
Qed.

(** X5: what [generateImage] hands to its caller is decided by its [try]
    block alone: the response the block returned, or the error it threw,
    an [ApiError] unchanged and anything else wrapped in a
    [generation_error] [ApiError] that carries the upstream HTTP status or
    500.  Whether the error row could be written never changes it, and
    [generateImage] never throws anything but an [ApiError]. *)
Theorem X5_generateImage_result_is_that_of_its_try_block
    (env : Env) (params : Params) (w : World) :
  fst (generateImage env params w) =
    match fst (generateImage_try env params w) with
    | Return resp => Return resp
    | Throw e => Throw (surfacedError e)
    end
  /\ match fst (generateImage env params w) with
     | Return _ => True
     | Throw e => exists msg st ty p c, e = ApiError msg st ty p c
     end.
Proof.
  assert (H : fst (generateImage env params w) =
              match fst (generateImage_try env params w) with
              | Return resp => Return resp
              | Throw e => Throw (surfacedError e)
              end).
  { unfold generateImage, try_catch.
    destruct (generateImage_try env params w) as [[resp|e] w1];
      [reflexivity|].
    destruct (generateImage_catch_effect env params e w1) as (w' & E & _).
    now rewrite E. }
  split; [exact H|].
  rewrite H.
  destruct (fst (generateImage_try env params w)) as [resp|e0];
    [exact I|].
  destruct e0; cbn; eauto 10.
Qed.

(** The [try] block of a request that resolves is the job submission
    followed by [afterSubmit]. *)
Lemma generateImage_try_resolved env params provider m w :
  resolves params provider m ->
  exists apiUrl,
    Js.startsWith apiUrl
      (API_BASE_URL env +:+ endpoint provider +:+ "?text="
         +:+ encodeURIComponent env (Js.default_to (prompt params) ""))
      = true
    /\ generateImage_try env params w =
         bind (axios_get_job env apiUrl)
           (afterSubmit env params (endpoint provider)
              (Js.default_to (prompt params) "") m) w.
Proof.
  intros (Hp & Hm & pname & Hname & Hne & Hprov).
  unfold generateImage_try.
  rewrite Hp, Hm, Hname. cbn [negb Js.is_truthy Js.to_string].
  apply String.eqb_neq in Hne. rewrite Hne, Hprov. cbn [negb].
  destruct (String.eqb pname "flux").
  - unfold fluxSuffix.
    destruct (Js.startsWith m "flux"); eexists;
      (split; [apply prefix_append|reflexivity]).
  - eexists. split; [apply prefix_refl|reflexivity].
Qed.

Lemma axios_get_job_effect env apiUrl w :
  exists w1,
    axios_get_job env apiUrl w =
      (match submit env apiUrl with
       | Responded body => Return body
       | Rejected msg st => Throw (PlainError msg st (Some apiUrl))
       end, w1)
    /\ trace w1 = trace w ++ [EvSubmit apiUrl]
    /\ polls w1 = polls w
    /\ clock w1 = clock w
    /\ sameStorage w w1.
Proof.
  unfold axios_get_job, bind, emit, ret, throw.
  destruct (submit env apiUrl); eexists; (split; [reflexivity|]);
    repeat split.
Qed.

(** A canonical model or an alias, with a truthy prompt, resolves. *)
Lemma supported_resolves params :
  Js.truthy (prompt params) = true ->
  (model params = None
   \/ (exists x, model params = Some x
                 /\ (Js.mem x SUPPORTED_MODELS = true
                     \/ exists c, Js.assoc OPENAI_MODEL_MAP x = Some c))) ->
  exists provider m, resolves params provider m.
Proof.
  intros Hp [Hnone|(x & Hx & [Hsup|(c & Hal)])]; unfold resolves;
    rewrite Hp.
  - rewrite Hnone. do 2 eexists. split; [reflexivity|].
    split; [reflexivity|]. eexists. split; [reflexivity|].
    split; [discriminate|reflexivity].
  - rewrite Hx. apply mem_In in Hsup. unfold SUPPORTED_MODELS in Hsup.
    cbn [In] in Hsup.
    repeat (destruct Hsup as [<-|Hsup];
            [do 2 eexists; split; [reflexivity|];
             split; [reflexivity|]; eexists; split; [reflexivity|];
             split; [discriminate|reflexivity]|]).
    contradiction.
  - rewrite Hx. apply assoc_In in Hal. unfold OPENAI_MODEL_MAP in Hal.
    cbn [In] in Hal.
    repeat (destruct Hal as [[= <- <-]|Hal];
            [do 2 eexists; split; [reflexivity|];
             split; [reflexivity|]; eexists; split; [reflexivity|];
             split; [discriminate|reflexivity]|]).
    contradiction.
Qed.

(** X6: when the upstream answers the job submission of a request that
    resolves with [ok] false, [generateImage] throws the 400
    [generation_failed] error with the upstream's message (or the default
    text), after that one submission: no status request is sent, nothing
    is downloaded or stored, and the only row written is the error row of
    the [catch] block. *)
Theorem X6_refused_submission_fails_fast
    (env : Env) (params : Params) (provider : Provider) (m : string)
    (job : JobData) (w : World) :
  resolves params provider m ->
  (forall apiUrl, submit env apiUrl = Responded (Some job)) ->
  job_ok job = false ->
  exists apiUrl w',
    generateImage env params w =
      (Throw (ApiError
                (Js.or_else (job_message job)
                   "Failed to start image generation")
                400 "api_error" None (Some "generation_failed")), w')
    /\ trace w' = trace w ++ [EvSubmit apiUrl]
    /\ polls w' = polls w
    /\ downloads w' = downloads w
    /\ files w' = files w
    /\ bucket w' = bucket w
    /\ images w' = images w.
Proof.
  intros Hres Hsub Hok.
  destruct (generateImage_try_resolved env params provider m w Hres)
    as (apiUrl & _ & Etry).
  destruct (axios_get_job_effect env apiUrl w)
    as (w1 & E1 & Ht1 & Hp1 & Hc1 & Hs1).
  rewrite Hsub in E1.
  unfold generateImage, try_catch. rewrite Etry. unfold bind at 1.
  rewrite E1. cbn [afterSubmit]. rewrite Hok. cbn [negb]. unfold throw.
  match goal with
  | |- context [generateImage_catch env params ?e w1] =>
      destruct (generateImage_catch_effect env params e w1)
        as (w' & E & Ht & Hp & _ & Hd & _ & _ & Hf & Hb & Hi & _)
  end.
  rewrite E. cbn [surfacedError].
  destruct Hs1 as (Hd1 & _ & _ & Hf1 & Hb1 & _ & Hi1).
  exists apiUrl, w'. repeat split; congruence.
Qed.

(** A refused job: one submission, then the 400 error. *)
Lemma X6_witness_content_policy :
  exists apiUrl w',
    generateImage refusingEnv (catParams 1 None) emptyWorld =
      (Throw (ApiError "content policy" 400 "api_error" None
                (Some "generation_failed")), w')
    /\ trace w' = [EvSubmit apiUrl]
    /\ polls w' = 0.
Proof.
  assert (Hres : resolves (catParams 1 None)
                   {| endpoint := "/ai-image/dalle"; models := ["dalle"] |}
                   "dalle").
  { split; [reflexivity|]. split; [reflexivity|].
    exists "dalle". split; [reflexivity|]. split; [discriminate|reflexivity]. }
  destruct (X6_refused_submission_fails_fast refusingEnv (catParams 1 None)
              _ _ _ emptyWorld Hres (fun _ => eq_refl) eq_refl)
    as (apiUrl & w' & E & Ht & Hp & _).
  exists apiUrl, w'. split; [exact E|]. split; [exact Ht|exact Hp].
Defined.

(** X7: when the upstream accepts the job of a request that resolves and
    no status request of the budget observes a completed task,
    [generateImage] throws the 408 generation timeout itself (not a
    wrapped error), after one submission, [maxAttempts] status requests
    and as many sleeps; nothing is downloaded or stored. *)
Theorem X7_timeout_reaches_the_caller_unchanged
    (env : Env) (params : Params) (provider : Provider) (m : string)
    (job : JobData) (w : World) :
  resolves params provider m ->
  (forall apiUrl, submit env apiUrl = Responded (Some job)) ->
  job_ok job = true ->
  (forall k, k < maxAttempts POLL_CONFIG ->
     completed (observation env (job_task_url job) (polls w + k)) = false) ->
  exists w',
    generateImage env params w = (Throw GenerationTimeout, w')
    /\ statusOf GenerationTimeout = 408%Z
    /\ submitCount (trace w') = submitCount (trace w) + 1
    /\ polls w' = polls w + maxAttempts POLL_CONFIG
    /\ clock w' =
         (clock w + Z.of_nat (maxAttempts POLL_CONFIG) * interval POLL_CONFIG)%Z
    /\ downloads w' = downloads w
    /\ files w' = files w
    /\ bucket w' = bucket w
    /\ images w' = images w.
Proof.
  intros Hres Hsub Hok Hnone.
  destruct (generateImage_try_resolved env params provider m w Hres)
    as (apiUrl & _ & Etry).
  destruct (axios_get_job_effect env apiUrl w)
    as (w1 & E1 & Ht1 & Hp1 & Hc1 & Hs1).
  rewrite Hsub in E1.
  destruct (pollLoop_no_completion POLL_CONFIG env (job_task_url job)
              (maxAttempts POLL_CONFIG) w1 0)
    as (w2 & E2 & Hp2 & Hc2 & Hs2).
  { intros k Hk. rewrite Hp1. now apply Hnone. }
  destruct (pollLoop_exhausts POLL_CONFIG env (job_task_url job)
              (maxAttempts POLL_CONFIG) 0 w1)
    as (w2' & d & E2' & Ht2 & Fd & _).
  { intros k Hk. rewrite Hp1. now apply Hnone. }
  rewrite E2 in E2'. injection E2' as <-.
  unfold generateImage, try_catch. rewrite Etry. unfold bind at 1.
  rewrite E1. cbn [afterSubmit]. rewrite Hok. cbn [negb].
  unfold bind at 1. unfold pollTaskCompletion, pollTaskCompletionWith.
  rewrite E2.
  destruct (generateImage_catch_effect env params GenerationTimeout w2)
    as (w' & E & Ht & Hp & Hc & Hd & _ & _ & Hf & Hb & Hi & _).
  rewrite E. cbn [surfacedError].
  destruct Hs1 as (Hd1 & _ & _ & Hf1 & Hb1 & _ & Hi1).
  destruct Hs2 as (Hd2 & _ & _ & Hf2 & Hb2 & _ & Hi2).
  exists w'. split; [reflexivity|]. split; [reflexivity|].
  split.
  { rewrite Ht, Ht2, Ht1, !submitCount_app.
    rewrite (pollLoopEvent_submitCount _ _ d Fd).
    change (submitCount [EvSubmit apiUrl]) with 1. lia. }
  repeat split; congruence.
Qed.

(** A job that stays pending: the timeout after 60 status requests. *)
Lemma X7_witness_pending_job :
  exists w',
    generateImage (steadyEnv pendingTask) (catParams 1 None) emptyWorld
      = (Throw GenerationTimeout, w')
    /\ polls w' = 60
    /\ downloads w' = 0.
Proof.
  assert (Hres : resolves (catParams 1 None)
                   {| endpoint := "/ai-image/dalle"; models := ["dalle"] |}
                   "dalle").
  { split; [reflexivity|]. split; [reflexivity|].
    exists "dalle". split; [reflexivity|]. split; [discriminate|reflexivity]. }
  destruct (X7_timeout_reaches_the_caller_unchanged (steadyEnv pendingTask)
              (catParams 1 None) _ _ _ emptyWorld Hres (fun _ => eq_refl)
              eq_refl)
    as (w' & E & _ & _ & Hp & _ & Hd & _).
  { intros k _. reflexivity. }
  exists w'. split; [exact E|]. split; [exact Hp|exact Hd].
Defined.

(** The success row never stops the request: the insert is awaited inside
    its own [try]. *)
Lemma logSuccess_returns env params endpoint prompt actualModel w :
  exists w',
    logSuccess env params endpoint prompt actualModel w = (Return tt, w')
    /\ clock w' = clock w
    /\ trace w' = trace w.
Proof.
  unfold logSuccess, try_catch, bind, now, request_logs_insert,
    console_error, ret.
  destruct (insert_request_log env _) as [[]|msg|msg];
    eexists; (split; [reflexivity|]); split; reflexivity.
Qed.

(** X8: once the upstream has accepted the job of a request that resolves
    and a status request within the budget observes the completed task, a
    request in [url] format with an image count the array constructor
    accepts always gets its response, whatever the download, the bucket,
    the signing, the [images] insert and the [request_logs] insert do:
    [data] is that many copies of one URL, the signed URL or else the
    upstream's own. *)
Theorem X8_url_format_survives_storage_and_log_failures
    (env : Env) (params : Params) (provider : Provider) (m : string)
    (job : JobData) (w : World) (k : nat) :
  resolves params provider m ->
  (forall apiUrl, submit env apiUrl = Responded (Some job)) ->
  job_ok job = true ->
  k < maxAttempts POLL_CONFIG ->
  completed (observation env (job_task_url job) (polls w + k)) = true ->
  (forall j, j < k ->
     completed (observation env (job_task_url job) (polls w + j)) = false) ->
  String.eqb (Js.default_to (response_format params) "url") "b64_json"
    = false ->
  (0 <= countOf params <= 4294967295)%Z ->
  exists resp w' v upstreamUrl,
    generateImage env params w = (Return resp, w')
    /\ creator resp = "featherops"
    /\ data resp = repeat (UrlEntry v) (Z.to_nat (countOf params))
    /\ (exists u data,
          job_task_url job = Some u
          /\ poll env (polls w + k) u = Responded (Some data)
          /\ url data = Some upstreamUrl)
    /\ (v = upstreamUrl
        \/ exists path, storage_sign env path 120 = Data v).
Proof.
  intros Hres Hsub Hok Hk Hdone Hnone Hfmt Hcount.
  destruct (generateImage_try_resolved env params provider m w Hres)
    as (apiUrl & _ & Etry).
  destruct (axios_get_job_effect env apiUrl w)
    as (w1 & E1 & Ht1 & Hp1 & Hc1 & Hs1).
  rewrite Hsub in E1.
  destruct (pollLoop_first_completion POLL_CONFIG env (job_task_url job) k
              w1 (maxAttempts POLL_CONFIG) 0 Hk)
    as (u & tdata & w2 & Hu & Hpoll & Htruthy & E2 & _).
  { now rewrite Hp1. }
  { intros j Hj. rewrite Hp1. now apply Hnone. }
  rewrite Hp1 in Hpoll.
  destruct (url tdata) as [upstreamUrl|] eqn:Hurl; [|discriminate].
  cbn [Js.default_to] in E2.
  destruct (uploadToStorage_returns env upstreamUrl (keyId params)
              (Js.default_to (prompt params) "") m w2)
    as (v & w3 & E3 & Hv).
  destruct (logSuccess_returns env params (endpoint provider)
              (Js.default_to (prompt params) "") m w3)
    as (w4 & E4 & _).
  exists {| creator := "featherops"; created := (clock w4 / 1000)%Z;
            data := repeat (UrlEntry v) (Z.to_nat (countOf params)) |},
    w4, v, upstreamUrl.
  split.
  { unfold generateImage, try_catch. rewrite Etry. unfold bind at 1.
    rewrite E1. cbn [afterSubmit]. rewrite Hok. cbn [negb].
    unfold bind at 1. unfold pollTaskCompletion, pollTaskCompletionWith.
    rewrite E2. cbn [img_url]. unfold bind at 1. rewrite E3.
    unfold bind at 1. rewrite E4.
    unfold respondWith, bind, now, array_fill, ret. rewrite Hfmt.
    destruct (Z.ltb_spec (countOf params) 0); [lia|].
    destruct (Z.ltb_spec 4294967295 (countOf params)); [lia|].
    reflexivity. }
  split; [reflexivity|]. split; [reflexivity|].
  split; [exists u, tdata; auto|].
  destruct Hv as [->|Htry]; [now left|right].
  apply uploadToStorage_try_Return in Htry as (_ & _ & _ & Hsign & _).
  eauto.
Qed.

(** Two images from an upstream that is done at once, with a bucket that
    refuses uploads: the response carries the upstream URL twice. *)
Lemma X8_witness_bucket_down :
  exists resp w',
    generateImage (withUploadRefused (steadyEnv doneTask)) (catParams 2 None)
      emptyWorld = (Return resp, w')
    /\ data resp = repeat (UrlEntry "https://up/img.png") 2.
Proof.
  assert (Hres : resolves (catParams 2 None)
                   {| endpoint := "/ai-image/dalle"; models := ["dalle"] |}
                   "dalle").
  { split; [reflexivity|]. split; [reflexivity|].
    exists "dalle". split; [reflexivity|]. split; [discriminate|reflexivity]. }
  assert (Hk : 0 < maxAttempts POLL_CONFIG) by (cbn; lia).
  assert (Hcount : (0 <= countOf (catParams 2 None) <= 4294967295)%Z)
    by (cbn; lia).
  destruct (X8_url_format_survives_storage_and_log_failures
              (withUploadRefused (steadyEnv doneTask)) (catParams 2 None)
              _ _ _ emptyWorld 0 Hres (fun _ => eq_refl) eq_refl Hk eq_refl)
    as (resp & w' & v & up & E & _ & Hdata & _);
    [intros j Hj; lia|reflexivity|exact Hcount|].
  exists resp, w'. split; [exact E|].
  pose proof (f_equal fst E) as H. cbn [fst] in H. vm_compute in H.
  now injection H as <-.
Defined.

(** Every model routed to the flux provider has a name that starts with
    [flux], so the branch of [fluxSuffix] that reads the size is never
    taken. *)
Lemma flux_models_start_with_flux actualModel s1 s2 :
  String.eqb (Js.to_string (providerNameOf actualModel)) "flux" = true ->
  fluxSuffix actualModel s1 = fluxSuffix actualModel s2.
Proof.
  destruct actualModel as [|m|x]; try reflexivity.
  unfold providerNameOf, Js.get. cbn [Js.to_string].
  destruct (Js.assoc MODEL_PROVIDERS m) as [v|] eqn:Ha.
  - cbn [Js.to_string]. intros Hv. apply String.eqb_eq in Hv. subst v.
    apply assoc_In in Ha. unfold MODEL_PROVIDERS in Ha. cbn [In] in Ha.
    repeat (destruct Ha as [Ha|Ha];
            [injection Ha as <-; try discriminate; reflexivity|]).
    contradiction.
  - destruct (Js.mem m Js.objectPrototypeMembers) eqn:Hp.
    + apply mem_In in Hp. cbn [Js.objectPrototypeMembers In] in Hp.
      repeat (destruct Hp as [<-|Hp]; [intros H; vm_compute in H;
                                       discriminate H|]).
      contradiction.
    + intros H. vm_compute in H. discriminate H.
Qed.

(** X9: the [size] of a request has no effect on [generateImage]: the
    same upstream calls, the same rows, the same response or error,
    whatever size is asked for.  (The only reader of the size is the branch
    of the flux model choice for a model whose name does not start with
    [flux], and every model of the flux provider does.) *)
Theorem X9_size_has_no_effect
    (env : Env) (params : Params) (s : option string) (w : World) :
  generateImage env (withSize s params) w = generateImage env params w.
Proof.
  unfold generateImage, try_catch.
  assert (Htry : generateImage_try env (withSize s params) w
                 = generateImage_try env params w).
  { unfold generateImage_try.
    cbn [prompt n size model response_format keyId withSize].
    destruct (negb (Js.truthy (prompt params))); [reflexivity|].
    destruct (negb (Js.is_truthy _)); [reflexivity|].
    destruct (provider_of PROVIDERS _) as [provider|]; [|reflexivity].
    destruct (String.eqb (Js.to_string _) "flux") eqn:Hflux; [|reflexivity].
    now rewrite (flux_models_start_with_flux _
                   (Js.default_to s "1024x1024")
                   (Js.default_to (size params) "1024x1024") Hflux). }
  rewrite Htry. reflexivity.
Qed.

(** ** formatImageResponse *)

(** X10: [formatImageResponse] keeps the number and the order of the
    strings it is given: the payloads of [data] are the input list; every
    entry is a [b64_json] entry when the format is exactly ['b64_json']
    and a [url] entry for any other format or none. *)
Theorem X10_formatImageResponse_keeps_its_input
    (nowMs : Z) (imageUrls : list string) (responseFormat : option string) :
  List.map payload (data (formatImageResponse nowMs imageUrls responseFormat))
    = imageUrls
  /\ length (data (formatImageResponse nowMs imageUrls responseFormat))
     = length imageUrls
  /\ Forall
       (fun e =>
          if String.eqb (Js.default_to responseFormat "url") "b64_json"
          then exists b, e = B64Entry b
          else exists u, e = UrlEntry u)
       (data (formatImageResponse nowMs imageUrls responseFormat)).
Proof.
  unfold formatImageResponse. cbn [data].
  destruct (String.eqb (Js.default_to responseFormat "url") "b64_json").
  - split; [|split].
    + rewrite List.map_map. cbn. apply List.map_id.
    + apply length_map.
    + apply Forall_forall. intros e He. apply list_elem_of_In in He.
      apply in_map_iff in He as (x & <- & _). eauto.
  - split; [|split].
    + rewrite List.map_map. cbn. apply List.map_id.
    + apply length_map.
    + apply Forall_forall. intros e He. apply list_elem_of_In in He.
      apply in_map_iff in He as (x & <- & _). eauto.
Qed.

Lemma map_repeat {A B} (f : A -> B) x k :
  List.map f (repeat x k) = repeat (f x) k.
Proof. induction k as [|k IH]; [reflexivity|]. cbn. now rewrite IH. Qed.

Lemma generateImage_response_format env params w w' resp :
  generateImage env params w = (Return resp, w') ->
  exists artifact t,
    resp = formatImageResponse t
             (repeat artifact (Z.to_nat (countOf params)))
             (response_format params).
Proof.
  intros H. apply generateImage_Return in H.
  unfold generateImage_try in H.
  destruct (negb (Js.truthy (prompt params))); [discriminate|].
  destruct (negb (Js.is_truthy _)); [discriminate|].
  destruct (provider_of PROVIDERS _) as [provider|]; [|discriminate].
  apply bind_Return in H as (apiUrl & w1 & _ & H).
  apply bind_Return in H as (jobResponse & w2 & _ & H).
  destruct jobResponse as [job|]; [|discriminate].
  destruct (negb (job_ok job)); [discriminate|].
  apply bind_Return in H as (image & w3 & _ & H).
  apply bind_Return in H as (imageUrl & w4 & _ & H).
  apply bind_Return in H as ([] & w5 & _ & H).
  apply bind_Return in H as (t & w6 & _ & H).
  unfold formatImageResponse, countOf.
  destruct (String.eqb _ "b64_json").
  - apply bind_Return in H as (imageBase64 & w7 & _ & H).
    apply bind_Return in H as (entries & w8 & Hfill & H).
    injection H as <- <-.
    apply array_fill_Return in Hfill as [-> ->].
    exists imageBase64, t. now rewrite map_repeat.
  - apply bind_Return in H as (entries & w8 & Hfill & H).
    injection H as <- <-.
    apply array_fill_Return in Hfill as [-> ->].
    exists imageUrl, t. now rewrite map_repeat.
Qed.



(** ** GET /models against POST /generations *)

Lemma getModels_ids nowMs :
  List.map me_id (mr_data (getModels nowMs))
    = SUPPORTED_MODELS ++ List.map fst OPENAI_MODEL_MAP.
Proof. reflexivity. Qed.

(** X12: the model ids [GET /models] lists are exactly the names
    [generateImage] resolves to a provider, each listed once; a native
    entry names the provider the model is routed to, and an alias entry is
    a key of [OPENAI_MODEL_MAP]. *)
Theorem X12_listed_models_are_the_routable_ones (nowMs : Z) :
  (forall m,
     In m (List.map me_id (mr_data (getModels nowMs)))
     <-> Js.is_truthy (providerNameOf (actualModelOf m)) = true)
  /\ NoDup (List.map me_id (mr_data (getModels nowMs)))
  /\ Forall
       (fun e =>
          if String.eqb (me_provider e) "openai-compatible" then
            exists c, Js.assoc OPENAI_MODEL_MAP (me_id e) = Some c
          else
            providerNameOf (actualModelOf (me_id e))
              = Js.Str (me_provider e)
            /\ exists provider,
                 provider_of PROVIDERS (me_provider e) = Some provider
                 /\ In (me_id e) (models provider))
       (mr_data (getModels nowMs)).
Proof.
  split; [|split].
  - intros m. rewrite getModels_ids. split.
    + intros Hin. cbn [SUPPORTED_MODELS OPENAI_MODEL_MAP List.map fst app In]
        in Hin.
      repeat (destruct Hin as [<-|Hin]; [reflexivity|]). contradiction.
    + intros Hres. apply in_or_app.
      destruct (Js.mem m SUPPORTED_MODELS) eqn:Hm;
        [left; now apply mem_In|].
      destruct (Js.assoc OPENAI_MODEL_MAP m) as [c|] eqn:Ha.
      * right. apply assoc_In in Ha.
        apply (in_map fst) in Ha. exact Ha.
      * rewrite (unsupported_has_no_provider m (conj Hm Ha)) in Hres.
        discriminate.
  - rewrite getModels_ids. apply NoDup_ListNoDup.
    cbn [SUPPORTED_MODELS OPENAI_MODEL_MAP List.map fst app].
    repeat (constructor; [cbn [In]; intros H;
                          repeat (destruct H as [H|H]; [discriminate H|]);
                          contradiction|]).
    constructor.
  - cbn. repeat (apply Forall_cons; split;
                 [cbn; first [eexists; reflexivity
                             |split; [reflexivity|];
                              eexists; split; [reflexivity|]; cbn; auto 10]|]).
    constructor.
Qed.

(** X13: a 200 answer of [POST /generations] carries as many [data]
    entries as [parseInt] reads from the body's [n], a number from 1 to
    10, or 1 when [n] is absent or falsy; and the handler calls
    [generateImage] with that count, the body's other fields as they came
    and the id of the authenticated key. *)
Theorem X13_route_returns_the_requested_count
    (env : Env) (body : Body) (apiKeyId : string) (w w' : World)
    (resp : GenerationResponse) :
  postGenerations env body apiKeyId w = (Return resp, w') ->
  exists k,
    numImagesOf (b_n body) = Some k
    /\ (1 <= k <= 10)%Z
    /\ length (data resp) = Z.to_nat k
    /\ generateImage env
         {| prompt := b_prompt body; n := Some k; size := b_size body;
            model := b_model body;
            response_format := b_response_format body;
            keyId := Some apiKeyId |} w = (Return resp, w').
Proof.
  unfold postGenerations, validate.
  destruct (negb (Js.truthy (b_prompt body))); [discriminate|].
  destruct (numImagesOf (b_n body)) as [k|]; [|discriminate].
  destruct (Z.ltb_spec k 1); [discriminate|].
  destruct (Z.ltb_spec 10 k); [discriminate|]. cbn [orb].
  destruct (_ && _); [discriminate|].
  destruct (_ && _); [discriminate|].
  destruct (_ && _ && _); [discriminate|].
  intros Hgen. exists k. split; [reflexivity|]. split; [lia|].
  split; [|exact Hgen].
  apply generateImage_response_format in Hgen as (artifact & t & ->).
  unfold formatImageResponse. cbn [data countOf n].
  now rewrite length_map, repeat_length.
Qed.

(** The number 1e21, whose text is [1e+21]: [parseInt] reads 1, and the
    answer has one entry. *)
Lemma X13_witness_exponent_text :
  exists resp w',
    postGenerations (steadyEnv doneTask)
      {| b_prompt := Some "a cat"; b_n := NText "1e+21"; b_size := None;
         b_response_format := None; b_model := None |} "key-1" emptyWorld
      = (Return resp, w')
    /\ length (data resp) = 1.
Proof.
  destruct (postGenerations (steadyEnv doneTask)
      {| b_prompt := Some "a cat"; b_n := NText "1e+21"; b_size := None;
         b_response_format := None; b_model := None |} "key-1" emptyWorld)
    as [r w'] eqn:E.
  assert (Hr : r = fst (postGenerations (steadyEnv doneTask)
      {| b_prompt := Some "a cat"; b_n := NText "1e+21"; b_size := None;
         b_response_format := None; b_model := None |} "key-1" emptyWorld))
    by now rewrite E.
  vm_compute in Hr.
  match type of Hr with _ = Return ?x => exists x, w' end.
  subst r. split; [reflexivity|].
  destruct (X13_route_returns_the_requested_count _ _ _ _ _ _ E)
    as (k & Hk & _ & Hlen & _).
  vm_compute in Hk. injection Hk as <-. exact Hlen.
Defined.

(** ** Further properties of the daily limiter *)

Module RateLimitMore.
Import RateLimit.

(** A call reads and writes the row of its own key only. *)
Lemma call_is_local req (st1 st2 : gmap string QuotaRecord) k :
  apiKey req = Some k ->
  st1 !! id k = st2 !! id k ->
  fst (createDynamicRateLimiter req st1) = fst (createDynamicRateLimiter req st2)
  /\ snd (createDynamicRateLimiter req st1) !! id k
     = snd (createDynamicRateLimiter req st2) !! id k.
Proof.
  intros Hk Hrow.
  unfold createDynamicRateLimiter, ledgerStep, select, consume,
    resetCounter, checkAndIncrement, upsert, update.
  rewrite Hk, <- ?Hrow.
  repeat (case_match; simplify_eq/=; try done).
  all: split; [reflexivity|].
  all: rewrite ?lookup_insert_eq, ?lookup_alter_eq; congruence.
Qed.

Lemma call_leaves_other_keys req (st : gmap string QuotaRecord) j :
  (forall k, apiKey req = Some k -> id k <> j) ->
  snd (createDynamicRateLimiter req st) !! j = st !! j.
Proof.
  intros Hother.
  unfold createDynamicRateLimiter, ledgerStep, select, consume,
    resetCounter, checkAndIncrement, upsert, update.
  destruct (apiKey req) as [k|]; [|reflexivity].
  specialize (Hother k eq_refl).
  repeat (case_match; simplify_eq/=; try done).
  all: now rewrite ?lookup_insert_ne, ?lookup_alter_ne by done.
Qed.

(** X14: calls of two different keys do not affect each other: served in
    either order each gets the same outcome and the table ends up the
    same, whatever the store does to either call. *)
Theorem X14_calls_of_different_keys_commute
    (r1 r2 : Request) (k1 k2 : ApiKey) (st : gmap string QuotaRecord) :
  apiKey r1 = Some k1 ->
  apiKey r2 = Some k2 ->
  id k1 <> id k2 ->
  exists o1 o2 st',
    serve [r1; r2] st = ([o1; o2], st')
    /\ serve [r2; r1] st = ([o2; o1], st').
Proof.
  intros H1 H2 Hne. cbn [serve].
  destruct (createDynamicRateLimiter r1 st) as [o1 sa] eqn:Ea.
  destruct (createDynamicRateLimiter r2 sa) as [o2 sab] eqn:Eab.
  destruct (createDynamicRateLimiter r2 st) as [o2' sb] eqn:Eb.
  destruct (createDynamicRateLimiter r1 sb) as [o1' sba] eqn:Eba.
  assert (Ha_other : sa !! id k2 = st !! id k2).
  { pose proof (call_leaves_other_keys r1 st (id k2)) as H.
    rewrite Ea in H. apply H. intros k Hk. congruence. }
  assert (Hb_other : sb !! id k1 = st !! id k1).
  { pose proof (call_leaves_other_keys r2 st (id k1)) as H.
    rewrite Eb in H. apply H. intros k Hk. congruence. }
  destruct (call_is_local r2 sa st k2 H2 Ha_other) as [Ho2 Hr2].
  destruct (call_is_local r1 sb st k1 H1 Hb_other) as [Ho1 Hr1].
  rewrite Eab, Eb in Ho2, Hr2. rewrite Eba, Ea in Ho1, Hr1.
  cbn [fst snd] in *. subst o2' o1'.
  exists o1, o2, sab. split; [reflexivity|]. f_equal.
  apply map_eq. intros j.
  destruct (decide (j = id k1)) as [->|Hj1].
  - rewrite Hr1.
    pose proof (call_leaves_other_keys r2 sa (id k1)) as H.
    rewrite Eab in H. symmetry. apply H. intros k Hk. congruence.
  - destruct (decide (j = id k2)) as [->|Hj2].
    + rewrite Hr2.
      pose proof (call_leaves_other_keys r1 sb (id k2)) as H.
      rewrite Eba in H. apply H. intros k Hk. congruence.
    + pose proof (call_leaves_other_keys r1 sb j) as Hx.
      pose proof (call_leaves_other_keys r2 st j) as Hy.
      pose proof (call_leaves_other_keys r2 sa j) as Hz.
      pose proof (call_leaves_other_keys r1 st j) as Hw.
      rewrite Eba in Hx. rewrite Eb in Hy. rewrite Eab in Hz.
      rewrite Ea in Hw. cbn [snd] in *.
      rewrite Hx, Hy, Hz, Hw; try reflexivity; intros k Hk; congruence.
Qed.

(** A key at its ceiling and a fresh key, in either order. *)
Lemma X14_witness_two_keys :
  exists o1 o2 st',
    serve [racer; threePerDay 5] ∅ = ([o1; o2], st')
    /\ serve [threePerDay 5; racer] ∅ = ([o2; o1], st').
Proof.
  apply (X14_calls_of_different_keys_commute racer (threePerDay 5)
           {| id := "key-1"; rateLimit := Some 1%Z |}
           {| id := "key-3"; rateLimit := Some 3%Z |} ∅);
    [reflexivity|reflexivity|discriminate].
Defined.

(** X15: served one after another, calls never store a count above the
    stored ceiling: if no row of the table has [requests_count] above its
    [max_requests], then after a call of a key whose ceiling
    ([rateLimit || 100]) is at least 1 the same holds, whatever the store
    does to the call. *)
Theorem X15_count_never_exceeds_ceiling
    (req : Request) (st : gmap string QuotaRecord) :
  (forall j row, st !! j = Some row ->
     (requests_count row <= max_requests row)%Z) ->
  (forall k, apiKey req = Some k ->
     (1 <= maxRequestsOf (rateLimit k))%Z) ->
  forall j row,
    snd (createDynamicRateLimiter req st) !! j = Some row ->
    (requests_count row <= max_requests row)%Z.
Proof.
  intros Hinv Hceil j row.
  destruct (apiKey req) as [k|] eqn:Hk.
  2:{ unfold createDynamicRateLimiter. rewrite Hk. apply Hinv. }
  specialize (Hceil k eq_refl).
  destruct (decide (id k = j)) as [<-|Hne].
  2:{ rewrite call_leaves_other_keys; [apply Hinv|].
      intros k' Hk'. congruence. }
  unfold createDynamicRateLimiter, ledgerStep, select, consume,
    resetCounter, checkAndIncrement, upsert, update.
  rewrite Hk.
  destruct (String.eqb (id k) ""); [apply Hinv|].
  destruct (on_select (faults req)); cbn.
  - destruct (st !! id k) as [r|] eqn:Hrow; cbn.
    + destruct (last_reset r <? resetTime (clock req))%Z.
      * destruct (on_upsert (faults req)); cbn;
          [rewrite lookup_insert_eq; intros [= <-]; cbn; lia
          |apply Hinv|apply Hinv].
      * destruct (Z.leb_spec (max_requests r) (requests_count r));
          [apply Hinv|].
        destruct (on_update (faults req)); cbn;
          [|apply Hinv|apply Hinv].
        rewrite lookup_alter_eq, Hrow. cbn. intros [= <-]. cbn. lia.
    + destruct (on_upsert (faults req)); cbn;
        [rewrite lookup_insert_eq; intros [= <-]; cbn; lia
        |apply Hinv|apply Hinv].
  - destruct (on_upsert (faults req)); cbn;
      [rewrite lookup_insert_eq; intros [= <-]; cbn; lia
      |apply Hinv|apply Hinv].
  - apply Hinv.
Qed.

(** Three calls of a key with ceiling 1: the stored count stays at 1. *)
Lemma X15_witness_ceiling_one :
  exists row,
    snd (createDynamicRateLimiter racer ∅) !! "key-1" = Some row
    /\ (requests_count row <= max_requests row)%Z.
Proof.
  exists {| requests_count := 1; last_reset := 1000; max_requests := 1 |}.
  assert (Hrow : snd (createDynamicRateLimiter racer ∅) !! "key-1"
                 = Some {| requests_count := 1; last_reset := 1000;
                           max_requests := 1 |})
    by (vm_compute; reflexivity).
  split; [exact Hrow|].
  apply (X15_count_never_exceeds_ceiling racer ∅) with (j := "key-1");
    [| |exact Hrow].
  - intros j row Hj. rewrite lookup_empty in Hj. discriminate Hj.
  - intros k [= <-]. cbn. lia.
Defined.

(** X16: the rate-limit headers are set on the increment path only (the
    call that creates or resets the row goes on without them), and they
    describe the row after the call: [X-RateLimit-Limit] is the stored
    ceiling, [X-RateLimit-Remaining] is not negative and is the ceiling
    minus the count the call writes, [X-RateLimit-Reset] is the day's
    reset time in seconds plus 86400. *)
Theorem X16_headers_describe_the_row_after_the_call
    (req : Request) (st : gmap string QuotaRecord) (h : Headers) :
  fst (createDynamicRateLimiter req st) = Next (Some h) ->
  exists k row,
    apiKey req = Some k
    /\ st !! id k = Some row
    /\ (resetTime (clock req) <= last_reset row)%Z
    /\ limit h = max_requests row
    /\ remaining h = (limit h - (requests_count row + 1))%Z
    /\ (0 <= remaining h)%Z
    /\ reset h = (resetTime (clock req) / 1000 + 86400)%Z
    /\ (on_update (faults req) = Works ->
        snd (createDynamicRateLimiter req st) !! id k =
          Some {| requests_count := (requests_count row + 1)%Z;
                  last_reset := last_reset row;
                  max_requests := max_requests row |}).
Proof.
  unfold createDynamicRateLimiter, ledgerStep, select, consume,
    resetCounter, checkAndIncrement, upsert, update.
  destruct (apiKey req) as [k|]; [|discriminate].
  destruct (String.eqb (id k) ""); [discriminate|].
  destruct (on_select (faults req)); cbn; try discriminate.
  - destruct (st !! id k) as [row|] eqn:Hrow; cbn.
    + destruct (Z.ltb_spec (last_reset row) (resetTime (clock req))).
      * destruct (on_upsert (faults req)); cbn; discriminate.
      * destruct (Z.leb_spec (max_requests row) (requests_count row));
          [discriminate|].
        destruct (on_update (faults req)) eqn:Hupd; cbn;
          try discriminate; intros [= <-]; exists k, row; cbn;
          (repeat split; try lia; try discriminate; try assumption).
        intros _. now rewrite lookup_alter_eq, Hrow.
    + destruct (on_upsert (faults req)); cbn; discriminate.
  - destruct (on_upsert (faults req)); cbn; discriminate.
Qed.

(** The second call of a key with ceiling 3: limit 3, remaining 1. *)
Lemma X16_witness_second_call :
  exists h,
    fst (createDynamicRateLimiter (threePerDay 2)
           (snd (createDynamicRateLimiter (threePerDay 1) ∅)))
      = Next (Some h)
    /\ limit h = 3%Z /\ remaining h = 1%Z.
Proof.
  destruct (createDynamicRateLimiter (threePerDay 2)
              (snd (createDynamicRateLimiter (threePerDay 1) ∅)))
    as [o st'] eqn:E.
  assert (Ho : o = fst (createDynamicRateLimiter (threePerDay 2)
                          (snd (createDynamicRateLimiter (threePerDay 1) ∅))))
    by now rewrite E.
  vm_compute in Ho.
  match type of Ho with _ = Next (Some ?x) => exists x end.
  split; [exact Ho|].
  pose proof (X16_headers_describe_the_row_after_the_call (threePerDay 2)
                (snd (createDynamicRateLimiter (threePerDay 1) ∅))) as H.
  rewrite E in H. cbn [fst] in H.
  destruct (H _ Ho) as (k & row & _ & _ & _ & Hl & Hr & _).
  split; reflexivity.
Defined.

(** X17: when the select resolves with an error and the upsert goes
    through, the call is admitted and the row of the key is rewritten
    with count 1 and the current time, whatever it held: a key that had
    used up its ceiling earlier in the day is let through again. *)
Theorem X17_select_error_resets_the_counter
    (req : Request) (k : ApiKey) (st : gmap string QuotaRecord) :
  apiKey req = Some k ->
  id k <> "" ->
  on_select (faults req) = ReturnsError ->
  on_upsert (faults req) = Works ->
  createDynamicRateLimiter req st =
    (Next None,
     <[id k := {| requests_count := 1; last_reset := now (clock req);
                  max_requests := maxRequestsOf (rateLimit k) |}]> st).
Proof.
  intros Hk Hid Hsel Hups. apply String.eqb_neq in Hid.
  unfold createDynamicRateLimiter, ledgerStep, select, consume,
    resetCounter, upsert.
  now rewrite Hk, Hid, Hsel, Hups.
Qed.

(** A key at its ceiling, and a select that resolves with an error. *)
Lemma X17_witness_exhausted_key_let_through :
  fst (createDynamicRateLimiter
         {| apiKey := Some {| id := "key-1"; rateLimit := Some 1%Z |};
            clock := {| now := 2000; resetTime := 0 |};
            faults := {| on_select := ReturnsError; on_upsert := Works;
                         on_update := Works |} |}
         {[ "key-1" := {| requests_count := 1; last_reset := 1000;
                          max_requests := 1 |} ]})
    = Next None.
Proof.
  assert (Hid : id {| id := "key-1"; rateLimit := Some 1%Z |} <> "")
    by discriminate.
  exact (f_equal fst
           (X17_select_error_resets_the_counter
              {| apiKey := Some {| id := "key-1"; rateLimit := Some 1%Z |};
                 clock := {| now := 2000; resetTime := 0 |};
                 faults := {| on_select := ReturnsError; on_upsert := Works;
                              on_update := Works |} |}
              {| id := "key-1"; rateLimit := Some 1%Z |}
              {[ "key-1" := {| requests_count := 1; last_reset := 1000;
                               max_requests := 1 |} ]}
              eq_refl Hid eq_refl eq_refl)).
Defined.

End RateLimitMore.


(** ** The key check and the key service *)

Module AuthFacts.

Import Auth.

Lemma splitOn_noSpace s : noSpace s = true -> splitOn space s = [s].
Proof.
  induction s as [|c s IH]; intros H; [reflexivity|].
  cbn [noSpace] in H. apply andb_true_iff in H as [Hc Hs].
  apply negb_true_iff in Hc.
  cbn [splitOn]. rewrite Hc, (IH Hs). reflexivity.
Qed.

Lemma splitOn_app a b :
  noSpace a = true ->
  splitOn space (a +:+ String space b) = a :: splitOn space b.
Proof.
  induction a as [|c a IH]; intros H.
  - change ("" +:+ String space b) with (String space b).
    cbn [splitOn]. rewrite Ascii.eqb_refl. reflexivity.
  - change (String c a +:+ String space b)
      with (String c (a +:+ String space b)).
    cbn [noSpace] in H. apply andb_true_iff in H as [Hc Hs].
    apply negb_true_iff in Hc.
    cbn [splitOn]. rewrite Hc, (IH Hs). reflexivity.
Qed.

Lemma split_bearer key :
  noSpace key = true ->
  nth_error (splitOn space ("Bearer " +:+ key)) 1 = Some key.
Proof.
  intros H.
  change ("Bearer " +:+ key) with ("Bearer" +:+ String space key).
  rewrite splitOn_app by reflexivity.
  rewrite (splitOn_noSpace _ H). reflexivity.
Qed.

Lemma bearer_header_passes key :
  negb (Js.truthy (Some ("Bearer " +:+ key)))
  || negb (Js.startsWith (Js.default_to (Some ("Bearer " +:+ key)) "")
             "Bearer ") = false.
Proof.
  unfold Js.startsWith, Js.default_to. rewrite prefix_append.
  reflexivity.
Qed.

(** What the middleware does with a header that presents a valid key,
    by the behaviour of its two store calls. *)
Lemma authenticate_valid cr f keys authorization row :
  Gateway.presentsKey cr keys authorization row ->
  authenticateApiKey cr f authorization keys =
    match on_lookup f with
    | RateLimit.Rejects => (authServiceError, keys)
    | RateLimit.ReturnsError =>
        (denied401 "Invalid API key" "invalid_api_key", keys)
    | RateLimit.Works =>
        match updateUsage (on_usage f) (k_id row) NaN keys with
        | (Return _, keys') =>
            (Authenticated {| RateLimit.id := k_id row;
                              RateLimit.rateLimit := rate_limit row |},
             keys')
        | (Throw _, keys') => (authServiceError, keys')
        end
    end.
Proof.
  intros (key & -> & Hpre & Hsp & Hrow & Hrev).
  unfold authenticateApiKey.
  rewrite bearer_header_passes.
  cbn [Js.default_to]. rewrite (split_bearer _ Hsp), Hpre.
  cbn [negb]. unfold selectByHash.
  destruct (on_lookup f); try reflexivity.
  rewrite Hrow. cbn [d_revoked d_id d_rate_limit]. rewrite Hrev.
  reflexivity.
Qed.

(** X18. A request passes the key check only if its header starts with
    [Bearer ], the token after the first space starts with
    [feather-ops-apikey-], the [keys] table holds exactly one row whose
    hash is the salted hash of the token, and that row is not revoked; the
    identity handed on is that row's id and rate limit. *)
Theorem X18_only_a_known_unrevoked_key_passes
    cr f authorization keys k keys'
    (Hpass : authenticateApiKey cr f authorization keys
             = (Authenticated k, keys')) :
  exists hdr token row,
    authorization = Some hdr /\
    Js.startsWith hdr "Bearer " = true /\
    nth_error (splitOn space hdr) 1 = Some token /\
    Js.startsWith token "feather-ops-apikey-" = true /\
    List.filter (fun r => String.eqb (key_hash r) (hashKey cr token)) keys
      = [row] /\
    revoked row = false /\
    k = {| RateLimit.id := k_id row; RateLimit.rateLimit := rate_limit row |}.
Proof.
  unfold authenticateApiKey in Hpass.
  destruct authorization as [hdr|]; [|discriminate Hpass].
  cbn [Js.default_to] in Hpass.
  destruct (Js.truthy (Some hdr)); [|discriminate Hpass].
  destruct (Js.startsWith hdr "Bearer ") eqn:Hb; [|discriminate Hpass].
  cbn [negb orb] in Hpass.
  destruct (nth_error (splitOn space hdr) 1) as [token|] eqn:Ht;
    [|discriminate Hpass].
  destruct (Js.startsWith token "feather-ops-apikey-") eqn:Hp;
    [|discriminate Hpass].
  cbn [negb] in Hpass. unfold selectByHash in Hpass.
  destruct (on_lookup f); try discriminate Hpass.
  destruct (List.filter _ keys) as [|row [|]] eqn:Hrows;
    try discriminate Hpass.
  cbn [d_revoked d_id d_rate_limit] in Hpass.
  destruct (revoked row) eqn:Hrev; [discriminate Hpass|].
  destruct (updateUsage _ _ _ keys) as [[]]; [|discriminate Hpass].
  injection Hpass as <- _.
  exists hdr, token, row. repeat split; assumption || reflexivity.
Qed.

Lemma X18_witness_one_stored_key :
  exists hdr token row,
    Some "Bearer feather-ops-apikey-00ff" = Some hdr /\
    Js.startsWith hdr "Bearer " = true /\
    nth_error (splitOn space hdr) 1 = Some token /\
    Js.startsWith token "feather-ops-apikey-" = true /\
    List.filter
      (fun r => String.eqb (key_hash r) (hashKey plainCrypto token))
      [ {| k_id := "key-1";
           key_hash := "h(feather-ops-apikey-00ffpepper)";
           owner_email := "a@example.org"; rate_limit := Some 3%Z;
           usage_count := Some 0%Z; created_at := 0; revoked := false |} ]
      = [row] /\
    revoked row = false /\
    {| RateLimit.id := "key-1"; RateLimit.rateLimit := Some 3%Z |}
    = {| RateLimit.id := k_id row; RateLimit.rateLimit := rate_limit row |}.
Proof.
  eapply (X18_only_a_known_unrevoked_key_passes plainCrypto noAuthFaults).
  vm_compute. reflexivity.
Defined.

(** X19. The key check fails closed.  For a header that presents a valid
    key, a store that rejects the lookup, or answers the lookup and
    rejects the usage update, makes the middleware answer 500
    [authentication_error] and leave the [keys] table as it was: the
    request is not passed on. *)
Theorem X19_key_check_fails_closed cr f keys authorization row
    (Hkey : Gateway.presentsKey cr keys authorization row)
    (Hdown : on_lookup f = RateLimit.Rejects \/
             (on_lookup f = RateLimit.Works /\
              on_usage f = RateLimit.Rejects)) :
  authenticateApiKey cr f authorization keys =
    (Denied 500
       {| eb_message := "Authentication service error";
          eb_type := "server_error"; eb_param := None;
          eb_code := Some "authentication_error" |},
     keys).
Proof.
  rewrite (authenticate_valid _ f _ _ _ Hkey).
  destruct Hdown as [-> | [-> Hu]]; [reflexivity|].
  unfold updateUsage. rewrite Hu. reflexivity.
Qed.

Lemma X19_witness_usage_update_rejects :
  authenticateApiKey plainCrypto
    {| on_lookup := RateLimit.Works; on_usage := RateLimit.Rejects |}
    (Some "Bearer feather-ops-apikey-00ff")
    [ {| k_id := "key-1";
         key_hash := "h(feather-ops-apikey-00ffpepper)";
         owner_email := "a@example.org"; rate_limit := Some 3%Z;
         usage_count := Some 0%Z; created_at := 0; revoked := false |} ]
  = (Denied 500
       {| eb_message := "Authentication service error";
          eb_type := "server_error"; eb_param := None;
          eb_code := Some "authentication_error" |},
     [ {| k_id := "key-1";
          key_hash := "h(feather-ops-apikey-00ffpepper)";
          owner_email := "a@example.org"; rate_limit := Some 3%Z;
          usage_count := Some 0%Z; created_at := 0; revoked := false |} ]).
Proof.
  apply (X19_key_check_fails_closed plainCrypto _ _ _
           {| k_id := "key-1";
              key_hash := "h(feather-ops-apikey-00ffpepper)";
              owner_email := "a@example.org"; rate_limit := Some 3%Z;
              usage_count := Some 0%Z; created_at := 0; revoked := false |}).
  - exists "feather-ops-apikey-00ff". repeat split; reflexivity.
  - right. split; reflexivity.
Defined.

(** X20. The key check never counts a use.  Whatever the header, the table
    and the store's behaviour, every row of [keys] keeps its id, hash,
    owner, rate limit, creation time and revocation flag, and its
    [usage_count] is either what it was or NULL: the update writes
    [data.usage_count + 1] for a [data] that was selected without the
    [usage_count] column. *)
Theorem X20_key_check_never_increments_usage cr f authorization keys :
  Forall2
    (fun r r' =>
       k_id r' = k_id r /\ key_hash r' = key_hash r /\
       owner_email r' = owner_email r /\ rate_limit r' = rate_limit r /\
       created_at r' = created_at r /\ revoked r' = revoked r /\
       (usage_count r' = usage_count r \/ usage_count r' = None))
    keys (snd (authenticateApiKey cr f authorization keys)).
Proof.
  assert (Hsame : forall l : list KeyRow,
             Forall2
               (fun r r' =>
                  k_id r' = k_id r /\ key_hash r' = key_hash r /\
                  owner_email r' = owner_email r /\
                  rate_limit r' = rate_limit r /\
                  created_at r' = created_at r /\ revoked r' = revoked r /\
                  (usage_count r' = usage_count r \/ usage_count r' = None))
               l l).
  { induction l; constructor; [tauto|assumption]. }
  assert (Hupd : forall keyId,
             Forall2
               (fun r r' =>
                  k_id r' = k_id r /\ key_hash r' = key_hash r /\
                  owner_email r' = owner_email r /\
                  rate_limit r' = rate_limit r /\
                  created_at r' = created_at r /\ revoked r' = revoked r /\
                  (usage_count r' = usage_count r \/ usage_count r' = None))
               keys (snd (updateUsage (on_usage f) keyId NaN keys))).
  { intros keyId. unfold updateUsage.
    destruct (on_usage f); cbn [snd]; try apply Hsame.
    clear. induction keys as [|r l IH]; cbn [List.map]; constructor;
      [|exact IH].
    destruct (String.eqb (k_id r) keyId); cbn; tauto. }
  unfold authenticateApiKey.
  repeat (case_match; subst; cbn [snd]; try apply Hsame).
  all: match goal with
       | H : updateUsage _ ?i _ _ = _ |- _ =>
           pose proof (Hupd i) as Hi;
           unfold d_usage_count, plusOne in H; rewrite H in Hi; exact Hi
       end.
Qed.

Lemma filter_none {A} (p : A -> bool) (l : list A) :
  Forall (fun x => p x = false) l -> List.filter p l = [].
Proof.
  induction 1 as [|x l Hx _ IH]; cbn [List.filter]; [reflexivity|].
  now rewrite Hx.
Qed.

Lemma prefix_of_key randomPart :
  Js.startsWith ("feather-ops-apikey-" +:+ randomPart) "feather-ops-apikey-"
  = true.
Proof. apply prefix_append. Qed.

Lemma noSpace_app a b :
  noSpace a = true -> noSpace b = true -> noSpace (a +:+ b) = true.
Proof.
  induction a as [|c a IH]; intros Ha Hb; [exact Hb|].
  change (String c a +:+ b) with (String c (a +:+ b)).
  cbn [noSpace] in *. apply andb_true_iff in Ha as [Hc Ha].
  rewrite Hc, (IH Ha Hb). reflexivity.
Qed.

(** X21. A key that [generateApiKey] hands out is accepted by the key
    check.  With the table answering, an email given, a random part that
    holds no space and whose salted hash is not yet in the table, the call
    returns the key [feather-ops-apikey-<random>] and stores one row; the
    header [Bearer <key>] is refused with 401 before the call and passes
    after it, with the id and the rate limit the call returned (100 when
    none was given). *)
Theorem X21_generated_key_authenticates
    cr nowMs randomPart newId email rateLimit keys
    (Hemail : Js.truthy email = true)
    (Hhex : noSpace randomPart = true)
    (Hfresh : Forall (fun r => key_hash r
                               <> hashKey cr
                                    ("feather-ops-apikey-" +:+ randomPart))
                keys) :
  exists info keys1,
    generateApiKey cr RateLimit.Works nowMs randomPart newId email rateLimit
      keys = (Return info, keys1) /\
    ki_key info = "feather-ops-apikey-" +:+ randomPart /\
    ki_id info = newId /\
    ki_rate_limit info = Some (match rateLimit with
                               | Some r => r
                               | None => 100%Z
                               end) /\
    fst (authenticateApiKey cr noAuthFaults
           (Some ("Bearer " +:+ ki_key info)) keys)
    = denied401 "Invalid API key" "invalid_api_key" /\
    fst (authenticateApiKey cr noAuthFaults
           (Some ("Bearer " +:+ ki_key info)) keys1)
    = Authenticated {| RateLimit.id := newId;
                       RateLimit.rateLimit := ki_rate_limit info |}.
Proof.
  unfold generateApiKey. rewrite Hemail. cbn [negb].
  eexists _, _. split; [reflexivity|]. cbn [ki_key ki_id ki_rate_limit].
  repeat split.
  - set (key := "feather-ops-apikey-" +:+ randomPart) in *.
    assert (Hsp : noSpace key = true)
      by (apply noSpace_app; [reflexivity|exact Hhex]).
    unfold authenticateApiKey. rewrite bearer_header_passes.
    cbn [Js.default_to]. rewrite (split_bearer _ Hsp).
    unfold key at 1. rewrite prefix_of_key. cbn [negb].
    unfold selectByHash, noAuthFaults. cbn [on_lookup].
    rewrite filter_none; [reflexivity|].
    eapply Forall_impl; [exact Hfresh|]. intros r Hr. cbv beta in Hr.
    now apply String.eqb_neq.
  - match goal with
    | |- fst (authenticateApiKey _ _ _ (_ ++ [?row])%list) = _ =>
        rewrite (authenticate_valid cr noAuthFaults _ _ row)
    end.
    + reflexivity.
    + exists ("feather-ops-apikey-" +:+ randomPart).
      repeat split.
      * apply prefix_of_key.
      * apply noSpace_app; [reflexivity|exact Hhex].
      * rewrite List.filter_app, filter_none.
        -- cbn [List.filter key_hash app]. now rewrite String.eqb_refl.
        -- eapply Forall_impl; [exact Hfresh|]. intros r Hr. cbv beta in Hr.
           now apply String.eqb_neq.
Qed.

Lemma X21_witness_first_key :
  exists info keys1,
    generateApiKey plainCrypto RateLimit.Works 1000 "00ff" "key-1"
      (Some "a@example.org") None [] = (Return info, keys1) /\
    ki_key info = "feather-ops-apikey-" +:+ "00ff" /\
    ki_id info = "key-1" /\
    ki_rate_limit info = Some 100%Z /\
    fst (authenticateApiKey plainCrypto noAuthFaults
           (Some ("Bearer " +:+ ki_key info)) [])
    = denied401 "Invalid API key" "invalid_api_key" /\
    fst (authenticateApiKey plainCrypto noAuthFaults
           (Some ("Bearer " +:+ ki_key info)) keys1)
    = Authenticated {| RateLimit.id := "key-1";
                       RateLimit.rateLimit := ki_rate_limit info |}.
Proof.
  apply (X21_generated_key_authenticates plainCrypto 1000 "00ff" "key-1"
           (Some "a@example.org") None []).
  - reflexivity.
  - reflexivity.
  - constructor.
Defined.

Lemma authenticate_bearer cr f keys key :
  Js.startsWith key "feather-ops-apikey-" = true ->
  noSpace key = true ->
  authenticateApiKey cr f (Some ("Bearer " +:+ key)) keys =
    match selectByHash (on_lookup f) (hashKey cr key) keys with
    | Throw _ => (authServiceError, keys)
    | Return None => (denied401 "Invalid API key" "invalid_api_key", keys)
    | Return (Some data) =>
        if d_revoked data then
          (denied401 "API key has been revoked" "revoked_api_key", keys)
        else
          match updateUsage (on_usage f) (d_id data)
                  (plusOne (d_usage_count data)) keys with
          | (Return _, keys') =>
              (Authenticated
                 {| RateLimit.id := d_id data;
                    RateLimit.rateLimit := d_rate_limit data |},
               keys')
          | (Throw _, keys') => (authServiceError, keys')
          end
    end.
Proof.
  intros Hpre Hsp. unfold authenticateApiKey.
  rewrite bearer_header_passes. cbn [Js.default_to].
  rewrite (split_bearer _ Hsp), Hpre. reflexivity.
Qed.

Lemma filter_map_same {A} (p : A -> bool) (g : A -> A) (l : list A) :
  (forall x, p (g x) = p x) ->
  List.filter p (List.map g l) = List.map g (List.filter p l).
Proof.
  intros Hp. induction l as [|x l IH]; [reflexivity|].
  cbn [List.map List.filter]. rewrite Hp.
  destruct (p x); cbn [List.map]; now rewrite IH.
Qed.

Lemma markRevoked_key_hash keyId r :
  key_hash (markRevoked keyId r) = key_hash r.
Proof. unfold markRevoked. now destruct (String.eqb (k_id r) keyId). Qed.

Lemma markRevoked_k_id keyId r : k_id (markRevoked keyId r) = k_id r.
Proof. unfold markRevoked. now destruct (String.eqb (k_id r) keyId). Qed.

(** X22. Revocation takes effect at the key check and touches one key
    only.  For a header that presents a valid key whose row is the only one
    with its id, [revokeApiKey] of that id returns [revoked: true]; from
    then on the same header is refused with 401 [revoked_api_key] and the
    table is not written; every row with another id is as before. *)
Theorem X22_revoked_key_is_refused cr f keys authorization row
    (Hkey : Gateway.presentsKey cr keys authorization row)
    (Hid : k_id row <> "")
    (Hunique : List.filter (fun r => String.eqb (k_id r) (k_id row)) keys
               = [row])
    (Hlookup : on_lookup f = RateLimit.Works) :
  exists rv keys1,
    revokeApiKey RateLimit.Works (Some (k_id row)) keys
    = (Return rv, keys1) /\
    rv_id rv = k_id row /\ rv_revoked rv = true /\
    authenticateApiKey cr f authorization keys1
    = (denied401 "API key has been revoked" "revoked_api_key", keys1) /\
    (forall r, In r keys -> k_id r <> k_id row -> In r keys1).
Proof.
  destruct Hkey as (key & -> & Hpre & Hsp & Hrow & Hrev).
  unfold revokeApiKey.
  assert (Htruthy : Js.truthy (Some (k_id row)) = true).
  { unfold Js.truthy. apply negb_true_iff. now apply String.eqb_neq. }
  rewrite Htruthy. cbn [negb Js.default_to].
  rewrite (filter_map_same (fun r => String.eqb (k_id r) (k_id row)))
    by (intros x; now rewrite markRevoked_k_id).
  rewrite Hunique. cbn [List.map].
  eexists _, _. split; [reflexivity|].
  assert (Hmark : revoked (markRevoked (k_id row) row) = true).
  { unfold markRevoked. now rewrite String.eqb_refl. }
  cbn [rv_id rv_revoked]. rewrite markRevoked_k_id.
  repeat split; [exact Hmark| |].
  - rewrite (authenticate_bearer _ _ _ _ Hpre Hsp).
    unfold selectByHash. rewrite Hlookup.
    rewrite (filter_map_same
               (fun r => String.eqb (key_hash r) (hashKey cr key)))
      by (intros x; now rewrite markRevoked_key_hash).
    rewrite Hrow. cbn [List.map d_revoked]. now rewrite Hmark.
  - intros r Hin Hne. apply in_map_iff. exists r. split; [|exact Hin].
    unfold markRevoked.
    destruct (String.eqb_spec (k_id r) (k_id row)); [contradiction|].
    reflexivity.
Qed.

Lemma X22_witness_one_of_two_keys :
  exists rv keys1,
    revokeApiKey RateLimit.Works (Some "key-1")
      [ {| k_id := "key-1";
           key_hash := "h(feather-ops-apikey-00ffpepper)";
           owner_email := "a@example.org"; rate_limit := Some 3%Z;
           usage_count := Some 0%Z; created_at := 0; revoked := false |};
        {| k_id := "key-2";
           key_hash := "h(feather-ops-apikey-11eepepper)";
           owner_email := "b@example.org"; rate_limit := Some 5%Z;
           usage_count := Some 0%Z; created_at := 0; revoked := false |} ]
    = (Return rv, keys1) /\
    rv_id rv = "key-1" /\ rv_revoked rv = true /\
    authenticateApiKey plainCrypto noAuthFaults
      (Some ("Bearer " +:+ "feather-ops-apikey-00ff")) keys1
    = (denied401 "API key has been revoked" "revoked_api_key", keys1) /\
    (forall r,
        In r
          [ {| k_id := "key-1";
               key_hash := "h(feather-ops-apikey-00ffpepper)";
               owner_email := "a@example.org"; rate_limit := Some 3%Z;
               usage_count := Some 0%Z; created_at := 0;
               revoked := false |};
            {| k_id := "key-2";
               key_hash := "h(feather-ops-apikey-11eepepper)";
               owner_email := "b@example.org"; rate_limit := Some 5%Z;
               usage_count := Some 0%Z; created_at := 0;
               revoked := false |} ] ->
        k_id r <> "key-1" -> In r keys1).
Proof.
  apply (X22_revoked_key_is_refused plainCrypto noAuthFaults _ _
           {| k_id := "key-1";
              key_hash := "h(feather-ops-apikey-00ffpepper)";
              owner_email := "a@example.org"; rate_limit := Some 3%Z;
              usage_count := Some 0%Z; created_at := 0; revoked := false |}).
  - exists "feather-ops-apikey-00ff". repeat split; reflexivity.
  - discriminate.
  - reflexivity.
  - reflexivity.
Defined.

End AuthFacts.


(** ** The route behind its middlewares *)

Module GatewayFacts.

Import Gateway.





(** What the key check hands on for a valid key when its store calls do
    not reject. *)
Lemma authenticate_known cr f ks authorization row :
  presentsKey cr ks authorization row ->
  Auth.on_lookup f = RateLimit.Works ->
  Auth.on_usage f <> RateLimit.Rejects ->
  exists ks',
    Auth.authenticateApiKey cr f authorization ks =
      (Auth.Authenticated
         {| RateLimit.id := Auth.k_id row;
            RateLimit.rateLimit := Auth.rate_limit row |}, ks').
Proof.
  intros Hkey Hl Hu.
  rewrite (AuthFacts.authenticate_valid _ f _ _ _ Hkey), Hl.
  unfold Auth.updateUsage.
  destruct (Auth.on_usage f); [eexists; reflexivity..|contradiction].
Qed.

(** X24. A key that has used up its day never reaches the image service.
    For a header that presents a valid key, with the stores answering, a
    [rate_limits] row of today whose count has reached its ceiling makes
    the route answer 429 [rate_limit_exceeded]; the [rate_limits] table
    and the world of the image service are exactly as before: no upstream
    call, no object stored, no row logged. *)
Theorem X24_exhausted_key_never_reaches_the_upstream c req s row q
    (Hkey : presentsKey (crypto c) (keys s) (authorization req) row)
    (Hid : Auth.k_id row <> "")
    (Hlookup : Auth.on_lookup (authFaults c) = RateLimit.Works)
    (Husage : Auth.on_usage (authFaults c) <> RateLimit.Rejects)
    (Hstore : limiterFaults c = RateLimit.noFaults)
    (Hq : rate_limits s !! Auth.k_id row = Some q)
    (Htoday : (RateLimit.resetTime (clock c) <= RateLimit.last_reset q)%Z)
    (Hfull : (RateLimit.max_requests q <= RateLimit.requests_count q)%Z) :
  status (fst (postGenerationsRoute c req s)) = 429%Z /\
  payload (fst (postGenerationsRoute c req s))
  = Failure {| eb_message := "Rate limit exceeded. Please try again later.";
               eb_type := "rate_limit_error"; eb_param := None;
               eb_code := Some "rate_limit_exceeded" |} /\
  rate_limits (snd (postGenerationsRoute c req s)) = rate_limits s /\
  world (snd (postGenerationsRoute c req s)) = world s.
Proof.
  destruct (authenticate_known _ _ _ _ _ Hkey Hlookup Husage)
    as (ks' & Hauth).
  unfold postGenerationsRoute. rewrite Hauth, Hstore.
  change {| RateLimit.apiKey := Some ?k; RateLimit.clock := ?cl;
            RateLimit.faults := RateLimit.noFaults |}
    with (RateLimit.call k cl).
  rewrite (RateLimitFacts.call_current
             {| RateLimit.id := Auth.k_id row;
                RateLimit.rateLimit := Auth.rate_limit row |}
             (clock c) _ q Hid Hq Htoday).
  apply Z.leb_le in Hfull. rewrite Hfull.
  cbn. repeat split; reflexivity.
Qed.

Lemma X24_witness_three_of_three :
  status (fst (postGenerationsRoute calmConditions
                 {| authorization := sampleHeader;
                    body := unknownModelBody |} (sampleServer 3)))
  = 429%Z /\
  payload (fst (postGenerationsRoute calmConditions
                  {| authorization := sampleHeader;
                     body := unknownModelBody |} (sampleServer 3)))
  = Failure {| eb_message := "Rate limit exceeded. Please try again later.";
               eb_type := "rate_limit_error"; eb_param := None;
               eb_code := Some "rate_limit_exceeded" |} /\
  rate_limits (snd (postGenerationsRoute calmConditions
                      {| authorization := sampleHeader;
                         body := unknownModelBody |} (sampleServer 3)))
  = rate_limits (sampleServer 3) /\
  world (snd (postGenerationsRoute calmConditions
                {| authorization := sampleHeader;
                   body := unknownModelBody |} (sampleServer 3)))
  = world (sampleServer 3).
Proof.
  apply (X24_exhausted_key_never_reaches_the_upstream calmConditions
           {| authorization := sampleHeader; body := unknownModelBody |}
           (sampleServer 3) sampleKey
           {| RateLimit.requests_count := 3;
              RateLimit.last_reset := 86400000;
              RateLimit.max_requests := 3 |}).
  - exists "feather-ops-apikey-00ff". repeat split; reflexivity.
  - discriminate.
  - reflexivity.
  - discriminate.
  - reflexivity.
  - reflexivity.
  - vm_compute. discriminate.
  - vm_compute. discriminate.
Defined.



End GatewayFacts.


(** ** The keep-alive service *)

Module KeepAliveFacts.

Import KeepAlive.

Lemma firstn_all_le {A} (n : nat) (l : list A) :
  (length l <= n)%nat -> List.firstn n l = l.
Proof.
  revert n. induction l as [|x l IH]; intros [|n] H; cbn in *;
    try reflexivity; try lia.
  f_equal. apply IH. lia.
Qed.

Lemma firstn_length_le {A} (n : nat) (l : list A) :
  (length (List.firstn n l) <= n)%nat.
Proof.
  revert n. induction l as [|x l IH]; intros [|n]; cbn; try lia.
  specialize (IH n). lia.
Qed.

Lemma firstn_app_firstn {A} (a b : list A) : forall m n,
  (m <= n)%nat ->
  List.firstn m (a ++ List.firstn n b) = List.firstn m (a ++ b).
Proof.
  induction a as [|x a IH]; intros m n H.
  - cbn [app]. revert m n H.
    induction b as [|y b IHb]; intros [|m] [|n] H; cbn;
      try reflexivity; try lia.
    f_equal. apply IHb. lia.
  - destruct m as [|m]; [reflexivity|].
    cbn [app List.firstn]. f_equal. apply IH. lia.
Qed.

(** [addLog] keeps the first [maxLogs] of the entry put in front. *)
Lemma addLog_logs entry s :
  logs (addLog entry s) = List.firstn (maxLogs s) (entry :: logs s).
Proof.
  unfold addLog. cbn [logs].
  destruct (Nat.ltb_spec (maxLogs s) (length (entry :: logs s)));
    [reflexivity|].
  symmetry. now apply firstn_all_le.
Qed.

Lemma addLog_run entries : forall s,
  (length (logs s) <= maxLogs s)%nat ->
  maxLogs (fold_left (fun s e => addLog e s) entries s) = maxLogs s /\
  logs (fold_left (fun s e => addLog e s) entries s)
  = List.firstn (maxLogs s) (rev entries ++ logs s).
Proof.
  induction entries as [|e es IH]; intros s Hs.
  - cbn [fold_left rev app]. split; [reflexivity|].
    now rewrite firstn_all_le.
  - cbn [fold_left rev].
    destruct (IH (addLog e s)) as [Hm Hl].
    { rewrite addLog_logs. apply firstn_length_le. }
    split; [exact Hm|].
    rewrite Hl, addLog_logs.
    change (maxLogs (addLog e s)) with (maxLogs s).
    rewrite firstn_app_firstn by lia.
    now rewrite <- List.app_assoc.
Qed.

(** X26. The log of the keep-alive service is a bounded buffer, newest
    first: after any number of [addLog] calls on a fresh service,
    [getLogs] is the last 100 entries added, the most recent first, and
    [getStatus] reports the last 5 of them in that order. *)
Theorem X26_logs_are_the_newest_hundred (entries : list LogEntry) :
  getLogs (fold_left (fun s e => addLog e s) entries construct)
  = List.firstn 100 (rev entries) /\
  st_lastPings
    (getStatus (fold_left (fun s e => addLog e s) entries construct))
  = List.firstn 5 (rev entries).
Proof.
  destruct (addLog_run entries construct) as [_ Hl]; [cbn; lia|].
  cbn [logs maxLogs construct] in Hl. rewrite List.app_nil_r in Hl.
  unfold getLogs, getStatus. cbn [st_lastPings]. rewrite Hl.
  split; [reflexivity|].
  rewrite <- (List.app_nil_l (List.firstn 100 (rev entries))).
  rewrite firstn_app_firstn by lia. reflexivity.
Qed.

Lemma settled_boot : settled boot.
Proof. repeat split; cbn; try lia. now left. Qed.

Lemma settled_happen port r h : settled r -> settled (happen port r h).
Proof.
  intros (Hmax & Hlen & Htimers).
  destruct h as [target minutes now| |handle now|i result now];
    cbn [happen].
  - unfold start.
    destruct (isRunning (service r)) eqn:Hrun.
    + repeat split; cbn; try assumption. now rewrite Hrun.
    + destruct Htimers as [[_ Ht]|[Hr _]]; [|congruence].
      repeat split; cbn; try assumption.
      right. split; [reflexivity|]. eexists. split; [reflexivity|].
      now rewrite Ht.
  - unfold stop.
    destruct (isRunning (service r)) eqn:Hrun; cbn [negb].
    + destruct Htimers as [[Hr _]|[_ (h & Hi & Ht)]]; [congruence|].
      repeat split; cbn; try assumption.
      left. split; [reflexivity|].
      rewrite Hi, Ht. cbn. now rewrite Nat.eqb_refl.
    + repeat split; cbn; try assumption. now rewrite Hrun.
  - destruct (existsb _ (timers r)); [|now repeat split].
    now repeat split.
  - unfold pingSettle.
    destruct (nth_error (flights r) i) as [fl|]; [|now repeat split].
    destruct result; unfold settled; cbn [service timers];
      (split; [exact Hmax|]);
      (split; [rewrite addLog_logs, Hmax; apply firstn_length_le|]);
      exact Htimers.
Qed.

Lemma settled_history port hs : forall r,
  settled r -> settled (fold_left (happen port) hs r).
Proof.
  induction hs as [|h hs IH]; intros r Hr; [exact Hr|].
  cbn [fold_left]. apply IH. now apply settled_happen.
Qed.

(** X27. The keep-alive service never runs two timers.  After any course
    of [start] and [stop] calls, timer firings and returning pings from
    the constructed state, exactly one interval timer is set while
    [isRunning] holds, it is the one [this.interval] names, with the
    period [pingInterval], and none is set while the service is stopped;
    the log never holds more than 100 entries. *)
Theorem X27_one_timer_while_running_none_when_stopped
    (port : option string) (hs : list Happening) :
  length (timers (history port hs))
  = (if isRunning (service (history port hs)) then 1 else 0)%nat /\
  Forall (fun t =>
            interval (service (history port hs)) = Some (fst t) /\
            snd t = pingInterval (service (history port hs)))
    (timers (history port hs)) /\
  (length (getLogs (service (history port hs))) <= 100)%nat.
Proof.
  destruct (settled_history port hs boot settled_boot)
    as (_ & Hlen & Htimers).
  fold (history port hs) in Hlen, Htimers.
  destruct Htimers as [[Hr Ht]|[Hr (h & Hi & Ht)]]; rewrite Hr, Ht.
  - repeat split; [constructor|exact Hlen].
  - repeat split; [|exact Hlen].
    constructor; [|constructor]. now split.
Qed.

End KeepAliveFacts.
